(** * http-transit: the request-forwarding pipeline

    A shallow embedding of [src/proxy.go] (backend-host pools, forced
    [Host] header, route lookup in [ServeHTTP]), of its sibling variant
    [src/unnamed/part_000] (per-frontend pools, custom dialers, route lookup
    in [forwardRequest]) and of [LoadConfig] ([src/config.go] and the
    second configuration file that [src/main.go] carries after [main],
    lines 44 to 144, which adds [ResolveConfig]).

    Conventions of the embedding:
    - a Go [string] or [[]byte] is a [string] (a sequence of bytes);
    - [http.Header] (a [map[string][]string]) is a [gmap string (list string)];
    - a Go map that the code ranges over, and whose range order can be
      observed, is an association list with pairwise distinct keys: the
      list order is the order in which one execution of [range] visits
      the map, so a statement over all lists covers every order;
    - a nil map is [None];
    - a call of the Go standard library or of a third-party package whose
      result the code cannot influence ([url.Parse], [gzip], [humanize],
      the case tables of [unicode], the backend itself) is a field of a
      record that the definitions take as a parameter;
    - a panic is an outcome of its own: [None] for [WriteHeader] and
      [http.Error], [Panicked] for [forwardRequest], [Aborted] for a
      handler. *)

From Stdlib Require Import Ascii String ZArith List Sorting.Mergesort Orders.
From stdpp Require Import base option list gmap strings fin_maps pretty sorting.

Local Open Scope string_scope.

(** ** The library *)

Record URL := { url_Host : string; url_Path : string; url_RawQuery : string }.

(** The calls into the Go standard library and into [go-humanize] whose
    results the proxy only consumes. *)
Record Lib := {
  (** [url.Parse]: the parsed URL, or [None] for an error. *)
  url_Parse : string -> option URL;
  (** [http.NewRequest] for a method and a URL: the error, if any. *)
  http_NewRequest : string -> string -> option string;
  (** [gzip.Reader.Reset] followed by [io.ReadAll]: the inflated bytes, or
      [None] for an error of either call. *)
  gzip_ReadAll : string -> option string;
  (** [humanize.IBytes] of a length. *)
  humanize_IBytes : nat -> string;
  (** [%v] of a [time.Duration] and [%d] of an [int]. *)
  fmt_Duration : Z -> string;
  fmt_Int : Z -> string;
  (** [strings.Map(unicode.ToLower, s)]: what [strings.ToLower] returns for
      a string that holds a byte outside ASCII (the case tables of package
      [unicode], the re-encoding of invalid UTF-8). *)
  unicode_ToLower : string -> string
}.

(** ** Strings: the functions of package [strings] that the code calls *)

Definition HasPrefix (s prefix : string) : bool := String.prefix prefix s.

Fixpoint HasSuffix_rev (rs rsuffix : list ascii) : bool :=
  match rsuffix, rs with
  | [], _ => true
  | c :: t, d :: u => if Ascii.eqb c d then HasSuffix_rev u t else false
  | _ :: _, [] => false
  end.

Definition HasSuffix (s suffix : string) : bool :=
  HasSuffix_rev (rev (list_ascii_of_string s)) (rev (list_ascii_of_string suffix)).

(** [strings.TrimSuffix]: the string without the given trailing suffix,
    removed once; the string itself when it does not end with it. *)
Definition TrimSuffix (s suffix : string) : string :=
  if HasSuffix s suffix
  then String.substring 0 (String.length s - String.length suffix) s
  else s.

(** [strings.Index]: [None] stands for the result -1. *)
Definition Index (s substr : string) : option nat := String.index 0 substr s.

Definition Contains (s substr : string) : bool :=
  match Index s substr with Some _ => true | None => false end.

Definition is_upper (c : ascii) : bool :=
  let n := nat_of_ascii c in (65 <=? n)%nat && (n <=? 90)%nat.

Definition is_lower (c : ascii) : bool :=
  let n := nat_of_ascii c in (97 <=? n)%nat && (n <=? 122)%nat.

Definition lower_byte (c : ascii) : ascii :=
  if is_upper c then ascii_of_nat (nat_of_ascii c + 32) else c.

Definition upper_byte (c : ascii) : ascii :=
  if is_lower c then ascii_of_nat (nat_of_ascii c - 32) else c.

Fixpoint all_bytes (f : ascii -> bool) (s : string) : bool :=
  match s with
  | EmptyString => true
  | String c s' => f c && all_bytes f s'
  end.

(** A byte below [utf8.RuneSelf]. *)
Definition is_ASCII (c : ascii) : bool := (nat_of_ascii c <? 128)%nat.

(** The loop of [strings.ToLower] for a string of ASCII bytes: the letters
    A-Z are folded, every other byte is kept. *)
Fixpoint ToLower_ASCII (s : string) : string :=
  match s with
  | EmptyString => EmptyString
  | String c s' => String (lower_byte c) (ToLower_ASCII s')
  end.

(** [strings.ToLower]: a string of ASCII bytes is folded byte by byte; any
    other string goes through [unicode.ToLower], rune by rune. *)
Definition ToLower (lib : Lib) (s : string) : string :=
  if all_bytes is_ASCII s then ToLower_ASCII s else unicode_ToLower lib s.

Definition nonempty (s : string) : bool :=
  match s with EmptyString => false | String _ _ => true end.

(** ** [net/http]: header maps *)

(** [validHeaderFieldByte]: the token characters of RFC 7230. *)
Definition validHeaderFieldByte (c : ascii) : bool :=
  let n := nat_of_ascii c in
  is_upper c || is_lower c || ((48 <=? n)%nat && (n <=? 57)%nat) ||
  existsb (Nat.eqb n) [33; 35; 36; 37; 38; 39; 42; 43; 45; 46; 94; 95; 96; 124; 126]%nat.

Definition is_dash (c : ascii) : bool := Ascii.eqb c "-"%char.

Fixpoint canonical_from (upper : bool) (s : string) : string :=
  match s with
  | EmptyString => EmptyString
  | String c s' =>
      let c' := if upper then upper_byte c else lower_byte c in
      String c' (canonical_from (is_dash c') s')
  end.

(** [textproto.CanonicalMIMEHeaderKey]: a key made of token characters gets
    an upper-case letter first and after every dash and lower-case letters
    elsewhere; a key with any other byte is returned as it is. *)
Definition CanonicalMIMEHeaderKey (s : string) : string :=
  if all_bytes validHeaderFieldByte s then canonical_from true s else s.

Abbreviation http_Header := (gmap string (list string)).

(** [Header.Get]: the first value under the canonical key, or the empty
    string. *)
Definition Header_Get (h : http_Header) (key : string) : string :=
  match h !! CanonicalMIMEHeaderKey key with
  | Some (v :: _) => v
  | _ => EmptyString
  end.

Definition Header_Set (h : http_Header) (key value : string) : http_Header :=
  <[CanonicalMIMEHeaderKey key := [value]]> h.

Definition Header_Del (h : http_Header) (key : string) : http_Header :=
  delete (CanonicalMIMEHeaderKey key) h.

(** A header map as the server's parser builds it: every key is in
    canonical form. *)
Definition canonical_keys (h : http_Header) : Prop :=
  forall k, is_Some (h !! k) -> CanonicalMIMEHeaderKey k = k.

(** A Go map together with one order of ranging over it. *)
Abbreviation gomap V := (list (string * V)).

Definition gomap_get {V} (m : gomap V) (k : string) : option V :=
  snd <$> find (fun kv => String.eqb (fst kv) k) m.

(** ** [config.go] *)

Record ServerConfig := { Port : Z; Public : bool }.

Record LogConfig := { Level : string; File : string }.

Record ResolveConfig := { DNS : string; IP : string }.

Record HeadersConfig := {
  Set_ : gomap string;
  Extra : gomap string;
  Remove : list string;
  ForwardClient : bool;
  removes : option (gset string)
}.

(** [Resolve] exists in the configuration file carried by [src/main.go]
    only; [src/config.go] has no such field and [src/proxy.go] never reads
    it. *)
Record TransitRule := {
  BackendBase : string;
  BackendPrefix : string;
  Resolve : ResolveConfig;
  Headers : HeadersConfig
}.

Record Config := {
  Server : ServerConfig;
  Log : LogConfig;
  TransitMap : gomap TransitRule
}.

Definition with_removes (h : HeadersConfig) (rm : option (gset string)) : HeadersConfig :=
  {| Set_ := Set_ h; Extra := Extra h; Remove := Remove h;
     ForwardClient := ForwardClient h; removes := rm |}.

Definition with_Headers (rule : TransitRule) (h : HeadersConfig) : TransitRule :=
  {| BackendBase := BackendBase rule; BackendPrefix := BackendPrefix rule;
     Resolve := Resolve rule; Headers := h |}.

Definition with_BackendBase (rule : TransitRule) (b : string) : TransitRule :=
  {| BackendBase := b; BackendPrefix := BackendPrefix rule;
     Resolve := Resolve rule; Headers := Headers rule |}.

(** The inner loop of [LoadConfig]: the lower-cased removal set, built only
    when the list is not empty. *)
Definition build_removes (lib : Lib) (h : HeadersConfig) : HeadersConfig :=
  match Remove h with
  | [] => h
  | _ :: _ =>
      with_removes h
        (Some (foldl (fun (acc : gset string) remove => {[ToLower lib remove]} ∪ acc) ∅ (Remove h)))
  end.

(** The body of [for host, rule := range config.TransitMap] in
    [src/config.go]: [rule] is the loop's own copy of the map element (the
    map holds [TransitRule] values, not pointers); the function returns that
    copy as it is when the body ends. *)
Definition LoadConfig_body (lib : Lib) (rule : TransitRule) : TransitRule :=
  with_Headers rule (build_removes lib (Headers rule)).

(** The same body in the configuration file carried by [src/main.go],
    which first completes the scheme of [rule.BackendBase] on the copy. *)
Definition LoadConfig_body' (lib : Lib) (rule : TransitRule) : TransitRule :=
  let rule :=
    if negb (HasPrefix (BackendBase rule) "http://") && negb (HasPrefix (BackendBase rule) "https://")
    then with_BackendBase rule ("http://" +:+ BackendBase rule)
    else rule in
  with_Headers rule (build_removes lib (Headers rule)).

(** A range loop over a map of struct values whose body only assigns to
    the loop variable: every iteration works on its copy, nothing is stored
    back with [m[host] = rule], and the map is what it was. *)
Definition range_by_value {V} (body : V -> V) (m : gomap V) : gomap V :=
  foldl (fun acc kv => let copy := body (snd kv) in acc) m m.

(** [LoadConfig] after [os.ReadFile] and [json.Unmarshal] succeeded:
    [decoded] is the value the decoder filled in.  Logging is left out. *)
Definition LoadConfig_with (body : TransitRule -> TransitRule) (decoded : Config) : Config :=
  let server :=
    if (Port (Server decoded) =? 0)%Z
    then {| Port := 8080; Public := Public (Server decoded) |}
    else Server decoded in
  {| Server := server; Log := Log decoded;
     TransitMap := range_by_value body (TransitMap decoded) |}.

Definition LoadConfig (lib : Lib) : Config -> Config :=
  LoadConfig_with (LoadConfig_body lib).
Definition LoadConfig' (lib : Lib) : Config -> Config :=
  LoadConfig_with (LoadConfig_body' lib).

(** What [json.Unmarshal] can produce: [removes] is unexported and tagged
    [json:"-"], so it is nil in every decoded rule. *)
Definition json_decoded (c : Config) : Prop :=
  Forall (fun kv => removes (Headers (snd kv)) = None) (TransitMap c).

(** ** [net/http]: requests, responses, the response writer *)

(** The result of [io.ReadAll]: the whole content, or the error. *)
Inductive io_result := ReadOk (data : string) | ReadErr (err : string).

(** The inbound [*http.Request], as far as the proxy reads it. *)
Record Request := {
  req_Host : string;
  req_Method : string;
  req_URL : URL;
  req_Header : http_Header;
  req_Body : io_result
}.

Record Response := {
  resp_StatusCode : Z;
  resp_Header : http_Header;
  resp_Body : io_result
}.

(** The request handed to [client.Do]. *)
Record OutRequest := {
  out_Method : string;
  out_URL : string;
  out_Body : string;
  out_Header : http_Header
}.

Inductive Dialer :=
  | SystemDialer
  | IPDialer (ip : string)
  | DNSDialer (dnsServer : string).

(** A [*http.Client]: [client_id] is the identity of the allocation made by
    [&http.Client{...}]; two pointers are equal exactly when the ids are. *)
Record http_Client := { client_id : nat; client_Dial : Dialer }.

(** An [http.ResponseWriter] of the standard server: the header map the
    handler edits, the informational responses sent so far (each with the
    headers sent along), the status line once it is sent (with the headers
    sent along), the body bytes sent so far, and the outcomes of the
    writes to come ([Some e] for a write that fails with [e]; a write
    succeeds once the list is used up). *)
Record ResponseWriter := {
  w_Header : http_Header;
  w_interim : list (Z * http_Header);
  w_status : option Z;
  w_sent : http_Header;
  w_body : string;
  w_script : list (option string)
}.

Definition fresh_writer (script : list (option string)) : ResponseWriter :=
  {| w_Header := ∅; w_interim := []; w_status := None; w_sent := ∅;
     w_body := EmptyString; w_script := script |}.

Definition w_set_Header (w : ResponseWriter) (h : http_Header) : ResponseWriter :=
  {| w_Header := h; w_interim := w_interim w; w_status := w_status w;
     w_sent := w_sent w; w_body := w_body w; w_script := w_script w |}.

Definition w_send_interim (w : ResponseWriter) (code : Z) : ResponseWriter :=
  {| w_Header := w_Header w; w_interim := w_interim w ++ [(code, w_Header w)];
     w_status := w_status w; w_sent := w_sent w; w_body := w_body w;
     w_script := w_script w |}.

Definition w_send_status (w : ResponseWriter) (code : Z) : ResponseWriter :=
  {| w_Header := w_Header w; w_interim := w_interim w; w_status := Some code;
     w_sent := w_Header w; w_body := w_body w; w_script := w_script w |}.

Definition StatusOK : Z := 200.
Definition StatusSwitchingProtocols : Z := 101.

(** [checkWriteHeaderCode] accepts the three-digit codes from 100 on. *)
Definition valid_status_code (code : Z) : bool :=
  (100 <=? code)%Z && (code <=? 999)%Z.

(** The codes that [WriteHeader] sends as an informational response. *)
Definition informational (code : Z) : bool :=
  (100 <=? code)%Z && (code <=? 199)%Z && negb (code =? StatusSwitchingProtocols)%Z.

(** The codes that [WriteHeader] sends as the status of the response. *)
Definition final_status (code : Z) : bool :=
  valid_status_code code && negb (informational code).

(** [WriteHeader] of the server's response writer: [None] stands for its
    panic.  A call after the status line was sent is superfluous and
    changes nothing, whatever the code.  Otherwise a code below 100 or
    above 999 panics; a code from 100 to 199 other than 101 is sent at
    once as an informational response, with the headers as they are, and
    leaves the status of the response open; any other code is sent as the
    status line with the headers. *)
Definition WriteHeader (w : ResponseWriter) (code : Z) : option ResponseWriter :=
  match w_status w with
  | Some _ => Some w
  | None =>
      if negb (valid_status_code code) then None
      else if informational code then Some (w_send_interim w code)
      else Some (w_send_status w code)
  end.

(** [Write]: calls [WriteHeader(StatusOK)] first when no status line was
    sent yet, then sends the bytes, unless this write fails. *)
Definition Write (w : ResponseWriter) (data : string) : ResponseWriter * option string :=
  let w := default w (WriteHeader w StatusOK) in
  match w_script w with
  | Some e :: rest =>
      ({| w_Header := w_Header w; w_interim := w_interim w; w_status := w_status w;
          w_sent := w_sent w; w_body := w_body w; w_script := rest |}, Some e)
  | None :: rest =>
      ({| w_Header := w_Header w; w_interim := w_interim w; w_status := w_status w;
          w_sent := w_sent w; w_body := w_body w +:+ data; w_script := rest |}, None)
  | [] =>
      ({| w_Header := w_Header w; w_interim := w_interim w; w_status := w_status w;
          w_sent := w_sent w; w_body := w_body w +:+ data; w_script := [] |}, None)
  end.

Definition newline : string := String (ascii_of_nat 10) EmptyString.

(** [http.Error]: two headers, [WriteHeader] with the code, then the text
    and a newline ([fmt.Fprintln]), whose write error is dropped.  [None]
    stands for the panic of [WriteHeader]. *)
Definition http_Error (w : ResponseWriter) (error : string) (code : Z)
    : option ResponseWriter :=
  let h := w_Header w in
  let h := Header_Set h "Content-Type" "text/plain; charset=utf-8" in
  let h := Header_Set h "X-Content-Type-Options" "nosniff" in
  let w := w_set_Header w h in
  match WriteHeader w code with
  | Some w => Some (fst (Write w (error +:+ newline)))
  | None => None
  end.

Definition StatusNotFound : Z := 404.
Definition StatusInternalServerError : Z := 500.

(** ** [ProxyTrace] *)

Record ProxyTrace := {
  StartTime : Z;
  Duration : Z;
  RequestURL : string;
  BackendURL : string;
  Method : string;
  StatusCode : Z;
  Error : option string;
  RequestHeaders : http_Header;
  TransitHeaders : http_Header;
  ResponseHeaders : http_Header;
  RequestBody : string;
  ResponseBody : string
}.

Definition set_Duration (t : ProxyTrace) (d : Z) : ProxyTrace :=
  {| StartTime := StartTime t; Duration := d; RequestURL := RequestURL t;
     BackendURL := BackendURL t; Method := Method t; StatusCode := StatusCode t;
     Error := Error t; RequestHeaders := RequestHeaders t;
     TransitHeaders := TransitHeaders t; ResponseHeaders := ResponseHeaders t;
     RequestBody := RequestBody t; ResponseBody := ResponseBody t |}.

Definition set_BackendURL (t : ProxyTrace) (u : string) : ProxyTrace :=
  {| StartTime := StartTime t; Duration := Duration t; RequestURL := RequestURL t;
     BackendURL := u; Method := Method t; StatusCode := StatusCode t;
     Error := Error t; RequestHeaders := RequestHeaders t;
     TransitHeaders := TransitHeaders t; ResponseHeaders := ResponseHeaders t;
     RequestBody := RequestBody t; ResponseBody := ResponseBody t |}.

Definition set_Error (t : ProxyTrace) (e : string) : ProxyTrace :=
  {| StartTime := StartTime t; Duration := Duration t; RequestURL := RequestURL t;
     BackendURL := BackendURL t; Method := Method t; StatusCode := StatusCode t;
     Error := Some e; RequestHeaders := RequestHeaders t;
     TransitHeaders := TransitHeaders t; ResponseHeaders := ResponseHeaders t;
     RequestBody := RequestBody t; ResponseBody := ResponseBody t |}.

Definition set_RequestBody (t : ProxyTrace) (b : string) : ProxyTrace :=
  {| StartTime := StartTime t; Duration := Duration t; RequestURL := RequestURL t;
     BackendURL := BackendURL t; Method := Method t; StatusCode := StatusCode t;
     Error := Error t; RequestHeaders := RequestHeaders t;
     TransitHeaders := TransitHeaders t; ResponseHeaders := ResponseHeaders t;
     RequestBody := b; ResponseBody := ResponseBody t |}.

Definition set_TransitHeaders (t : ProxyTrace) (h : http_Header) : ProxyTrace :=
  {| StartTime := StartTime t; Duration := Duration t; RequestURL := RequestURL t;
     BackendURL := BackendURL t; Method := Method t; StatusCode := StatusCode t;
     Error := Error t; RequestHeaders := RequestHeaders t;
     TransitHeaders := h; ResponseHeaders := ResponseHeaders t;
     RequestBody := RequestBody t; ResponseBody := ResponseBody t |}.

Definition set_Response (t : ProxyTrace) (code : Z) (h : http_Header) : ProxyTrace :=
  {| StartTime := StartTime t; Duration := Duration t; RequestURL := RequestURL t;
     BackendURL := BackendURL t; Method := Method t; StatusCode := code;
     Error := Error t; RequestHeaders := RequestHeaders t;
     TransitHeaders := TransitHeaders t; ResponseHeaders := h;
     RequestBody := RequestBody t; ResponseBody := ResponseBody t |}.

Definition set_ResponseBody (t : ProxyTrace) (b : string) : ProxyTrace :=
  {| StartTime := StartTime t; Duration := Duration t; RequestURL := RequestURL t;
     BackendURL := BackendURL t; Method := Method t; StatusCode := StatusCode t;
     Error := Error t; RequestHeaders := RequestHeaders t;
     TransitHeaders := TransitHeaders t; ResponseHeaders := ResponseHeaders t;
     RequestBody := RequestBody t; ResponseBody := b |}.

(** [&ProxyTrace{...}] with the fields the literal names; the others are
    zero. *)
Definition new_trace (start : Z) (requestURL backendURL method : string)
    (h : http_Header) : ProxyTrace :=
  {| StartTime := start; Duration := 0; RequestURL := requestURL;
     BackendURL := backendURL; Method := method; StatusCode := 0;
     Error := None; RequestHeaders := h; TransitHeaders := ∅;
     ResponseHeaders := ∅; RequestBody := EmptyString;
     ResponseBody := EmptyString |}.

(** ** The library and the world around one request *)

(** What the outside decides during one request: the two clock readings
    and the answer of [client.Do]. *)
Record Env := {
  time_Now : Z;
  time_Later : Z;
  client_Do : http_Client -> OutRequest -> Response + string
}.

Inductive LogLevel := DebugLevel | InfoLevel | WarnLevel.

Inductive Arg := AStr (s : string) | ADur (d : Z).

(** What a handler does besides writing to its response writer.
    [EvPoolLookup] marks a read of the map [p.clients]. *)
Inductive Event :=
  | EvLog (level : LogLevel) (format : string) (args : list Arg)
  | EvLogTrace (trace : ProxyTrace)
  | EvPoolLookup (key : string)
  | EvDo (client : http_Client) (req : OutRequest).

Record St := { st_w : ResponseWriter; st_events : list Event }.

Definition emit (s : St) (e : Event) : St :=
  {| st_w := st_w s; st_events := st_events s ++ [e] |}.

Definition on_writer (s : St) (f : ResponseWriter -> ResponseWriter) : St :=
  {| st_w := f (st_w s); st_events := st_events s |}.

(** The state in which the server calls the handler: an untouched response
    writer, nothing done yet. *)
Definition start (script : list (option string)) : St :=
  {| st_w := fresh_writer script; st_events := [] |}.

(** [forwardRequest] returns its trace, unless it panics (a method call
    through a nil [*http.Client], or [WriteHeader] with a code it does not
    accept). *)
Inductive Outcome :=
  | Returned (trace : ProxyTrace) (s : St)
  | Panicked (s : St).

Inductive Done :=
  | Finished (s : St)
  | Aborted (s : St).

Definition final_state (d : Done) : St :=
  match d with Finished s => s | Aborted s => s end.

(** A handler that ends with a call of [http.Error]. *)
Definition reply_error (s : St) (error : string) (code : Z) : Done :=
  match http_Error (st_w s) error code with
  | Some w => Finished (on_writer s (fun _ => w))
  | None => Aborted s
  end.

Definition trace_of (o : Outcome) : option ProxyTrace :=
  match o with Returned trace _ => Some trace | Panicked _ => None end.

Definition state_of (o : Outcome) : St :=
  match o with Returned _ s => s | Panicked s => s end.

(** The log call of the branch that handles a URL construction error in
    [ServeHTTP] of [src/proxy.go]. *)
Definition logs_url_failure (e : Event) : bool :=
  match e with
  | EvLog _ format _ => String.eqb format "构建目标URL失败: %v"
  | _ => false
  end.

(** The error of the failed pool lookup in [forwardRequest] of
    [part_000]. *)
Definition is_pool_failure (err : string) : bool :=
  HasPrefix err "服务器未连接: ".

(** The error that the same branch of [forwardRequest] of [part_000]
    records. *)
Definition is_url_failure (err : string) : bool :=
  HasPrefix err "构建目标URL失败: ".

Record ProxyHandler := {
  config : Config;
  clients : gmap string http_Client
}.

(** ** What the two variants share *)

(** [host[:idx]] for the first colon of [r.Host]. *)
Definition strip_port (host : string) : string :=
  match Index host ":" with
  | Some idx => String.substring 0 idx host
  | None => host
  end.

(** [buildTransitBackendURL]: the URL and the error, which is always
    nil. *)
Definition buildTransitBackendURL (rule : TransitRule) (r : Request) : string * option string :=
  let backendBase := TrimSuffix (BackendBase rule) "/" in
  let path := BackendPrefix rule +:+ url_Path (req_URL r) in
  let path :=
    if nonempty (url_RawQuery (req_URL r))
    then path +:+ "?" +:+ url_RawQuery (req_URL r)
    else path in
  let path := if negb (HasPrefix path "/") then "/" +:+ path else path in
  let backendBase :=
    if negb (HasPrefix backendBase "http://") && negb (HasPrefix backendBase "https://")
    then "http://" +:+ backendBase
    else backendBase in
  (backendBase +:+ path, None).

(** [_, ok := removes[k]]: a nil map has no key. *)
Definition removes_has (rm : option (gset string)) (k : string) : bool :=
  match rm with
  | Some s => bool_decide (k ∈ s)
  | None => false
  end.

Definition forward_step (lib : Lib) (rm : option (gset string)) (headers : http_Header)
    (kv : string * list string) : http_Header :=
  if removes_has rm (ToLower lib (fst kv)) then headers
  else <[fst kv := snd kv]> headers.

Definition extra_step (headers : http_Header) (kv : string * string) : http_Header :=
  if nonempty (Header_Get headers (fst kv)) then headers
  else Header_Set headers (fst kv) (snd kv).

Definition set_step (headers : http_Header) (kv : string * string) : http_Header :=
  let headers :=
    if nonempty (Header_Get headers (fst kv)) then Header_Del headers (fst kv)
    else headers in
  Header_Set headers (fst kv) (snd kv).

(** The three loops of [processHeaders], which the variants share. *)
Definition pipeline (lib : Lib) (inbound : http_Header) (hc : HeadersConfig)
    : http_Header :=
  let headers : http_Header := ∅ in
  let headers :=
    if ForwardClient hc
    then foldl (forward_step lib (removes hc)) headers (map_to_list inbound)
    else headers in
  let headers := foldl extra_step headers (Extra hc) in
  let headers := foldl set_step headers (Set_ hc) in
  headers.

(** [for key, values := range resp.Header { w.Header()[key] = values }] *)
Definition copy_headers (src dst : http_Header) : http_Header :=
  foldl (fun acc kv => <[fst kv := snd kv]> acc) dst (map_to_list src).

(** The tail of [ServeHTTP], the same in both variants. *)
Definition finish (env : Env) (trace : ProxyTrace) (s : St) : Done :=
  let trace := set_Duration trace (time_Later env - StartTime trace) in
  let s := emit s (EvLogTrace trace) in
  match Error trace with
  | Some err =>
      let s := emit s (EvLog WarnLevel "%s %s | 耗时: %v | %s"
                         [AStr (Method trace); AStr (RequestURL trace);
                          ADur (Duration trace); AStr err]) in
      reply_error s err StatusInternalServerError
  | None =>
      Finished
        (emit s (EvLog InfoLevel "%s %s | 耗时: %v"
                   [AStr (Method trace); AStr (RequestURL trace); ADur (Duration trace)]))
  end.

(** From the dispatch on, [forwardRequest] is the same in both variants. *)
Definition dispatch (env : Env) (client : http_Client) (req : OutRequest)
    (trace : ProxyTrace) (s : St) : Outcome :=
  let s := emit s (EvDo client req) in
  match client_Do env client req with
  | inr err => Returned (set_Error trace ("转发请求失败: " +:+ err)) s
  | inl resp =>
      let trace := set_Response trace (resp_StatusCode resp) (resp_Header resp) in
      match resp_Body resp with
      | ReadErr err => Returned (set_Error trace ("读取响应体失败: " +:+ err)) s
      | ReadOk rspBody =>
          let trace := set_ResponseBody trace rspBody in
          let s := on_writer s (fun w =>
                     w_set_Header w (copy_headers (resp_Header resp) (w_Header w))) in
          match WriteHeader (st_w s) (resp_StatusCode resp) with
          | None => Panicked s
          | Some w =>
              let s := on_writer s (fun _ => w) in
              let '(w, err) := Write (st_w s) rspBody in
              let s := on_writer s (fun _ => w) in
              match err with
              | Some e => Returned (set_Error trace ("写入响应体失败: " +:+ e)) s
              | None => Returned trace s
              end
          end
      end
  end.

(** ** The variant of [src/proxy.go] *)

Module Proxy.
Section WithLib.
Context (lib : Lib).

(** [extractDomain]: the host of [backend_base], the scheme completed
    first; the completed string itself when it does not parse. *)
Definition extractDomain (backendBase : string) : string :=
  let backendBase :=
    if negb (HasPrefix backendBase "http://") && negb (HasPrefix backendBase "https://")
    then "http://" +:+ backendBase
    else backendBase in
  match url_Parse lib backendBase with
  | None => backendBase
  | Some parsedURL => url_Host parsedURL
  end.

(** [extractHost]: as [extractDomain], without completing the scheme. *)
Definition extractHost (backendBase : string) : string :=
  match url_Parse lib backendBase with
  | None => backendBase
  | Some parsedURL => url_Host parsedURL
  end.

(** One iteration of [initializeClientPools]: the presence test reads the
    key [rule.BackendBase], the store writes the key [domain].  [next] is
    the identity of the next client allocated. *)
Definition pool_step (acc : gmap string http_Client * nat) (kv : string * TransitRule)
    : gmap string http_Client * nat :=
  let '(clients, next) := acc in
  let rule := snd kv in
  match clients !! BackendBase rule with
  | Some _ => (clients, next)
  | None =>
      let domain := extractDomain (BackendBase rule) in
      let client := {| client_id := next; client_Dial := SystemDialer |} in
      (<[domain := client]> clients, S next)
  end.

Definition initializeClientPools (p : ProxyHandler) : ProxyHandler :=
  {| config := config p;
     clients := fst (foldl pool_step (clients p, 0) (TransitMap (config p))) |}.

Definition NewProxyHandler (config : Config) : ProxyHandler :=
  initializeClientPools {| config := config; clients := ∅ |}.

(** [getClientForDomain]: [None] is the nil pointer a missing key gives. *)
Definition getClientForDomain (p : ProxyHandler) (backendBase : string) : option http_Client :=
  clients p !! extractDomain backendBase.

Definition processHeaders (r : Request) (rule : TransitRule) : http_Header :=
  let headers := pipeline lib (req_Header r) (Headers rule) in
  Header_Set headers "Host" (extractHost (BackendBase rule)).

Definition forwardRequest (p : ProxyHandler) (env : Env) (s : St) (r : Request)
    (targetURL : string) (rule : TransitRule) : Outcome :=
  let trace := new_trace (time_Now env) (req_Host r +:+ url_Path (req_URL r))
                 targetURL (req_Method r) (req_Header r) in
  match req_Body r with
  | ReadErr err => Returned (set_Error trace ("读取请求体失败: " +:+ err)) s
  | ReadOk reqBody =>
      let trace := set_RequestBody trace reqBody in
      match http_NewRequest lib (req_Method r) targetURL with
      | Some err => Returned (set_Error trace ("创建请求失败: " +:+ err)) s
      | None =>
          let req := {| out_Method := req_Method r; out_URL := targetURL;
                        out_Body := reqBody; out_Header := processHeaders r rule |} in
          let trace := set_TransitHeaders trace (out_Header req) in
          let s := emit s (EvPoolLookup (extractDomain (BackendBase rule))) in
          match getClientForDomain p (BackendBase rule) with
          | None => Panicked s
          | Some client => dispatch env client req trace s
          end
      end
  end.

Definition ServeHTTP (p : ProxyHandler) (env : Env) (s : St) (r : Request) : Done :=
  let host := strip_port (req_Host r) in
  match gomap_get (TransitMap (config p)) host with
  | None =>
      let s := emit s (EvLog InfoLevel "未找到转发规则: %s" [AStr host]) in
      reply_error s "转发规则未找到" StatusNotFound
  | Some rule =>
      match buildTransitBackendURL rule r with
      | (_, Some err) =>
          let s := emit s (EvLog InfoLevel "构建目标URL失败: %v" [AStr err]) in
          reply_error s "内部错误" StatusInternalServerError
      | (targetURL, None) =>
          match forwardRequest p env s r targetURL rule with
          | Panicked s => Aborted s
          | Returned trace s => finish env trace s
          end
      end
  end.

End WithLib.
End Proxy.

(** A [backend_base] that is literally the pool key of a route is its own
    pool key.  This is what the presence test of [initializeClientPools]
    relies on when it reads the key [rule.BackendBase]. *)
Definition keys_stable (lib : Lib) (l : gomap TransitRule) : Prop :=
  forall kv1 kv2, kv1 ∈ l -> kv2 ∈ l ->
    Proxy.extractDomain lib (BackendBase kv1.2) = BackendBase kv2.2 ->
    Proxy.extractDomain lib (BackendBase kv2.2) = BackendBase kv2.2.

(** Identities of the clients of a pool map: below the next one to hand
    out, and different under different keys. *)
Definition pool_inv (acc : gmap string http_Client * nat) : Prop :=
  (forall k c, acc.1 !! k = Some c -> client_id c < acc.2)
  /\ (forall k1 k2 c1 c2, k1 <> k2 -> acc.1 !! k1 = Some c1 -> acc.1 !! k2 = Some c2 ->
        client_id c1 <> client_id c2).

(** ** The variant of [src/unnamed/part_000] *)

Module Part000.
Section WithLib.
Context (lib : Lib).

(** The dial strategy of a rule: IP before DNS before the system's. *)
Definition dialer_of (rule : TransitRule) : Dialer :=
  if nonempty (IP (Resolve rule)) then IPDialer (IP (Resolve rule))
  else if nonempty (DNS (Resolve rule)) then DNSDialer (DNS (Resolve rule))
  else SystemDialer.

Definition pool_step (acc : gmap string http_Client * nat) (kv : string * TransitRule)
    : gmap string http_Client * nat :=
  let '(clients, next) := acc in
  let client := {| client_id := next; client_Dial := dialer_of (snd kv) |} in
  (<[fst kv := client]> clients, S next).

Definition initializeClientPools (p : ProxyHandler) : ProxyHandler :=
  {| config := config p;
     clients := fst (foldl pool_step (clients p, 0) (TransitMap (config p))) |}.

Definition NewProxyHandler (config : Config) : ProxyHandler :=
  initializeClientPools {| config := config; clients := ∅ |}.

Definition processHeaders (r : Request) (rule : TransitRule) : http_Header :=
  pipeline lib (req_Header r) (Headers rule).

Definition forwardRequest (p : ProxyHandler) (env : Env) (s : St) (r : Request)
    (host : string) : Outcome :=
  let trace := new_trace (time_Now env) (host +:+ url_Path (req_URL r))
                 EmptyString (req_Method r) (req_Header r) in
  match gomap_get (TransitMap (config p)) host with
  | None => Returned (set_Error trace ("未找到转发规则: " +:+ host)) s
  | Some rule =>
      let s := emit s (EvPoolLookup host) in
      match clients p !! host with
      | None => Returned (set_Error trace ("服务器未连接: " +:+ host)) s
      | Some client =>
          match buildTransitBackendURL rule r with
          | (_, Some err) => Returned (set_Error trace ("构建目标URL失败: " +:+ err)) s
          | (targetURL, None) =>
              let trace := set_BackendURL trace targetURL in
              match req_Body r with
              | ReadErr err => Returned (set_Error trace ("读取请求体失败: " +:+ err)) s
              | ReadOk reqBody =>
                  let trace := set_RequestBody trace reqBody in
                  match http_NewRequest lib (req_Method r) targetURL with
                  | Some err => Returned (set_Error trace ("创建请求失败: " +:+ err)) s
                  | None =>
                      let req := {| out_Method := req_Method r; out_URL := targetURL;
                                    out_Body := reqBody;
                                    out_Header := processHeaders r rule |} in
                      let trace := set_TransitHeaders trace (out_Header req) in
                      dispatch env client req trace s
                  end
              end
          end
      end
  end.

Definition ServeHTTP (p : ProxyHandler) (env : Env) (s : St) (r : Request) : Done :=
  let host := strip_port (req_Host r) in
  match forwardRequest p env s r host with
  | Panicked s => Aborted s
  | Returned trace s => finish env trace s
  end.

End WithLib.
End Part000.

(** ** [ProxyTrace.String] *)

(** [sort.Strings]: ascending in the byte-wise order of Go strings. *)
Fixpoint insert_sorted (x : string) (l : list string) : list string :=
  match l with
  | [] => [x]
  | y :: l' => if String.leb x y then x :: l else y :: insert_sorted x l'
  end.

Definition sort_Strings (l : list string) : list string := foldr insert_sorted [] l.

Definition Join (elems : list string) (sep : string) : string := String.concat sep elems.

(** The header lines [Name: v1,v2], sorted and joined with [; ]. *)
Definition header_string (h : http_Header) : string :=
  let lines := (fun kv => fst kv +:+ ": " +:+ Join (snd kv) ",") <$> map_to_list h in
  Join (sort_Strings lines) "; ".

Section Render.
Context (lib : Lib).

Definition is_textual (contentType : string) : bool :=
  Contains (ToLower lib contentType) "application/json" ||
  Contains (ToLower lib contentType) "application/x-www-form-urlencoded" ||
  Contains (ToLower lib contentType) "text/".

(** [decompress]: [Some] stands for a nil error. *)
Definition decompress (body : string) : option string := gzip_ReadAll lib body.

(** The body segment; the source has this block twice, for the request and
    for the response. *)
Definition body_string (h : http_Header) (stored : string) : string :=
  let contentType := Header_Get h "Content-Type" in
  if is_textual contentType then
    let body := stored in
    let body :=
      if Contains (ToLower lib (Header_Get h "Content-Encoding")) "gzip" then
        match decompress stored with
        | Some decompressed => decompressed
        | None =>
            "[gzip " +:+ contentType +:+ " " +:+
            humanize_IBytes lib (String.length body) +:+ "]"
        end
      else body in
    body
  else if nonempty contentType && (0 <? String.length stored)%nat then
    "[" +:+ contentType +:+ " " +:+ humanize_IBytes lib (String.length stored) +:+ "]"
  else EmptyString.

Definition reqBodyString (p : ProxyTrace) : string :=
  body_string (RequestHeaders p) (RequestBody p).

Definition rspBodyString (p : ProxyTrace) : string :=
  body_string (ResponseHeaders p) (ResponseBody p).

Definition first_line (p : ProxyTrace) : string :=
  Method p +:+ " " +:+ RequestURL p +:+ " -> " +:+ BackendURL p +:+
  " | 耗时: " +:+ fmt_Duration lib (Duration p) +:+
  " | 状态: " +:+ fmt_Int lib (StatusCode p).

Definition ProxyTrace_String (p : ProxyTrace) : string :=
  let reqHeaderString := header_string (RequestHeaders p) in
  let trsHeaderString := header_string (TransitHeaders p) in
  let rspHeaderString := header_string (ResponseHeaders p) in
  let builder := first_line p in
  let builder :=
    if nonempty reqHeaderString
    then builder +:+ (" | 请求头: " +:+ reqHeaderString) else builder in
  let builder :=
    if nonempty trsHeaderString && negb (String.eqb trsHeaderString reqHeaderString)
    then builder +:+ (" | 转发头: " +:+ trsHeaderString) else builder in
  let builder :=
    if nonempty (reqBodyString p)
    then builder +:+ (" | 请求体: " +:+ reqBodyString p) else builder in
  let builder :=
    if nonempty rspHeaderString
    then builder +:+ (" | 响应头: " +:+ rspHeaderString) else builder in
  let builder :=
    if nonempty (rspBodyString p)
    then builder +:+ (" | 响应体: " +:+ rspBodyString p) else builder in
  builder.

(** *** The rendering as the specification words it

    Five labelled segments follow the first line.  A segment whose content
    is empty is left out, and so is the transit-headers segment when its
    text is that of the request-headers segment. *)

Inductive SegmentKind :=
  | SegRequestHeaders | SegTransitHeaders | SegRequestBody
  | SegResponseHeaders | SegResponseBody.

Definition segment_label (k : SegmentKind) : string :=
  match k with
  | SegRequestHeaders => " | 请求头: "
  | SegTransitHeaders => " | 转发头: "
  | SegRequestBody => " | 请求体: "
  | SegResponseHeaders => " | 响应头: "
  | SegResponseBody => " | 响应体: "
  end.

Definition segment_content (p : ProxyTrace) (k : SegmentKind) : string :=
  match k with
  | SegRequestHeaders => header_string (RequestHeaders p)
  | SegTransitHeaders => header_string (TransitHeaders p)
  | SegRequestBody => reqBodyString p
  | SegResponseHeaders => header_string (ResponseHeaders p)
  | SegResponseBody => rspBodyString p
  end.

Definition segment_omitted (p : ProxyTrace) (k : SegmentKind) : bool :=
  String.eqb (segment_content p k) EmptyString ||
  match k with
  | SegTransitHeaders =>
      String.eqb (segment_content p SegTransitHeaders) (segment_content p SegRequestHeaders)
  | _ => false
  end.

Definition all_segments : list SegmentKind :=
  [SegRequestHeaders; SegTransitHeaders; SegRequestBody; SegResponseHeaders; SegResponseBody].

Definition rendered_segments (p : ProxyTrace) : list SegmentKind :=
  List.filter (fun k => negb (segment_omitted p k)) all_segments.

Definition render_spec (p : ProxyTrace) : string :=
  foldl (fun line k => line +:+ (segment_label k +:+ segment_content p k))
    (first_line p) (rendered_segments p).

End Render.

(** ** The URL builder as the specification words it

    Strip a trailing [/] from [backend_base]; concatenate [backend_prefix]
    and the inbound path; insert a leading [/] if the result lacks one;
    append [?] and the query when the query is not empty; prepend
    [http://] when the base has no [http(s)://] scheme.  The steps are read
    as a sequence, so the scheme test sees the base of the first step. *)
Definition build_url_spec (backend_base backend_prefix path query : string) : string :=
  let base := TrimSuffix backend_base "/" in
  let p := backend_prefix +:+ path in
  let p := if HasPrefix p "/" then p else "/" +:+ p in
  let p := if nonempty query then p +:+ "?" +:+ query else p in
  let base :=
    if HasPrefix base "http://" || HasPrefix base "https://" then base
    else "http://" +:+ base in
  base +:+ p.

(** ** What a run shows to the client and to the logger *)

Definition is_trace_log (e : Event) : bool :=
  match e with EvLogTrace _ => true | _ => false end.

Definition is_pool_lookup (e : Event) : bool :=
  match e with EvPoolLookup _ => true | _ => false end.

Definition is_dispatch (e : Event) : bool :=
  match e with EvDo _ _ => true | _ => false end.

Definition count_events (f : Event -> bool) (s : St) : nat :=
  length (List.filter f (st_events s)).

(** The first write of the handler to its response writer succeeds. *)
Definition first_write_ok (script : list (option string)) : bool :=
  match script with
  | Some _ :: _ => false
  | _ => true
  end.

(** The handler returned after a forwarding failure with error [text]
    and [dials] calls of [client.Do]: the one trace given to the logger
    carries [text], the warning with [text] is the last thing logged, the
    client gets status 500 and, when the write goes through, [text] and a
    newline as the body. *)
Definition warning_of (t : ProxyTrace) (text : string) : Event :=
  EvLog WarnLevel "%s %s | 耗时: %v | %s"
    [AStr (Method t); AStr (RequestURL t); ADur (Duration t); AStr text].

Definition surfaced (d : Done) (script : list (option string)) (text : string)
    (dials : nat) : Prop :=
  exists s t,
    d = Finished s
    /\ List.filter is_trace_log (st_events s) = [EvLogTrace t]
    /\ Error t = Some text
    /\ last (st_events s) = Some (warning_of t text)
    /\ count_events is_dispatch s = dials
    /\ w_status (st_w s) = Some StatusInternalServerError
    /\ (first_write_ok script = true -> w_body (st_w s) = text +:+ newline).

(** The handler returned after a failure that came when the status line
    [code] was already sent. *)
Definition committed (d : Done) (text : string) (code : Z) : Prop :=
  exists s t,
    d = Finished s
    /\ List.filter is_trace_log (st_events s) = [EvLogTrace t]
    /\ Error t = Some text
    /\ last (st_events s) = Some (warning_of t text)
    /\ count_events is_dispatch s = 1
    /\ w_status (st_w s) = Some code.

(** The forwarding failures of one request, for the rule and the client
    the handler has found: [url] is the built URL, [hdr] the outbound
    header set, [d] the run of the handler.  A write error exists only
    once [WriteHeader] has returned: the status line of the backend is
    sent then, or, for a code that [WriteHeader] sends as an informational
    response, the status line 200 that [Write] sends first. *)
Definition failure_policy (lib : Lib) (env : Env) (script : list (option string))
    (r : Request) (url : string) (client : http_Client) (hdr : http_Header)
    (d : Done) : Prop :=
  let out body :=
    {| out_Method := req_Method r; out_URL := url; out_Body := body;
       out_Header := hdr |} in
  (forall e, req_Body r = ReadErr e ->
     surfaced d script ("读取请求体失败: " +:+ e) 0)
  /\ (forall body e,
        req_Body r = ReadOk body ->
        http_NewRequest lib (req_Method r) url = Some e ->
        surfaced d script ("创建请求失败: " +:+ e) 0)
  /\ (forall body e,
        req_Body r = ReadOk body ->
        http_NewRequest lib (req_Method r) url = None ->
        client_Do env client (out body) = inr e ->
        surfaced d script ("转发请求失败: " +:+ e) 1)
  /\ (forall body resp e,
        req_Body r = ReadOk body ->
        http_NewRequest lib (req_Method r) url = None ->
        client_Do env client (out body) = inl resp ->
        resp_Body resp = ReadErr e ->
        surfaced d script ("读取响应体失败: " +:+ e) 1)
  /\ (forall body resp rspBody e rest,
        req_Body r = ReadOk body ->
        http_NewRequest lib (req_Method r) url = None ->
        client_Do env client (out body) = inl resp ->
        resp_Body resp = ReadOk rspBody ->
        final_status (resp_StatusCode resp) = true ->
        script = Some e :: rest ->
        committed d ("写入响应体失败: " +:+ e) (resp_StatusCode resp))
  /\ (forall body resp rspBody e rest,
        req_Body r = ReadOk body ->
        http_NewRequest lib (req_Method r) url = None ->
        client_Do env client (out body) = inl resp ->
        resp_Body resp = ReadOk rspBody ->
        informational (resp_StatusCode resp) = true ->
        script = Some e :: rest ->
        committed d ("写入响应体失败: " +:+ e) StatusOK).

(** * The rest of the code *)

(** ** [ResolveConfig.String] ([src/main.go], second file) *)

Definition ResolveConfig_String (r : ResolveConfig) : string :=
  if nonempty (IP r) then "IP: " +:+ IP r
  else if nonempty (DNS r) then "DNS: " +:+ DNS r
  else EmptyString.

(** ** [SetLogger] ([src/log.go]) *)

Inductive zap_Level :=
  | zap_DebugLevel | zap_InfoLevel | zap_WarnLevel | zap_ErrorLevel
  | zap_DPanicLevel | zap_PanicLevel | zap_FatalLevel.

(** The logger that [SetLogger] installs: its threshold and the file it
    writes to besides stderr, if any. *)
Record Logger := { logger_level : zap_Level; logger_file : option string }.

(** What a call of [SetLogger] gives: the two strings it returns, the
    logger it installs, and the error it reports on the logger in place
    before, if the file did not open. *)
Record SetLogger_result := {
  ret_level : string;
  ret_file : string;
  installed : Logger;
  reported : option string
}.

(** The [switch] of [SetLogger] on the lower-cased level: the threshold
    and the level string kept; the [default] case puts [info] in place of
    the string. *)
Definition level_switch (level : string) : zap_Level * string :=
  if String.eqb level "debug" then (zap_DebugLevel, level)
  else if String.eqb level "info" then (zap_InfoLevel, level)
  else if String.eqb level "warn" || String.eqb level "warning" then (zap_WarnLevel, level)
  else if String.eqb level "error" then (zap_ErrorLevel, level)
  else if String.eqb level "dpanic" then (zap_DPanicLevel, level)
  else if String.eqb level "panic" then (zap_PanicLevel, level)
  else if String.eqb level "fatal" then (zap_FatalLevel, level)
  else (zap_InfoLevel, "info").

(** [os_OpenFile] stands for [os.OpenFile] with the flags of the source:
    the error, if any. *)
Definition SetLogger (lib : Lib) (os_OpenFile : string -> option string)
    (level file : string) : SetLogger_result :=
  let level := ToLower lib level in
  let '(zlevel, level) := level_switch level in
  let '(zfile, file, err) :=
    if nonempty file then
      match os_OpenFile file with
      | Some err => (None, EmptyString, Some ("打开日志文件失败: " +:+ err))
      | None => (Some file, file, None)
      end
    else (None, file, None) in
  {| ret_level := level; ret_file := file;
     installed := {| logger_level := zlevel; logger_file := zfile |};
     reported := err |}.

(** The level names that [SetLogger] knows, with their thresholds. *)
Definition level_names : list (string * zap_Level) :=
  [("debug", zap_DebugLevel); ("info", zap_InfoLevel); ("warn", zap_WarnLevel);
   ("warning", zap_WarnLevel); ("error", zap_ErrorLevel); ("dpanic", zap_DPanicLevel);
   ("panic", zap_PanicLevel); ("fatal", zap_FatalLevel)].

(** A line given to a logger: the logger that was in place when the line
    was written, the level of the line and its text. *)
Record Line := {
  line_logger : Logger;
  line_level : zap_Level;
  line_text : string
}.

(** The log configuration step of [LoadConfig], the same in both
    configuration files: with [current] the logger in place before, the
    logger in place after and the lines written meanwhile.  [SetLogger]
    reports a file that does not open before it replaces the logger;
    [LoadConfig] confirms after.  The lines for the routes are left
    out. *)
Definition LoadConfig_log (lib : Lib) (os_OpenFile : string -> option string)
    (current : Logger) (decoded : Config) : Logger * list Line :=
  if nonempty (Level (Log decoded)) || nonempty (File (Log decoded)) then
    let res := SetLogger lib os_OpenFile (Level (Log decoded)) (File (Log decoded)) in
    let errors :=
      match reported res with
      | Some text =>
          [{| line_logger := current; line_level := zap_ErrorLevel; line_text := text |}]
      | None => []
      end in
    let text :=
      if nonempty (ret_file res)
      then "日志级别设置为: " +:+ ret_level res +:+ ", 日志文件设置为: " +:+ ret_file res
      else "日志级别设置为: " +:+ ret_level res in
    (installed res,
     (errors ++ [{| line_logger := installed res; line_level := zap_InfoLevel;
                    line_text := text |}])%list)
  else (current, []).

(** ** The custom dialers of [part_000] *)

Inductive dns_RR :=
  | RR_A (ip : string)
  | RR_AAAA (ip : string)
  | RR_other.

Record dns_Msg := { Rcode : Z; Answer : list dns_RR }.

Inductive dns_Type := TypeA | TypeAAAA.

Definition RcodeSuccess : Z := 0.

(** The calls into [net] and [miekg/dns]: [net.ParseIP] (whether the
    result is not nil), [net.JoinHostPort], [net.SplitHostPort] (host and
    port, or the error), [dns.Fqdn], one exchange of [dns.Client] for a
    name, a record type and a server (the answer, or the error), and
    [net.Dialer.DialContext] for a network and an address (a connection, or
    the error). *)
Record Net := {
  net_ParseIP : string -> bool;
  net_JoinHostPort : string -> string -> string;
  net_SplitHostPort : string -> (string * string) + string;
  dns_Fqdn : string -> string;
  dns_Exchange : string -> dns_Type -> string -> dns_Msg + string;
  net_Dial : string -> string -> nat + string
}.

(** What a dialer does on the network. *)
Inductive NetEvent :=
  | NetQuery (name : string) (qtype : dns_Type) (server : string)
  | NetDial (network addr : string).

Definition is_query (e : NetEvent) : bool :=
  match e with NetQuery _ _ _ => true | NetDial _ _ => false end.

Definition is_dial (e : NetEvent) : bool :=
  match e with NetDial _ _ => true | NetQuery _ _ _ => false end.

(** [for _, ans := range r.Answer]: the first record of the wanted type. *)
Fixpoint first_A (answer : list dns_RR) : option string :=
  match answer with
  | [] => None
  | RR_A ip :: _ => Some ip
  | _ :: rest => first_A rest
  end.

Fixpoint first_AAAA (answer : list dns_RR) : option string :=
  match answer with
  | [] => None
  | RR_AAAA ip :: _ => Some ip
  | _ :: rest => first_AAAA rest
  end.

Section Dialers.
Context (lib : Lib) (net : Net).

(** [resolveHostWithDNS]: the address or the error, and the exchanges
    made. *)
Definition resolveHostWithDNS (host dnsServer : string) : (string + string) * list NetEvent :=
  let dnsServer :=
    if net_ParseIP net dnsServer then net_JoinHostPort net dnsServer "53"
    else dnsServer in
  let q1 := NetQuery (dns_Fqdn net host) TypeA dnsServer in
  match dns_Exchange net (dns_Fqdn net host) TypeA dnsServer with
  | inr err => (inr ("DNS查询失败 (使用 " +:+ dnsServer +:+ "): " +:+ err), [q1])
  | inl r =>
      if negb (Rcode r =? RcodeSuccess)%Z then
        (inr ("DNS查询返回错误码: " +:+ fmt_Int lib (Rcode r) +:+
              " (使用 " +:+ dnsServer +:+ ")"), [q1])
      else
        match first_A (Answer r) with
        | Some ip => (inl ip, [q1])
        | None =>
            let q2 := NetQuery (dns_Fqdn net host) TypeAAAA dnsServer in
            match dns_Exchange net (dns_Fqdn net host) TypeAAAA dnsServer with
            | inr err =>
                (inr ("DNS查询IPv6失败 (DNS server: " +:+ dnsServer +:+ "): " +:+ err),
                 [q1; q2])
            | inl r =>
                if negb (Rcode r =? RcodeSuccess)%Z then
                  (inr ("DNS查询返回错误码: " +:+ fmt_Int lib (Rcode r) +:+
                        " (使用 " +:+ dnsServer +:+ ")"), [q1; q2])
                else
                  match first_AAAA (Answer r) with
                  | Some ip => (inl ip, [q1; q2])
                  | None =>
                      (inr ("未找到IP地址: " +:+ host +:+ " (DNS server: " +:+
                            dnsServer +:+ ")"), [q1; q2])
                  end
            end
        end
  end.

(** The function that [createIPDialer ip] returns, applied to a network
    and an address: the connection or the error, and what it did. *)
Definition createIPDialer (ip : string) (network addr : string)
    : (nat + string) * list NetEvent :=
  match net_SplitHostPort net addr with
  | inr err => (inr err, [])
  | inl (_, port) =>
      let resolvedAddr := net_JoinHostPort net ip port in
      (net_Dial net network resolvedAddr, [NetDial network resolvedAddr])
  end.

(** The function that [createDnsResolvDialer dnsServer] returns. *)
Definition createDnsResolvDialer (dnsServer : string) (network addr : string)
    : (nat + string) * list NetEvent :=
  match net_SplitHostPort net addr with
  | inr err => (inr err, [])
  | inl (host, port) =>
      if net_ParseIP net host then
        (net_Dial net network addr, [NetDial network addr])
      else
        match resolveHostWithDNS host dnsServer with
        | (inr err, queries) => (inr err, queries)
        | (inl ip, queries) =>
            let resolvedAddr := net_JoinHostPort net ip port in
            (net_Dial net network resolvedAddr,
             (queries ++ [NetDial network resolvedAddr])%list)
        end
  end.

(** The [DialContext] of the transport that [initializeClientPools] of
    [part_000] builds for a rule; without one the transport dials the
    address it is given. *)
Definition dial_with (d : Dialer) (network addr : string) : (nat + string) * list NetEvent :=
  match d with
  | SystemDialer => (net_Dial net network addr, [NetDial network addr])
  | IPDialer ip => createIPDialer ip network addr
  | DNSDialer dnsServer => createDnsResolvDialer dnsServer network addr
  end.

End Dialers.

(** ** The header pipeline, name by name *)

(** What stage 1 passes on under a name. *)
Definition forwarded (lib : Lib) (inbound : http_Header) (hc : HeadersConfig)
    (c : string) : option (list string) :=
  if ForwardClient hc && negb (removes_has (removes hc) (ToLower lib c))
  then inbound !! c else None.

Definition named_by (l : gomap string) (c : string) : Prop :=
  exists kv, kv ∈ l /\ CanonicalMIMEHeaderKey kv.1 = c.

Definition first_value (o : option (list string)) : string :=
  match o with
  | Some (v :: _) => v
  | _ => EmptyString
  end.

Definition canonical_names (l : gomap string) : list string :=
  (fun kv => CanonicalMIMEHeaderKey kv.1) <$> l.

(** ** What a successful run shows *)

Definition summary_of (t : ProxyTrace) : Event :=
  EvLog InfoLevel "%s %s | 耗时: %v"
    [AStr (Method t); AStr (RequestURL t); ADur (Duration t)].


(** The backend answered the request with a readable body and a status
    code that [WriteHeader] does not accept. *)
Definition rejected_status (env : Env) (client : http_Client) (q : OutRequest) : Prop :=
  exists resp rspBody,
    client_Do env client q = inl resp
    /\ resp_Body resp = ReadOk rspBody
    /\ valid_status_code (resp_StatusCode resp) = false.

(** The requests that a run handed to [client.Do], with the client. *)
Definition dispatched (s : St) : list (http_Client * OutRequest) :=
  omap (fun e => match e with EvDo c q => Some (c, q) | _ => None end) (st_events s).

(** The part of a host before its first colon. *)
Fixpoint before_colon (host : string) : string :=
  match host with
  | EmptyString => EmptyString
  | String c rest =>
      if Ascii.eqb ":"%char c then EmptyString else String c (before_colon rest)
  end.

(** The rest of a host from its first colon on. *)
Fixpoint from_colon (host : string) : string :=
  match host with
  | EmptyString => EmptyString
  | String c rest =>
      if Ascii.eqb ":"%char c then host else from_colon rest
  end.

(** One header line of the rendering, [Name: v1,v2]. *)
Definition header_line (kv : string * list string) : string :=
  kv.1 +:+ ": " +:+ Join kv.2 ",".

(** * Concrete inputs *)

Definition scenarioA_rule : TransitRule :=
  {| BackendBase := "http://backend:9000"; BackendPrefix := "/v1";
     Resolve := {| DNS := EmptyString; IP := EmptyString |};
     Headers := {| Set_ := []; Extra := []; Remove := [];
                   ForwardClient := true; removes := None |} |}.

Definition scenarioA_request : Request :=
  {| req_Host := "api.example.com:8080"; req_Method := "GET";
     req_URL := {| url_Host := EmptyString; url_Path := "/users"; url_RawQuery := "x=1" |};
     req_Header := ∅; req_Body := ReadOk EmptyString |}.

Definition no_resolve : ResolveConfig := {| DNS := EmptyString; IP := EmptyString |}.

Definition get_request (host path query : string) (h : http_Header) : Request :=
  {| req_Host := host; req_Method := "GET";
     req_URL := {| url_Host := EmptyString; url_Path := path; url_RawQuery := query |};
     req_Header := h; req_Body := ReadOk EmptyString |}.

(** A small stand-in for the library, used only to instantiate general
    statements at concrete inputs: URLs of the shape
    [scheme://authority/...], bodies marked [GZ:] as compressed ones,
    strings with a byte outside ASCII left as they are by [ToLower] (the
    inputs below are ASCII, for which [ToLower] does not ask). *)
Definition demo_authority (s : string) : string :=
  match Index s "/" with
  | Some i => String.substring 0 i s
  | None => s
  end.

Definition demo_url_Parse (s : string) : option URL :=
  if HasPrefix s "http://" then
    Some {| url_Host := demo_authority (String.substring 7 (String.length s - 7) s);
            url_Path := EmptyString; url_RawQuery := EmptyString |}
  else if HasPrefix s "https://" then
    Some {| url_Host := demo_authority (String.substring 8 (String.length s - 8) s);
            url_Path := EmptyString; url_RawQuery := EmptyString |}
  else Some {| url_Host := EmptyString; url_Path := s; url_RawQuery := EmptyString |}.

Definition demo_lib : Lib :=
  {| url_Parse := demo_url_Parse;
     http_NewRequest := fun _ _ => None;
     gzip_ReadAll := fun s =>
       if HasPrefix s "GZ:" then Some (String.substring 3 (String.length s - 3) s)
       else None;
     humanize_IBytes := fun n => pretty n +:+ " B";
     fmt_Duration := fun d => pretty d +:+ "ns";
     fmt_Int := fun z => pretty z;
     unicode_ToLower := fun s => s |}.

(** A configuration as decoded from
    [{"transit_map": {"api.example.com": {"backend_base": "http://backend:9000",
      "headers": {"forward_client": true, "remove": ["authorization"]}}}}]. *)
Definition c1_rule : TransitRule :=
  {| BackendBase := "http://backend:9000"; BackendPrefix := EmptyString;
     Resolve := no_resolve;
     Headers := {| Set_ := []; Extra := []; Remove := ["authorization"];
                   ForwardClient := true; removes := None |} |}.

Definition c1_decoded : Config :=
  {| Server := {| Port := 0; Public := false |};
     Log := {| Level := EmptyString; File := EmptyString |};
     TransitMap := [("api.example.com", c1_rule)] |}.

Definition c1_request : Request :=
  get_request "api.example.com" "/" EmptyString {[ "Authorization" := ["Bearer t"] ]}.

(** Scenario B.  [removes] is the set that the loop body of [LoadConfig]
    computes from the list. *)
Definition scenarioB_policy : HeadersConfig :=
  build_removes demo_lib
    {| Set_ := [("Host", "backend")]; Extra := []; Remove := ["Authorization"];
       ForwardClient := true; removes := None |}.

Definition scenarioB_rule (backend_base : string) : TransitRule :=
  {| BackendBase := backend_base; BackendPrefix := EmptyString;
     Resolve := no_resolve; Headers := scenarioB_policy |}.

Definition scenarioB_request : Request :=
  get_request "api.example.com" "/" EmptyString
    {[ "Authorization" := ["Bearer t"]; "X-Foo" := ["1"] ]}.

Definition scenarioB_outbound : http_Header :=
  {[ "X-Foo" := ["1"]; "Host" := ["backend"] ]}.

(** An inbound header with an empty value, [X-Foo:], and a policy whose
    [extra] names it. *)
Definition empty_value_rule : TransitRule :=
  {| BackendBase := "http://backend:9000"; BackendPrefix := EmptyString;
     Resolve := no_resolve;
     Headers := {| Set_ := []; Extra := [("X-Foo", "e")]; Remove := [];
                   ForwardClient := true; removes := None |} |}.

Definition empty_value_request : Request :=
  get_request "api.example.com" "/" EmptyString {[ "X-Foo" := [EmptyString] ]}.

(** A policy with [extra] and [set], and a request that sends both names. *)
Definition precedence_policy : HeadersConfig :=
  {| Set_ := [("user-agent", "proxy")]; Extra := [("X-Extra-Header", "extra-value")];
     Remove := []; ForwardClient := true; removes := None |}.

Definition precedence_rule : TransitRule :=
  {| BackendBase := "http://backend:9000"; BackendPrefix := EmptyString;
     Resolve := no_resolve; Headers := precedence_policy |}.

Definition precedence_request : Request :=
  get_request "api.example.com" "/" EmptyString
    {[ "X-Extra-Header" := ["client"]; "User-Agent" := ["curl"; "x"] ]}.

(** Three routes, two of them to the same backend host. *)
Definition plain_rule (backend_base : string) : TransitRule :=
  {| BackendBase := backend_base; BackendPrefix := EmptyString;
     Resolve := no_resolve;
     Headers := {| Set_ := []; Extra := []; Remove := [];
                   ForwardClient := true; removes := None |} |}.

Definition c5_config : Config :=
  {| Server := {| Port := 8080; Public := true |};
     Log := {| Level := EmptyString; File := EmptyString |};
     TransitMap := [("a.example.com", plain_rule "http://backend:9000");
                    ("b.example.com", plain_rule "backend:9000");
                    ("c.example.com", plain_rule "https://other")] |}.

(** A backend that answers 200 with a small text body, and one that
    refuses the connection. *)
Definition env_ok : Env :=
  {| time_Now := 1000; time_Later := 1005;
     client_Do := fun _ _ =>
       inl {| resp_StatusCode := 200;
              resp_Header := {[ "Content-Type" := ["text/plain"] ]};
              resp_Body := ReadOk "ok" |} |}.

Definition env_refused : Env :=
  {| time_Now := 1000; time_Later := 1005;
     client_Do := fun _ _ => inr "connection refused" |}.

Definition c5_request : Request :=
  get_request "a.example.com:8080" "/users" "x=1" ∅.

Definition unknown_host_request : Request :=
  get_request "unknown.example.com:8080" "/" EmptyString ∅.

(** A stand-in for the library on three more strings, as [url.Parse]
    treats percent signs in a host: the escape [%25] is decoded once, so
    the host of [http://a%2525b] is [a%25b] and the host of [http://a%25b]
    is [a%b]; [http://a%b] does not parse, its escape being cut short. *)
Definition percent_url_Parse (s : string) : option URL :=
  if String.eqb s "http://a%2525b" then
    Some {| url_Host := "a%25b"; url_Path := EmptyString; url_RawQuery := EmptyString |}
  else if String.eqb s "http://a%25b" then
    Some {| url_Host := "a%b"; url_Path := EmptyString; url_RawQuery := EmptyString |}
  else if String.eqb s "http://a%b" then None
  else demo_url_Parse s.

Definition percent_lib : Lib :=
  {| url_Parse := percent_url_Parse;
     http_NewRequest := http_NewRequest demo_lib;
     gzip_ReadAll := gzip_ReadAll demo_lib;
     humanize_IBytes := humanize_IBytes demo_lib;
     fmt_Duration := fmt_Duration demo_lib;
     fmt_Int := fmt_Int demo_lib;
     unicode_ToLower := unicode_ToLower demo_lib |}.

(** Two routes, the second with a [backend_base] that is, letter for
    letter, the pool key of the first, and a request for the second. *)
Definition c5_skip_config : Config :=
  {| Server := {| Port := 8080; Public := true |};
     Log := {| Level := EmptyString; File := EmptyString |};
     TransitMap := [("a.example.com", plain_rule "http://a%2525b");
                    ("b.example.com", plain_rule "a%25b")] |}.

Definition c5_skip_request : Request :=
  get_request "b.example.com:8080" "/users" "x=1" ∅.

(** A trace whose request body is marked as compressed JSON and whose
    response body claims gzip but is not. *)
Definition gzip_headers : http_Header :=
  {[ "Content-Type" := ["application/json"]; "Content-Encoding" := ["gzip"] ]}.

Definition gzip_trace : ProxyTrace :=
  {| StartTime := 1000; Duration := 5; RequestURL := "a.example.com/users";
     BackendURL := "http://backend:9000/users"; Method := "POST"; StatusCode := 200;
     Error := None; RequestHeaders := gzip_headers; TransitHeaders := gzip_headers;
     ResponseHeaders := gzip_headers; RequestBody := "GZ:{key:value}";
     ResponseBody := "garbage" |}.

(** A decoded configuration with no port, a scheme-less backend and a
    removal list. *)
Definition x_rule : TransitRule :=
  {| BackendBase := "backend:9000"; BackendPrefix := "/v1";
     Resolve := {| DNS := "8.8.8.8"; IP := "10.0.0.7" |};
     Headers := {| Set_ := [("X-Token", "t")]; Extra := [("X-Extra", "e")];
                   Remove := ["Cookie"]; ForwardClient := true; removes := None |} |}.

Definition x_decoded : Config :=
  {| Server := {| Port := 0; Public := true |};
     Log := {| Level := "debug"; File := EmptyString |};
     TransitMap := [("api.example.com", x_rule);
                    ("dns.example.com",
                     {| BackendBase := "http://backend:9000"; BackendPrefix := EmptyString;
                        Resolve := {| DNS := "8.8.8.8"; IP := EmptyString |};
                        Headers := Headers x_rule |})] |}.

Definition x_request : Request :=
  {| req_Host := "api.example.com:8080"; req_Method := "POST";
     req_URL := {| url_Host := EmptyString; url_Path := "/users"; url_RawQuery := "x=1" |};
     req_Header := {[ "Cookie" := ["c=1"]; "Content-Type" := ["application/json"] ]};
     req_Body := ReadOk "{}" |}.

(** The policy of [x_rule] with the removal set in place, and the same
    policy with its two maps ranged in another order. *)
Definition x_policy : HeadersConfig :=
  {| Set_ := [("X-Token", "t"); ("user-agent", "proxy")];
     Extra := [("X-Extra", "e"); ("accept", "*/*")];
     Remove := ["Cookie"]; ForwardClient := true;
     removes := Some {["cookie"]} |}.

Definition x_policy' : HeadersConfig :=
  {| Set_ := [("user-agent", "proxy"); ("X-Token", "t")];
     Extra := [("accept", "*/*"); ("X-Extra", "e")];
     Remove := ["Cookie"]; ForwardClient := true;
     removes := Some {["cookie"]} |}.

Definition x_policy_rule (hc : HeadersConfig) : TransitRule :=
  {| BackendBase := "http://backend:9000"; BackendPrefix := EmptyString;
     Resolve := no_resolve; Headers := hc |}.

(** A stand-in for the network: three address literals, the port after
    the first colon, one name that resolves to an IPv4 address behind a
    record of another type, every connection accepted. *)
Definition demo_net : Net :=
  {| net_ParseIP := fun s =>
       String.eqb s "8.8.8.8" || String.eqb s "10.0.0.7" || String.eqb s "192.0.2.10";
     net_JoinHostPort := fun h p => h +:+ ":" +:+ p;
     net_SplitHostPort := fun s =>
       match from_colon s with
       | String _ port => inl (before_colon s, port)
       | EmptyString => inr "missing port in address"
       end;
     dns_Fqdn := fun s => s +:+ ".";
     dns_Exchange := fun name qtype server =>
       match qtype with
       | TypeA =>
           if String.eqb name "backend." && String.eqb server "8.8.8.8:53"
           then inl {| Rcode := 0; Answer := [RR_other; RR_A "192.0.2.10"; RR_A "192.0.2.11"] |}
           else inr "i/o timeout"
       | TypeAAAA => inr "i/o timeout"
       end;
     net_Dial := fun _ _ => inl 1 |}.


(** * Properties *)

(** ** Strings *)

Lemma HasPrefix_slash_cons (c : ascii) (s : string) :
  HasPrefix (String c s) "/" = Ascii.eqb "/"%char c.
Proof.
  unfold HasPrefix. change (String.prefix "/" (String c s))
    with (if ascii_dec "/"%char c then String.prefix EmptyString s else false).
  destruct (ascii_dec "/"%char c) as [->|Hne].
  - rewrite Ascii.eqb_refl. by destruct s.
  - symmetry. by apply Ascii.eqb_neq.
Qed.

(** Appending the query before or after the leading slash is settled gives
    the same path. *)
Lemma leading_slash_query (p q : string) :
  (if negb (HasPrefix (p +:+ "?" +:+ q) "/") then "/" +:+ (p +:+ "?" +:+ q)
   else p +:+ "?" +:+ q)
  = (if HasPrefix p "/" then p else "/" +:+ p) +:+ "?" +:+ q.
Proof.
  destruct p as [|c p].
  - reflexivity.
  - change (String c p +:+ "?" +:+ q) with (String c (p +:+ "?" +:+ q)).
    rewrite !HasPrefix_slash_cons.
    destruct (Ascii.eqb "/"%char c); reflexivity.
Qed.

(** ** The backend URL *)

Lemma buildTransitBackendURL_refines (rule : TransitRule) (r : Request) :
  fst (buildTransitBackendURL rule r)
  = build_url_spec (BackendBase rule) (BackendPrefix rule)
      (url_Path (req_URL r)) (url_RawQuery (req_URL r)).
Proof.
  unfold buildTransitBackendURL, build_url_spec; simpl fst.
  set (base := TrimSuffix (BackendBase rule) "/").
  set (p := BackendPrefix rule +:+ url_Path (req_URL r)).
  set (q := url_RawQuery (req_URL r)).
  f_equal.
  - destruct (HasPrefix base "http://"), (HasPrefix base "https://"); reflexivity.
  - destruct (nonempty q).
    + apply leading_slash_query.
    + by destruct (HasPrefix p "/").
Qed.

(** C3. For every rule and request the URL that [buildTransitBackendURL]
    builds is the one the algorithm of the specification gives: trailing
    slash of the base stripped, prefix and path concatenated, leading slash
    inserted when missing, [?] and the query appended when the query is not
    empty, [http://] prepended when the base has no scheme.  For the route
    of scenario A it is [http://backend:9000/v1/users?x=1]. *)
Theorem C3_backend_url :
  (forall (rule : TransitRule) (r : Request),
     fst (buildTransitBackendURL rule r)
     = build_url_spec (BackendBase rule) (BackendPrefix rule)
         (url_Path (req_URL r)) (url_RawQuery (req_URL r)))
  /\ fst (buildTransitBackendURL scenarioA_rule scenarioA_request)
     = "http://backend:9000/v1/users?x=1".
Proof.
  split.
  - apply buildTransitBackendURL_refines.
  - vm_compute. reflexivity.
Qed.

Lemma buildTransitBackendURL_nil_error (rule : TransitRule) (r : Request) :
  snd (buildTransitBackendURL rule r) = None.
Proof. reflexivity. Qed.

Lemma buildTransitBackendURL_eta (rule : TransitRule) (r : Request) :
  buildTransitBackendURL rule r = (fst (buildTransitBackendURL rule r), None).
Proof. reflexivity. Qed.

Lemma forallb_app_single {A} (f : A -> bool) (l : list A) (x : A) :
  forallb f (l ++ [x]) = forallb f l && f x.
Proof. rewrite forallb_app. simpl. by rewrite andb_true_r. Qed.

(** The events of [dispatch] and of [finish] never include the log call
    of the URL-failure branch. *)
Lemma dispatch_no_url_failure env client req trace s :
  forallb (fun e => negb (logs_url_failure e)) (st_events s) = true ->
  forallb (fun e => negb (logs_url_failure e))
    (st_events (state_of (dispatch env client req trace s))) = true.
Proof.
  intros Hs. unfold dispatch.
  destruct (client_Do env client req) as [resp|err]; simpl.
  - destruct (resp_Body resp) as [body|err]; simpl.
    + destruct (WriteHeader _ _) as [w0|]; simpl.
      * destruct (Write w0 body) as [w [e|]] eqn:Hw; simpl;
          rewrite forallb_app_single, Hs; reflexivity.
      * rewrite forallb_app_single, Hs; reflexivity.
    + rewrite forallb_app_single, Hs; reflexivity.
  - rewrite forallb_app_single, Hs; reflexivity.
Qed.

Lemma reply_error_events (s : St) (text : string) (code : Z) :
  st_events (final_state (reply_error s text code)) = st_events s.
Proof. unfold reply_error. by destruct (http_Error _ _ _). Qed.

Lemma finish_no_url_failure env trace s :
  forallb (fun e => negb (logs_url_failure e)) (st_events s) = true ->
  forallb (fun e => negb (logs_url_failure e))
    (st_events (final_state (finish env trace s))) = true.
Proof.
  intros Hs. unfold finish. simpl.
  destruct (Error trace); [rewrite reply_error_events|]; simpl;
    rewrite !forallb_app_single, Hs; reflexivity.
Qed.

Lemma dispatch_error_not_url_failure env client req trace s :
  match Error trace with Some e => is_url_failure e = false | None => True end ->
  match trace_of (dispatch env client req trace s) with
  | Some t => match Error t with Some e => is_url_failure e = false | None => True end
  | None => True
  end.
Proof.
  intros Ht. unfold dispatch.
  destruct (client_Do env client req) as [resp|err]; simpl; [|reflexivity].
  destruct (resp_Body resp) as [body|err]; simpl; [|reflexivity].
  destruct (WriteHeader _ _) as [w0|]; simpl; [|exact I].
  destruct (Write w0 body) as [w [e|]]; simpl; [reflexivity|exact Ht].
Qed.

(** C10. [buildTransitBackendURL] returns a nil error for every rule and
    request, so the branches of its callers that handle a URL construction
    error never run: [ServeHTTP] of [src/proxy.go] never makes the log call
    of that branch, and the trace of [forwardRequest] of [part_000] never
    carries that error. *)
Theorem C10_url_error_unreachable :
  (forall (rule : TransitRule) (r : Request),
     snd (buildTransitBackendURL rule r) = None)
  /\ (forall lib p env script r,
        forallb (fun e => negb (logs_url_failure e))
          (st_events (final_state (Proxy.ServeHTTP lib p env (start script) r))) = true)
  /\ (forall lib p env script r host,
        match trace_of (Part000.forwardRequest lib p env (start script) r host) with
        | Some t =>
            match Error t with Some e => is_url_failure e = false | None => True end
        | None => True
        end).
Proof.
  split; [|split].
  - apply buildTransitBackendURL_nil_error.
  - intros lib p env script r. unfold Proxy.ServeHTTP.
    destruct (gomap_get _ _) as [rule|];
      [|by rewrite reply_error_events].
    rewrite (buildTransitBackendURL_eta rule r).
    unfold Proxy.forwardRequest.
    destruct (req_Body r) as [body|err];
      [|by apply finish_no_url_failure].
    destruct (http_NewRequest lib _ _); [by apply finish_no_url_failure|].
    destruct (Proxy.getClientForDomain lib p _) as [client|]; [|reflexivity].
    match goal with
    | |- context [dispatch ?e ?c ?q ?t ?s] =>
        pose proof (dispatch_no_url_failure e c q t s) as Hd;
        destruct (dispatch e c q t s) as [t' s'|s']
    end; simpl in *.
    + apply finish_no_url_failure, Hd. reflexivity.
    + apply Hd. reflexivity.
  - intros lib p env script r host. unfold Part000.forwardRequest.
    destruct (gomap_get _ _) as [rule|]; [|reflexivity].
    destruct (clients p !! host) as [client|]; [|reflexivity].
    rewrite (buildTransitBackendURL_eta rule r).
    destruct (req_Body r) as [body|err]; [|reflexivity].
    destruct (http_NewRequest lib _ _); [reflexivity|].
    apply dispatch_error_not_url_failure. exact I.
Qed.

(** ** The header pipeline *)

Section HeaderPipeline.
Context (lib : Lib).

(** Stage 1 over any list with distinct keys: a key that is not removed
    takes its value from the list, every other key keeps what the
    accumulator had. *)
Lemma forward_loop_lookup rm (l : list (string * list string)) (acc : http_Header) (k : string) :
  NoDup (fst <$> l) ->
  foldl (forward_step lib rm) acc l !! k
  = match (list_to_map l : http_Header) !! k with
    | Some values => if removes_has rm (ToLower lib k) then acc !! k else Some values
    | None => acc !! k
    end.
Proof.
  revert acc. induction l as [|[k0 v0] l IH]; intros acc Hnd.
  - simpl. by rewrite lookup_empty.
  - apply NoDup_cons in Hnd as [Hk0 Hnd]. simpl foldl. rewrite IH by done.
    simpl list_to_map.
    destruct (decide (k0 = k)) as [->|Hne].
    + rewrite lookup_insert_eq.
      rewrite (not_elem_of_list_to_map_1 l k) by done.
      unfold forward_step; simpl.
      destruct (removes_has rm (ToLower lib k)); [done|]. by rewrite lookup_insert_eq.
    + rewrite lookup_insert_ne by done.
      assert (forward_step lib rm acc (k0, v0) !! k = acc !! k) as ->; [|done].
      unfold forward_step; simpl.
      destruct (removes_has rm (ToLower lib k0)); [done|]. by rewrite lookup_insert_ne.
Qed.

(** Stage 1 on the inbound map: the order of the range does not show. *)
Lemma forward_lookup rm (inbound : http_Header) (k : string) :
  foldl (forward_step lib rm) ∅ (map_to_list inbound) !! k
  = if removes_has rm (ToLower lib k) then None else inbound !! k.
Proof.
  rewrite forward_loop_lookup by apply NoDup_fst_map_to_list.
  rewrite list_to_map_to_list, lookup_empty.
  destruct (inbound !! k), (removes_has rm (ToLower lib k)); reflexivity.
Qed.

Lemma nonempty_true (s : string) : nonempty s = true <-> s <> EmptyString.
Proof. destruct s; simpl; split; intros; congruence. Qed.

(** Stage 2 leaves alone every key whose first value is not empty. *)
Lemma extra_step_keeps (h : http_Header) (kv : string * string) (k v0 : string) (vs : list string) :
  h !! k = Some (v0 :: vs) -> v0 <> EmptyString ->
  extra_step h kv !! k = Some (v0 :: vs).
Proof.
  intros Hk Hv. unfold extra_step.
  destruct (nonempty (Header_Get h kv.1)) eqn:Hget; [done|].
  unfold Header_Set. destruct (decide (CanonicalMIMEHeaderKey kv.1 = k)) as [Heq|Hne].
  - exfalso. unfold Header_Get in Hget. rewrite Heq, Hk in Hget.
    apply nonempty_true in Hv. congruence.
  - by rewrite lookup_insert_ne.
Qed.

Lemma extra_loop_keeps (l : list (string * string)) (h : http_Header) (k v0 : string)
    (vs : list string) :
  h !! k = Some (v0 :: vs) -> v0 <> EmptyString ->
  foldl extra_step h l !! k = Some (v0 :: vs).
Proof.
  revert h. induction l as [|kv l IH]; intros h Hk Hv; [done|].
  simpl. apply IH; [|done]. by apply extra_step_keeps.
Qed.

Lemma set_step_lookup (h : http_Header) (kv : string * string) (c : string) :
  set_step h kv !! c
  = if decide (CanonicalMIMEHeaderKey kv.1 = c) then Some [kv.2] else h !! c.
Proof.
  unfold set_step, Header_Set, Header_Del.
  destruct (decide (CanonicalMIMEHeaderKey kv.1 = c)) as [->|Hne].
  - by rewrite lookup_insert_eq.
  - rewrite lookup_insert_ne by done.
    destruct (nonempty (Header_Get h kv.1)); [|done]. by rewrite lookup_delete_ne.
Qed.

(** Stage 3 leaves alone every key that no entry of [set] names. *)
Lemma set_loop_other (l : list (string * string)) (h : http_Header) (c : string) :
  Forall (fun kv => CanonicalMIMEHeaderKey kv.1 <> c) l ->
  foldl set_step h l !! c = h !! c.
Proof.
  revert h. induction l as [|kv l IH]; intros h Hall; [done|].
  apply Forall_cons in Hall as [Hkv Hall]. simpl. rewrite IH by done.
  rewrite set_step_lookup. by destruct (decide _).
Qed.

(** Stage 3 gives a name of [set] exactly its one value, when no other key
    of [set] has the same canonical form. *)
Lemma set_loop_in (l : list (string * string)) (h : http_Header) (k v : string) :
  (k, v) ∈ l ->
  NoDup ((fun kv => CanonicalMIMEHeaderKey kv.1) <$> l) ->
  foldl set_step h l !! CanonicalMIMEHeaderKey k = Some [v].
Proof.
  revert h. induction l as [|kv l IH]; intros h Hin Hnd.
  - by apply elem_of_nil in Hin.
  - simpl in Hnd. apply NoDup_cons in Hnd as [Hfresh Hnd].
    apply elem_of_cons in Hin as [<-|Hin]; simpl.
    + rewrite set_loop_other.
      * rewrite set_step_lookup. simpl. by destruct (decide _).
      * apply Forall_forall. intros kv' Hkv' Heq. apply Hfresh.
        simpl. rewrite <- Heq. apply list_elem_of_fmap. by exists kv'.
    + by apply IH.
Qed.

Lemma canonical_Host : CanonicalMIMEHeaderKey "Host" = "Host".
Proof. reflexivity. Qed.

Lemma Proxy_processHeaders_Host (r : Request) (rule : TransitRule) :
  Proxy.processHeaders lib r rule !! "Host"
  = Some [Proxy.extractHost lib (BackendBase rule)].
Proof.
  unfold Proxy.processHeaders, Header_Set. rewrite canonical_Host.
  by rewrite lookup_insert_eq.
Qed.

Lemma Proxy_processHeaders_other (r : Request) (rule : TransitRule) (k : string) :
  k <> "Host" ->
  Proxy.processHeaders lib r rule !! k = pipeline lib (req_Header r) (Headers rule) !! k.
Proof.
  intros Hk. unfold Proxy.processHeaders, Header_Set. rewrite canonical_Host.
  by rewrite lookup_insert_ne.
Qed.

(** *** Canonical keys *)

Lemma upper_byte_idem (c : ascii) : upper_byte (upper_byte c) = upper_byte c.
Proof. destruct c as [[] [] [] [] [] [] [] []]; reflexivity. Qed.

Lemma lower_byte_idem (c : ascii) : lower_byte (lower_byte c) = lower_byte c.
Proof. destruct c as [[] [] [] [] [] [] [] []]; reflexivity. Qed.

Lemma valid_upper_byte (c : ascii) :
  validHeaderFieldByte (upper_byte c) = validHeaderFieldByte c.
Proof. destruct c as [[] [] [] [] [] [] [] []]; reflexivity. Qed.

Lemma valid_lower_byte (c : ascii) :
  validHeaderFieldByte (lower_byte c) = validHeaderFieldByte c.
Proof. destruct c as [[] [] [] [] [] [] [] []]; reflexivity. Qed.

Lemma canonical_from_idem (upper : bool) (s : string) :
  canonical_from upper (canonical_from upper s) = canonical_from upper s.
Proof.
  revert upper. induction s as [|c s IH]; intros upper; [reflexivity|].
  simpl. destruct upper.
  - rewrite upper_byte_idem. f_equal. apply IH.
  - rewrite lower_byte_idem. f_equal. apply IH.
Qed.

Lemma canonical_from_valid (upper : bool) (s : string) :
  all_bytes validHeaderFieldByte (canonical_from upper s)
  = all_bytes validHeaderFieldByte s.
Proof.
  revert upper. induction s as [|c s IH]; intros upper; [reflexivity|].
  simpl. rewrite IH. destruct upper.
  - by rewrite valid_upper_byte.
  - by rewrite valid_lower_byte.
Qed.

(** [CanonicalMIMEHeaderKey] is idempotent. *)
Lemma CanonicalMIMEHeaderKey_idem (s : string) :
  CanonicalMIMEHeaderKey (CanonicalMIMEHeaderKey s) = CanonicalMIMEHeaderKey s.
Proof.
  unfold CanonicalMIMEHeaderKey.
  destruct (all_bytes validHeaderFieldByte s) eqn:Hv.
  - rewrite canonical_from_valid, Hv. apply canonical_from_idem.
  - by rewrite Hv.
Qed.

Lemma canonical_keys_empty : canonical_keys ∅.
Proof. intros k [v Hv]. by rewrite lookup_empty in Hv. Qed.

Lemma canonical_keys_Set (h : http_Header) (key value : string) :
  canonical_keys h -> canonical_keys (Header_Set h key value).
Proof.
  intros Hh k. unfold Header_Set.
  destruct (decide (CanonicalMIMEHeaderKey key = k)) as [<-|Hne].
  - intros _. apply CanonicalMIMEHeaderKey_idem.
  - rewrite lookup_insert_ne by done. apply Hh.
Qed.

Lemma canonical_keys_Del (h : http_Header) (key : string) :
  canonical_keys h -> canonical_keys (Header_Del h key).
Proof.
  intros Hh k. unfold Header_Del.
  destruct (decide (CanonicalMIMEHeaderKey key = k)) as [<-|Hne].
  - rewrite lookup_delete_eq. by intros [v Hv].
  - rewrite lookup_delete_ne by done. apply Hh.
Qed.

Lemma canonical_keys_extra_loop (l : list (string * string)) (h : http_Header) :
  canonical_keys h -> canonical_keys (foldl extra_step h l).
Proof.
  revert h. induction l as [|kv l IH]; intros h Hh; [done|].
  simpl. apply IH. unfold extra_step.
  destruct (nonempty _); [done|]. by apply canonical_keys_Set.
Qed.

Lemma canonical_keys_set_loop (l : list (string * string)) (h : http_Header) :
  canonical_keys h -> canonical_keys (foldl set_step h l).
Proof.
  revert h. induction l as [|kv l IH]; intros h Hh; [done|].
  simpl. apply IH. unfold set_step. apply canonical_keys_Set.
  destruct (nonempty _); [|done]. by apply canonical_keys_Del.
Qed.

(** The pipeline keeps the keys canonical: no value hides under another
    spelling of a name. *)
Lemma canonical_keys_pipeline (inbound : http_Header) (hc : HeadersConfig) :
  canonical_keys inbound -> canonical_keys (pipeline lib inbound hc).
Proof.
  intros Hin. unfold pipeline.
  apply canonical_keys_set_loop, canonical_keys_extra_loop.
  destruct (ForwardClient hc); [|apply canonical_keys_empty].
  intros k. rewrite forward_lookup.
  destruct (removes_has _ _); [by intros [v Hv]|]. apply Hin.
Qed.

Lemma pipeline_forwarded_kept (inbound : http_Header) (hc : HeadersConfig)
    (name v0 : string) (vs : list string) :
  ForwardClient hc = true ->
  removes_has (removes hc) (ToLower lib name) = false ->
  inbound !! name = Some (v0 :: vs) ->
  v0 <> EmptyString ->
  Forall (fun kv => CanonicalMIMEHeaderKey kv.1 <> name) (Set_ hc) ->
  pipeline lib inbound hc !! name = Some (v0 :: vs).
Proof.
  intros Hfw Hrm Hin Hv Hset. unfold pipeline. rewrite Hfw.
  rewrite set_loop_other by done.
  apply extra_loop_keeps; [|done].
  by rewrite forward_lookup, Hrm.
Qed.

Lemma pipeline_set_wins (inbound : http_Header) (hc : HeadersConfig) (k v : string) :
  (k, v) ∈ Set_ hc ->
  NoDup ((fun kv => CanonicalMIMEHeaderKey kv.1) <$> Set_ hc) ->
  pipeline lib inbound hc !! CanonicalMIMEHeaderKey k = Some [v].
Proof. intros Hin Hnd. unfold pipeline. by apply set_loop_in. Qed.

(** ** [LoadConfig] and the removal set *)

Lemma range_by_value_id {V} (body : V -> V) (m : gomap V) : range_by_value body m = m.
Proof.
  unfold range_by_value. generalize m at 1 3. intros acc.
  induction m as [|kv m IH]; [reflexivity|]. simpl. apply IH.
Qed.

(** The rules of the loaded configuration are the decoded ones: what the
    loop assigns to its copies is lost. *)
Lemma LoadConfig_with_TransitMap body (decoded : Config) :
  TransitMap (LoadConfig_with body decoded) = TransitMap decoded.
Proof. unfold LoadConfig_with. simpl. apply range_by_value_id. Qed.

Lemma LoadConfig_removes_nil body (decoded : Config) (host : string) (rule : TransitRule) :
  json_decoded decoded ->
  gomap_get (TransitMap (LoadConfig_with body decoded)) host = Some rule ->
  removes (Headers rule) = None.
Proof.
  intros Hdec. rewrite LoadConfig_with_TransitMap. unfold gomap_get.
  destruct (find _ _) as [kv|] eqn:Hfind; [|done].
  intros [= <-]. apply find_some in Hfind as [Hin _].
  unfold json_decoded in Hdec. rewrite List.Forall_forall in Hdec. by apply Hdec.
Qed.

Lemma removes_fold_elem (l : list string) (acc : gset string) (x : string) :
  x ∈ foldl (fun (acc : gset string) remove => {[ToLower lib remove]} ∪ acc) acc l
  <-> x ∈ acc \/ exists e, e ∈ l /\ ToLower lib e = x.
Proof.
  revert acc. induction l as [|e l IH]; intros acc; simpl.
  - split; [by left|]. intros [?|(e & He & _)]; [done|]. by apply elem_of_nil in He.
  - rewrite IH. split.
    + intros [Hx|(e' & He' & <-)].
      * apply elem_of_union in Hx as [Hx|Hx]; [|by left].
        apply elem_of_singleton in Hx. right. exists e. split; [left|done].
      * right. exists e'. split; [by right|done].
    + intros [Hx|(e' & He' & <-)].
      * left. apply elem_of_union. by right.
      * apply elem_of_cons in He' as [->|He'].
        -- left. apply elem_of_union. left. by apply elem_of_singleton.
        -- right. by exists e'.
Qed.

(** The set that the loop body builds answers for every spelling of a
    listed name. *)
Lemma build_removes_has (hc : HeadersConfig) (e key : string) :
  e ∈ Remove hc -> ToLower lib e = ToLower lib key ->
  removes_has (removes (build_removes lib hc)) (ToLower lib key) = true.
Proof.
  intros He Heq. unfold build_removes.
  destruct (Remove hc) as [|e0 l] eqn:Hl; [by apply elem_of_nil in He|].
  simpl. apply bool_decide_eq_true.
  apply (removes_fold_elem (e0 :: l) ∅). right. by exists e.
Qed.

Lemma extra_loop_other (l : list (string * string)) (h : http_Header) (c : string) :
  Forall (fun kv => CanonicalMIMEHeaderKey kv.1 <> c) l ->
  foldl extra_step h l !! c = h !! c.
Proof.
  revert h. induction l as [|kv l IH]; intros h Hall; [done|].
  apply Forall_cons in Hall as [Hkv Hall]. simpl. rewrite IH by done.
  unfold extra_step, Header_Set. destruct (nonempty _); [done|].
  by rewrite lookup_insert_ne.
Qed.

(** With the set of the loop body in place, stage 1 drops a listed header
    in any letter case. *)
Lemma pipeline_removed (inbound : http_Header) (hc : HeadersConfig) (e key : string) :
  e ∈ Remove hc -> ToLower lib e = ToLower lib key ->
  Forall (fun kv => CanonicalMIMEHeaderKey kv.1 <> key) (Extra hc) ->
  Forall (fun kv => CanonicalMIMEHeaderKey kv.1 <> key) (Set_ hc) ->
  pipeline lib inbound (build_removes lib hc) !! key = None.
Proof.
  intros He Heq Hextra Hset. unfold pipeline.
  assert (Set_ (build_removes lib hc) = Set_ hc /\ Extra (build_removes lib hc) = Extra hc) as [-> ->].
  { unfold build_removes. by destruct (Remove hc). }
  rewrite set_loop_other, extra_loop_other by done.
  destruct (ForwardClient _); [|apply lookup_empty].
  by rewrite forward_lookup, (build_removes_has hc e key).
Qed.

End HeaderPipeline.

(** C1. The loaded configuration of a rule with [forward_client] true and
    the removal entry [authorization] still has a nil removal set, in both
    versions of [LoadConfig], and both versions of [processHeaders] send
    the inbound [Authorization] header on. *)
Theorem C1_removal_lost :
  forall lib,
    json_decoded c1_decoded
    /\ gomap_get (TransitMap (LoadConfig lib c1_decoded)) "api.example.com" = Some c1_rule
    /\ gomap_get (TransitMap (LoadConfig' lib c1_decoded)) "api.example.com" = Some c1_rule
    /\ ForwardClient (Headers c1_rule) = true
    /\ "authorization" ∈ Remove (Headers c1_rule)
    /\ req_Header c1_request !! "Authorization" = Some ["Bearer t"]
    /\ Part000.processHeaders lib c1_request c1_rule !! "Authorization" = Some ["Bearer t"]
    /\ Proxy.processHeaders lib c1_request c1_rule !! "Authorization" = Some ["Bearer t"].
Proof.
  intros lib. split; [by repeat constructor|].
  split; [reflexivity|]. split; [reflexivity|]. split; [reflexivity|].
  split; [by left|]. split; [by vm_compute|]. split; [by vm_compute|].
  rewrite Proxy_processHeaders_other by done. by vm_compute.
Qed.

Lemma canonical_keys_insert (h : http_Header) (k : string) (values : list string) :
  CanonicalMIMEHeaderKey k = k -> canonical_keys h -> canonical_keys (<[k := values]> h).
Proof.
  intros Hk Hh k'. destruct (decide (k = k')) as [<-|Hne]; [done|].
  rewrite lookup_insert_ne by done. apply Hh.
Qed.

Lemma canonical_keys_singleton (k : string) (values : list string) :
  CanonicalMIMEHeaderKey k = k -> canonical_keys ({[k := values]} : http_Header).
Proof.
  intros Hk. rewrite <- insert_empty.
  apply canonical_keys_insert; [done|apply canonical_keys_empty].
Qed.

(** C2, as stated, fails: a forwarded header whose value is empty counts
    as absent for [extra], which then replaces it, in both variants. *)
Lemma C2_extra_overrides_empty_value :
  ~ (forall lib (r : Request) (rule : TransitRule) (name e : string) (values : list string),
       ForwardClient (Headers rule) = true ->
       removes_has (removes (Headers rule)) (ToLower lib name) = false ->
       Set_ (Headers rule) = [] ->
       req_Header r !! name = Some values ->
       (name, e) ∈ Extra (Headers rule) ->
       Part000.processHeaders lib r rule !! name = Some values)
  /\ ~ (forall lib (r : Request) (rule : TransitRule) (name e : string) (values : list string),
       ForwardClient (Headers rule) = true ->
       removes_has (removes (Headers rule)) (ToLower lib name) = false ->
       Set_ (Headers rule) = [] ->
       name <> "Host" ->
       req_Header r !! name = Some values ->
       (name, e) ∈ Extra (Headers rule) ->
       Proxy.processHeaders lib r rule !! name = Some values).
Proof.
  split.
  - intros H.
    specialize (H demo_lib empty_value_request empty_value_rule "X-Foo" "e" [EmptyString]).
    assert (Part000.processHeaders demo_lib empty_value_request empty_value_rule !! "X-Foo"
            = Some ["e"]) as Hrun by (by vm_compute).
    rewrite H in Hrun; [discriminate|reflexivity|reflexivity|reflexivity|by vm_compute|by left].
  - intros H.
    specialize (H demo_lib empty_value_request empty_value_rule "X-Foo" "e" [EmptyString]).
    assert (Proxy.processHeaders demo_lib empty_value_request empty_value_rule !! "X-Foo"
            = Some ["e"]) as Hrun by (by vm_compute).
    rewrite H in Hrun;
      [discriminate|reflexivity|reflexivity|reflexivity|discriminate|by vm_compute|by left].
Qed.

(** C2, amended.  (a) A forwarded name whose first value is not empty and
    that [set] does not name keeps its forwarded values, whatever [extra]
    holds; in [src/proxy.go] for every name but [Host].  (b) A name of [set]
    whose canonical form no other key of [set] shares ends with exactly
    the one value of [set] under its canonical name (in [src/proxy.go] for
    every name but [Host]), and with canonical inbound keys no other
    spelling of the name is left in the result.  (c) Scenario B, with the
    removal set built from the list, gives the stated headers in
    [part_000], and in [src/proxy.go] when the host of the backend is
    [backend]. *)
Theorem C2_precedence :
  (forall lib (r : Request) (rule : TransitRule) (name v0 : string) (vs : list string),
     ForwardClient (Headers rule) = true ->
     removes_has (removes (Headers rule)) (ToLower lib name) = false ->
     req_Header r !! name = Some (v0 :: vs) ->
     v0 <> EmptyString ->
     Forall (fun kv => CanonicalMIMEHeaderKey kv.1 <> name) (Set_ (Headers rule)) ->
     Part000.processHeaders lib r rule !! name = Some (v0 :: vs)
     /\ (name <> "Host" ->
         Proxy.processHeaders lib r rule !! name = Some (v0 :: vs)))
  /\ (forall lib (r : Request) (rule : TransitRule) (k v : string),
        (k, v) ∈ Set_ (Headers rule) ->
        NoDup ((fun kv => CanonicalMIMEHeaderKey kv.1) <$> Set_ (Headers rule)) ->
        Part000.processHeaders lib r rule !! CanonicalMIMEHeaderKey k = Some [v]
        /\ (CanonicalMIMEHeaderKey k <> "Host" ->
            Proxy.processHeaders lib r rule !! CanonicalMIMEHeaderKey k = Some [v])
        /\ (canonical_keys (req_Header r) ->
            forall k', is_Some (Part000.processHeaders lib r rule !! k') ->
                       CanonicalMIMEHeaderKey k' = CanonicalMIMEHeaderKey k ->
                       k' = CanonicalMIMEHeaderKey k))
  /\ (forall lib base,
        Part000.processHeaders lib scenarioB_request (scenarioB_rule base) = scenarioB_outbound)
  /\ (forall lib base,
        Proxy.extractHost lib base = "backend" ->
        Proxy.processHeaders lib scenarioB_request (scenarioB_rule base) = scenarioB_outbound).
Proof.
  split; [|split; [|split]].
  - intros lib r rule name v0 vs Hfw Hrm Hin Hv Hset.
    assert (pipeline lib (req_Header r) (Headers rule) !! name = Some (v0 :: vs)) as Hp
      by by apply pipeline_forwarded_kept.
    split; [exact Hp|]. intros Hne. by rewrite Proxy_processHeaders_other.
  - intros lib r rule k v Hin Hnd.
    assert (pipeline lib (req_Header r) (Headers rule) !! CanonicalMIMEHeaderKey k = Some [v])
      as Hp by by apply pipeline_set_wins.
    split; [exact Hp|]. split.
    + intros Hne. by rewrite Proxy_processHeaders_other.
    + intros Hcanon k' Hk' Heq. rewrite <- Heq. symmetry.
      by apply (canonical_keys_pipeline lib (req_Header r) (Headers rule) Hcanon).
  - intros lib base. by vm_compute.
  - intros lib base Hhost. unfold Proxy.processHeaders. simpl BackendBase.
    rewrite Hhost. by vm_compute.
Qed.

Lemma C2_precedence_witness :
  Part000.processHeaders demo_lib precedence_request precedence_rule !! "X-Extra-Header"
    = Some ["client"]
  /\ Proxy.processHeaders demo_lib precedence_request precedence_rule !! "X-Extra-Header"
    = Some ["client"]
  /\ Part000.processHeaders demo_lib precedence_request precedence_rule !! "User-Agent"
    = Some ["proxy"]
  /\ Proxy.processHeaders demo_lib precedence_request precedence_rule !! "User-Agent"
    = Some ["proxy"]
  /\ Proxy.processHeaders demo_lib scenarioB_request (scenarioB_rule "http://backend")
    = scenarioB_outbound.
Proof.
  destruct C2_precedence as (Hfwd & Hset & _ & HB).
  destruct (Hfwd demo_lib precedence_request precedence_rule "X-Extra-Header" "client" [])
    as [H1 H2].
  { reflexivity. }
  { reflexivity. }
  { vm_compute. reflexivity. }
  { discriminate. }
  { repeat constructor. vm_compute. discriminate. }
  destruct (Hset demo_lib precedence_request precedence_rule "user-agent" "proxy")
    as (H3 & H4 & _).
  { left. }
  { vm_compute. repeat constructor. intros Hin. inversion Hin. }
  split; [exact H1|]. split; [apply H2; discriminate|].
  split; [exact H3|]. split; [apply H4; vm_compute; discriminate|].
  apply HB. vm_compute. reflexivity.
Defined.

Lemma scenarioB_canonical : canonical_keys (req_Header scenarioB_request).
Proof.
  apply canonical_keys_insert; [reflexivity|].
  apply canonical_keys_singleton. reflexivity.
Qed.

(** C9. For a [backend_base] written without a scheme the [Host] value
    that [processHeaders] of [src/proxy.go] forces is not the host of the
    backend: [extractHost] parses the base as it is, where [extractDomain]
    and [buildTransitBackendURL] complete the scheme first.  For the route
    of [b.example.com], whose base is [backend:9000], the pool key is
    [backend:9000], the request goes to [http://backend:9000/users?x=1],
    and the one [Host] value of the outbound header set is the empty
    string. *)
Theorem C9_scheme_less_base_loses_host :
  gomap_get (TransitMap c5_config) "b.example.com" = Some (plain_rule "backend:9000")
  /\ Proxy.extractDomain demo_lib "backend:9000" = "backend:9000"
  /\ fst (buildTransitBackendURL (plain_rule "backend:9000") c5_request)
     = "http://backend:9000/users?x=1"
  /\ Proxy.extractHost demo_lib "backend:9000" = EmptyString
  /\ Proxy.processHeaders demo_lib c5_request (plain_rule "backend:9000") !! "Host"
     = Some [EmptyString].
Proof. repeat split; by vm_compute. Qed.

(** X27. What the last step of [processHeaders] of [src/proxy.go] does
    guarantee.  Every name but [Host] is in the outbound set exactly as in
    [part_000], which forces nothing; with canonical inbound keys no other
    spelling of [Host] is left, so the set has one [Host] entry; and for a
    base that carries its scheme the one value of that entry is the
    backend host that keys the pool, whatever client forwarding, [extra]
    and [set] contributed. *)
Theorem X27_host_forced_for_base_with_scheme :
  forall lib (r : Request) (rule : TransitRule),
    (forall k, k <> "Host" ->
       Proxy.processHeaders lib r rule !! k = Part000.processHeaders lib r rule !! k)
    /\ (canonical_keys (req_Header r) ->
        forall k, is_Some (Proxy.processHeaders lib r rule !! k) ->
                  CanonicalMIMEHeaderKey k = "Host" -> k = "Host")
    /\ (HasPrefix (BackendBase rule) "http://" || HasPrefix (BackendBase rule) "https://"
        = true ->
        Proxy.processHeaders lib r rule !! "Host"
        = Some [Proxy.extractDomain lib (BackendBase rule)]).
Proof.
  intros lib r rule. split; [|split].
  - intros k Hk. by apply Proxy_processHeaders_other.
  - intros Hcanon k Hk Heq. rewrite <- Heq. symmetry.
    revert Hk. unfold Proxy.processHeaders.
    apply canonical_keys_Set. by apply canonical_keys_pipeline.
  - intros Hscheme. rewrite Proxy_processHeaders_Host.
    unfold Proxy.extractHost, Proxy.extractDomain.
    by destruct (HasPrefix (BackendBase rule) "http://"),
                (HasPrefix (BackendBase rule) "https://").
Qed.

Lemma X27_host_forced_for_base_with_scheme_witness :
  Proxy.processHeaders demo_lib scenarioB_request (scenarioB_rule "http://other:9000") !! "Host"
    = Some ["other:9000"]
  /\ (forall k,
        is_Some (Proxy.processHeaders demo_lib scenarioB_request
                   (scenarioB_rule "http://other:9000") !! k) ->
        CanonicalMIMEHeaderKey k = "Host" -> k = "Host").
Proof.
  destruct (X27_host_forced_for_base_with_scheme demo_lib scenarioB_request
              (scenarioB_rule "http://other:9000")) as (_ & Hone & Hhost).
  split.
  - rewrite Hhost by reflexivity. vm_compute. reflexivity.
  - apply Hone. exact scenarioB_canonical.
Defined.

(** ** The connection pools *)

Lemma gomap_get_elem {V} (m : gomap V) (k : string) (v : V) :
  gomap_get m k = Some v -> (k, v) ∈ m.
Proof.
  unfold gomap_get. destruct (find _ m) as [[k' v']|] eqn:Hfind; [|done].
  intros [= <-]. apply find_some in Hfind as [Hin Heq].
  apply String.eqb_eq in Heq. simpl in Heq. subst k'.
  by apply list_elem_of_In.
Qed.

Lemma pool_inv_empty : pool_inv (∅, 0).
Proof. split; intros *; simpl; rewrite ?lookup_empty; try done. Qed.

Lemma pool_inv_insert (m : gmap string http_Client) (n : nat) (k : string) (d : Dialer) :
  pool_inv (m, n) ->
  pool_inv (<[k := {| client_id := n; client_Dial := d |}]> m, S n).
Proof.
  intros [Hlt Hne]. split; simpl in *.
  - intros k' c. destruct (decide (k = k')) as [<-|Hk].
    + rewrite lookup_insert_eq. intros [= <-]. simpl. lia.
    + rewrite lookup_insert_ne by done. intros Hc. specialize (Hlt _ _ Hc). lia.
  - intros k1 k2 c1 c2 Hk12.
    destruct (decide (k = k1)) as [<-|Hk1], (decide (k = k2)) as [<-|Hk2]; [done|..].
    + rewrite lookup_insert_eq, lookup_insert_ne by done. intros [= <-] Hc2.
      specialize (Hlt _ _ Hc2). simpl. lia.
    + rewrite lookup_insert_eq, lookup_insert_ne by done. intros Hc1 [= <-].
      specialize (Hlt _ _ Hc1). simpl. lia.
    + rewrite !lookup_insert_ne by done. by apply Hne.
Qed.

Lemma Part000_pool_inv (l : gomap TransitRule) acc :
  pool_inv acc -> pool_inv (foldl Part000.pool_step acc l).
Proof.
  revert acc. induction l as [|kv l IH]; intros [m n] Hinv; [done|].
  simpl. apply IH. by apply pool_inv_insert.
Qed.

Lemma Part000_pool_keys (l : gomap TransitRule) (m : gmap string http_Client) (n : nat)
    (k : string) :
  is_Some ((foldl Part000.pool_step (m, n) l).1 !! k) <-> is_Some (m !! k) \/ k ∈ l.*1.
Proof.
  revert m n. induction l as [|[k0 rule] l IH]; intros m n; simpl.
  - split; [by left|]. intros [?|Hk]; [done|]. by apply elem_of_nil in Hk.
  - rewrite IH. rewrite elem_of_cons. destruct (decide (k0 = k)) as [->|Hne].
    + rewrite lookup_insert_eq. split; intros _; [right; by left|left; by eexists].
    + rewrite lookup_insert_ne by done. split.
      * intros [Hm|Hl]; [by left|]. right. by right.
      * intros [Hm|[Heq|Hl]]; [by left|by subst|by right].
Qed.

Section ProxyPools.
Context (lib : Lib).

Lemma Proxy_pool_inv (l : gomap TransitRule) acc :
  pool_inv acc -> pool_inv (foldl (Proxy.pool_step lib) acc l).
Proof.
  revert acc. induction l as [|kv l IH]; intros [m n] Hinv; [done|].
  simpl. apply IH. destruct (m !! BackendBase kv.2); [done|].
  by apply pool_inv_insert.
Qed.

Lemma Proxy_pool_step_mono acc (kv : string * TransitRule) (k : string) :
  is_Some (acc.1 !! k) -> is_Some ((Proxy.pool_step lib acc kv).1 !! k).
Proof.
  destruct acc as [m n]. simpl. intros Hk.
  destruct (m !! BackendBase kv.2); [done|]. simpl.
  destruct (decide (Proxy.extractDomain lib (BackendBase kv.2) = k)) as [->|Hne].
  - rewrite lookup_insert_eq. by eexists.
  - by rewrite lookup_insert_ne.
Qed.

Lemma Proxy_pool_mono (l : gomap TransitRule) acc (k : string) :
  is_Some (acc.1 !! k) -> is_Some ((foldl (Proxy.pool_step lib) acc l).1 !! k).
Proof.
  revert acc. induction l as [|kv l IH]; intros acc Hk; [done|].
  simpl. apply IH. by apply Proxy_pool_step_mono.
Qed.

(** Every key of the pool map is the domain of a rule visited so far. *)
Lemma Proxy_pool_keys (l : gomap TransitRule) acc (k : string) :
  is_Some ((foldl (Proxy.pool_step lib) acc l).1 !! k) ->
  is_Some (acc.1 !! k)
  \/ exists kv, kv ∈ l /\ k = Proxy.extractDomain lib (BackendBase kv.2).
Proof.
  revert acc. induction l as [|kv l IH]; intros [m n] Hk; [by left|].
  simpl in Hk. apply IH in Hk as [Hk|(kv' & Hin & ->)].
  - destruct (m !! BackendBase kv.2) eqn:Hm; [by left|]. simpl in Hk.
    destruct (decide (Proxy.extractDomain lib (BackendBase kv.2) = k)) as [<-|Hne].
    + right. exists kv. split; [by left|done].
    + rewrite lookup_insert_ne in Hk by done. by left.
  - right. exists kv'. split; [by right|done].
Qed.

Lemma Proxy_pool_covers (done_ l : gomap TransitRule) acc (kv : string * TransitRule) :
  keys_stable lib (done_ ++ l) ->
  (forall k, is_Some (acc.1 !! k) ->
     exists kv', kv' ∈ done_ /\ k = Proxy.extractDomain lib (BackendBase kv'.2)) ->
  kv ∈ l ->
  is_Some ((foldl (Proxy.pool_step lib) acc l).1
             !! Proxy.extractDomain lib (BackendBase kv.2)).
Proof.
  revert done_ acc. induction l as [|kv0 l IH]; intros done_ acc Hst Hacc Hin.
  - by apply elem_of_nil in Hin.
  - apply elem_of_cons in Hin as [->|Hin]; simpl.
    + apply Proxy_pool_mono. destruct acc as [m n]. simpl in *.
      destruct (m !! BackendBase kv0.2) as [c|] eqn:Hm; simpl.
      * destruct (Hacc (BackendBase kv0.2)) as (kv' & Hkv' & Heq); [by eexists|].
        rewrite (Hst kv' kv0), Hm; [by eexists|..|done].
        -- apply elem_of_app. by left.
        -- apply elem_of_app. right. by left.
      * rewrite lookup_insert_eq. by eexists.
    + apply (IH (done_ ++ [kv0])%list); [by rewrite <- app_assoc| |done].
      intros k Hk. destruct acc as [m n]. simpl in Hk.
      destruct (m !! BackendBase kv0.2) eqn:Hm; simpl in Hk.
      * destruct (Hacc k Hk) as (kv' & Hkv' & ->). exists kv'.
        split; [|done]. apply elem_of_app. by left.
      * destruct (decide (Proxy.extractDomain lib (BackendBase kv0.2) = k)) as [<-|Hne].
        -- exists kv0. split; [|done]. apply elem_of_app. right. by left.
        -- rewrite lookup_insert_ne in Hk by done.
           destruct (Hacc k Hk) as (kv' & Hkv' & ->). exists kv'.
           split; [|done]. apply elem_of_app. by left.
Qed.

End ProxyPools.

Lemma dispatch_error_not_pool_failure env client req trace s :
  match Error trace with Some e => is_pool_failure e = false | None => True end ->
  match trace_of (dispatch env client req trace s) with
  | Some t => match Error t with Some e => is_pool_failure e = false | None => True end
  | None => True
  end.
Proof.
  intros Ht. unfold dispatch.
  destruct (client_Do env client req) as [resp|err]; simpl; [|reflexivity].
  destruct (resp_Body resp) as [body|err]; simpl; [|reflexivity].
  destruct (WriteHeader _ _) as [w0|]; simpl; [|exact I].
  destruct (Write w0 body) as [w [e|]]; simpl; [reflexivity|exact Ht].
Qed.

Lemma Part000_pool_has_route (cfg : Config) (host : string) (rule : TransitRule) :
  gomap_get (TransitMap cfg) host = Some rule ->
  is_Some (clients (Part000.NewProxyHandler cfg) !! host).
Proof.
  intros Hget. apply gomap_get_elem in Hget.
  unfold Part000.NewProxyHandler, Part000.initializeClientPools. simpl.
  apply Part000_pool_keys. right.
  apply list_elem_of_fmap. by exists (host, rule).
Qed.

Lemma Proxy_pool_has_route lib (cfg : Config) (host : string) (rule : TransitRule) :
  keys_stable lib (TransitMap cfg) ->
  gomap_get (TransitMap cfg) host = Some rule ->
  is_Some (Proxy.getClientForDomain lib (Proxy.NewProxyHandler lib cfg) (BackendBase rule)).
Proof.
  intros Hst Hget. apply gomap_get_elem in Hget.
  unfold Proxy.getClientForDomain, Proxy.NewProxyHandler, Proxy.initializeClientPools.
  simpl. apply (Proxy_pool_covers lib [] (TransitMap cfg) (∅, 0) (host, rule)); [done| |done].
  intros k [c Hc]. simpl in Hc. by rewrite lookup_empty in Hc.
Qed.

(** What the presence test costs when the condition fails: the second
    route is skipped, and its own key has no client. *)
Lemma Proxy_pool_skip lib (server : ServerConfig) (log : LogConfig)
    (host1 host2 : string) (rule1 rule2 : TransitRule) :
  Proxy.extractDomain lib (BackendBase rule1) = BackendBase rule2 ->
  Proxy.extractDomain lib (BackendBase rule2) <> BackendBase rule2 ->
  Proxy.getClientForDomain lib
    (Proxy.NewProxyHandler lib
       {| Server := server; Log := log;
          TransitMap := [(host1, rule1); (host2, rule2)] |})
    (BackendBase rule2) = None.
Proof.
  intros H1 H2.
  unfold Proxy.getClientForDomain, Proxy.NewProxyHandler, Proxy.initializeClientPools.
  simpl. rewrite lookup_empty. rewrite H1. simpl. rewrite lookup_insert_eq. simpl.
  by rewrite lookup_insert_ne.
Qed.

Lemma keys_stable_Forall lib (l : gomap TransitRule) :
  Forall (fun kv1 => Forall (fun kv2 =>
     Proxy.extractDomain lib (BackendBase kv1.2) = BackendBase kv2.2 ->
     Proxy.extractDomain lib (BackendBase kv2.2) = BackendBase kv2.2) l) l ->
  keys_stable lib l.
Proof.
  intros Hall kv1 kv2 H1 H2.
  rewrite Forall_forall in Hall. specialize (Hall kv1 H1).
  rewrite Forall_forall in Hall. by apply Hall.
Qed.

(** C5. In [src/proxy.go] a configured route can be left without a pooled
    client.  The first route has the base [http://a%2525b], whose pool key
    is [a%25b]; the second has the base [a%25b]: the presence test of
    [initializeClientPools] finds that string among the keys and skips the
    route, whose own pool key is [a%b].  The lookup for the second route
    gives nil, and a request for it, whose URL is built and whose outbound
    request is made without error, ends in the panic of [client.Do] with
    nothing sent to the client. *)
Theorem C5_route_left_without_client :
  gomap_get (TransitMap c5_skip_config) "b.example.com" = Some (plain_rule "a%25b")
  /\ Proxy.extractDomain percent_lib "http://a%2525b" = "a%25b"
  /\ Proxy.extractDomain percent_lib "a%25b" = "a%b"
  /\ clients (Proxy.NewProxyHandler percent_lib c5_skip_config)
     = {[ "a%25b" := {| client_id := 0; client_Dial := SystemDialer |} ]}
  /\ Proxy.getClientForDomain percent_lib
       (Proxy.NewProxyHandler percent_lib c5_skip_config) "a%25b" = None
  /\ fst (buildTransitBackendURL (plain_rule "a%25b") c5_skip_request)
     = "http://a%25b/users?x=1"
  /\ exists s,
       Proxy.ServeHTTP percent_lib (Proxy.NewProxyHandler percent_lib c5_skip_config)
         env_ok (start []) c5_skip_request = Aborted s
       /\ w_status (st_w s) = None
       /\ w_body (st_w s) = EmptyString
       /\ count_events is_dispatch s = 0.
Proof.
  split; [reflexivity|]. split; [reflexivity|]. split; [reflexivity|].
  split; [by vm_compute|]. split; [by vm_compute|]. split; [by vm_compute|].
  eexists. split; [by vm_compute|]. by vm_compute.
Qed.

(** X26. What the pools do guarantee.  In [part_000] (pools keyed by
    frontend hostname) every hostname of the route table has its pooled
    client, different hostnames have clients of different identity, and no
    trace of [forwardRequest] for a handler so built carries the error of
    a failed pool lookup.  In [src/proxy.go] (pools keyed by backend host)
    every route of the table finds its client, provided a [backend_base]
    that is literally the pool key of a route is its own pool key; two
    routes with the same backend host get the same client, and two routes
    with different backend hosts get clients of different identity. *)
Theorem X26_pools_when_keys_stable :
  (forall (cfg : Config) (host : string) (rule : TransitRule),
     gomap_get (TransitMap cfg) host = Some rule ->
     is_Some (clients (Part000.NewProxyHandler cfg) !! host))
  /\ (forall (cfg : Config) (host1 host2 : string) (c1 c2 : http_Client),
        host1 <> host2 ->
        clients (Part000.NewProxyHandler cfg) !! host1 = Some c1 ->
        clients (Part000.NewProxyHandler cfg) !! host2 = Some c2 ->
        client_id c1 <> client_id c2)
  /\ (forall lib (cfg : Config) env script (r : Request) (host : string) (t : ProxyTrace)
             (e : string),
        trace_of (Part000.forwardRequest lib (Part000.NewProxyHandler cfg)
                    env (start script) r host) = Some t ->
        Error t = Some e ->
        is_pool_failure e = false)
  /\ (forall lib (cfg : Config) (host : string) (rule : TransitRule),
        keys_stable lib (TransitMap cfg) ->
        gomap_get (TransitMap cfg) host = Some rule ->
        is_Some (Proxy.getClientForDomain lib (Proxy.NewProxyHandler lib cfg)
                   (BackendBase rule)))
  /\ (forall lib (cfg : Config) (rule1 rule2 : TransitRule),
        Proxy.extractDomain lib (BackendBase rule1)
        = Proxy.extractDomain lib (BackendBase rule2) ->
        Proxy.getClientForDomain lib (Proxy.NewProxyHandler lib cfg) (BackendBase rule1)
        = Proxy.getClientForDomain lib (Proxy.NewProxyHandler lib cfg) (BackendBase rule2))
  /\ (forall lib (cfg : Config) (rule1 rule2 : TransitRule) (c1 c2 : http_Client),
        Proxy.extractDomain lib (BackendBase rule1)
        <> Proxy.extractDomain lib (BackendBase rule2) ->
        Proxy.getClientForDomain lib (Proxy.NewProxyHandler lib cfg) (BackendBase rule1)
        = Some c1 ->
        Proxy.getClientForDomain lib (Proxy.NewProxyHandler lib cfg) (BackendBase rule2)
        = Some c2 ->
        client_id c1 <> client_id c2).
Proof.
  split; [|split; [|split; [|split; [|split]]]].
  - apply Part000_pool_has_route.
  - intros cfg host1 host2 c1 c2 Hne H1 H2.
    unfold Part000.NewProxyHandler, Part000.initializeClientPools in H1, H2.
    simpl in H1, H2.
    destruct (Part000_pool_inv (TransitMap cfg) (∅, 0) pool_inv_empty) as [_ Hdiff].
    exact (Hdiff _ _ c1 c2 Hne H1 H2).
  - intros lib cfg env script r host t e. unfold Part000.forwardRequest.
    destruct (gomap_get _ host) as [rule|] eqn:Hget.
    2:{ simpl. intros [= <-]. simpl. by intros [= <-]. }
    destruct (Part000_pool_has_route cfg host rule Hget) as [client Hc].
    simpl config. rewrite Hc.
    rewrite (buildTransitBackendURL_eta rule r).
    destruct (req_Body r) as [body|err].
    2:{ simpl. intros [= <-]. simpl. by intros [= <-]. }
    destruct (http_NewRequest lib _ _).
    { simpl. intros [= <-]. simpl. by intros [= <-]. }
    match goal with
    | |- context [dispatch ?e ?c ?q ?t ?s] =>
        pose proof (dispatch_error_not_pool_failure e c q t s I) as Hd
    end.
    intros Ht He. rewrite Ht, He in Hd. exact Hd.
  - intros lib cfg host rule Hst Hget.
    exact (Proxy_pool_has_route lib cfg host rule Hst Hget).
  - intros lib cfg rule1 rule2 Heq. unfold Proxy.getClientForDomain. by rewrite Heq.
  - intros lib cfg rule1 rule2 c1 c2 Hne H1 H2.
    unfold Proxy.getClientForDomain, Proxy.NewProxyHandler, Proxy.initializeClientPools
      in H1, H2. simpl in H1, H2.
    destruct (Proxy_pool_inv lib (TransitMap cfg) (∅, 0) pool_inv_empty) as [_ Hdiff].
    exact (Hdiff _ _ c1 c2 Hne H1 H2).
Qed.

Lemma c5_keys_stable : keys_stable demo_lib (TransitMap c5_config).
Proof.
  apply keys_stable_Forall.
  repeat constructor; vm_compute; intros H; try discriminate H; reflexivity.
Qed.

Lemma X26_pools_when_keys_stable_witness :
  is_Some (clients (Part000.NewProxyHandler c5_config) !! "b.example.com")
  /\ is_Some (Proxy.getClientForDomain demo_lib (Proxy.NewProxyHandler demo_lib c5_config)
                "backend:9000")
  /\ Proxy.getClientForDomain demo_lib (Proxy.NewProxyHandler demo_lib c5_config)
       "http://backend:9000"
     = Proxy.getClientForDomain demo_lib (Proxy.NewProxyHandler demo_lib c5_config)
         "backend:9000"
  /\ (forall c1 c2,
        Proxy.getClientForDomain demo_lib (Proxy.NewProxyHandler demo_lib c5_config)
          "http://backend:9000" = Some c1 ->
        Proxy.getClientForDomain demo_lib (Proxy.NewProxyHandler demo_lib c5_config)
          "https://other" = Some c2 ->
        client_id c1 <> client_id c2).
Proof.
  destruct X26_pools_when_keys_stable as (Hfront & _ & _ & Hback & Hshare & Hiso).
  split; [|split; [|split]].
  - apply (Hfront c5_config "b.example.com" (plain_rule "backend:9000")).
    vm_compute. reflexivity.
  - apply (Hback demo_lib c5_config "b.example.com" (plain_rule "backend:9000")).
    + exact c5_keys_stable.
    + vm_compute. reflexivity.
  - apply (Hshare demo_lib c5_config (plain_rule "http://backend:9000")
             (plain_rule "backend:9000")).
    vm_compute. reflexivity.
  - intros c1 c2.
    apply (Hiso demo_lib c5_config (plain_rule "http://backend:9000")
             (plain_rule "https://other") c1 c2).
    vm_compute. discriminate.
Defined.

(** ** The handlers *)

(** [WriteHeader] on an open response, for a code it sends as the
    status. *)
Lemma WriteHeader_final (w : ResponseWriter) (code : Z) :
  w_status w = None -> final_status code = true ->
  WriteHeader w code = Some (w_send_status w code).
Proof.
  intros Hw Hcode. unfold WriteHeader. rewrite Hw.
  unfold final_status in Hcode. apply andb_true_iff in Hcode as [-> Hinf].
  apply negb_true_iff in Hinf as ->. reflexivity.
Qed.

(** An informational code is sent at once and leaves the status open. *)
Lemma WriteHeader_informational (w : ResponseWriter) (code : Z) :
  w_status w = None -> informational code = true ->
  WriteHeader w code = Some (w_send_interim w code).
Proof.
  intros Hw Hcode. unfold WriteHeader. rewrite Hw, Hcode.
  assert (valid_status_code code = true) as ->; [|reflexivity].
  unfold informational in Hcode. unfold valid_status_code.
  apply andb_true_iff in Hcode as [Hcode _].
  apply andb_true_iff in Hcode as [H1 H2].
  apply andb_true_iff. split; [exact H1|].
  apply Z.leb_le in H2. apply Z.leb_le. lia.
Qed.

(** [WriteHeader] never panics once the status line is sent. *)
Lemma WriteHeader_sent (w : ResponseWriter) (code sent : Z) :
  w_status w = Some sent -> WriteHeader w code = Some w.
Proof. intros Hw. unfold WriteHeader. by rewrite Hw. Qed.

(** [WriteHeader] panics exactly on an open response and a code out of
    range. *)
Lemma WriteHeader_None (w : ResponseWriter) (code : Z) :
  WriteHeader w code = None <-> w_status w = None /\ valid_status_code code = false.
Proof.
  unfold WriteHeader. destruct (w_status w); [by split; [|intros [? _]]|].
  destruct (valid_status_code code); simpl.
  - destruct (informational code); by split; [|intros [_ ?]].
  - by split.
Qed.

(** After [Write] a status line is sent, and it is the one sent before,
    if any. *)
Lemma Write_status (w : ResponseWriter) (data : string) :
  w_status (Write w data).1
  = Some (match w_status w with Some sent => sent | None => StatusOK end).
Proof.
  unfold Write, WriteHeader.
  destruct (w_status w) as [sent|] eqn:Hw; simpl;
    destruct (w_script w) as [|[e|] rest]; simpl; by rewrite ?Hw.
Qed.

Lemma Write_body (w : ResponseWriter) (data : string) :
  first_write_ok (w_script w) = true ->
  (Write w data).2 = None /\ w_body (Write w data).1 = w_body w +:+ data.
Proof.
  unfold Write, WriteHeader.
  destruct (w_status w) as [sent|] eqn:Hw; simpl;
    destruct (w_script w) as [|[e|] rest]; simpl; by intros.
Qed.

Lemma http_Error_fresh (script : list (option string)) (text : string) (code : Z) :
  final_status code = true ->
  exists w,
    http_Error (fresh_writer script) text code = Some w
    /\ w_status w = Some code
    /\ (first_write_ok script = true -> w_body w = text +:+ newline).
Proof.
  intros Hcode. unfold http_Error. rewrite WriteHeader_final by done.
  eexists. split; [reflexivity|]. split.
  - by rewrite Write_status.
  - intros Hok. by apply Write_body.
Qed.

Lemma reply_error_fresh (s : St) (script : list (option string)) (text : string)
    (code : Z) :
  st_w s = fresh_writer script ->
  final_status code = true ->
  exists s',
    reply_error s text code = Finished s'
    /\ st_events s' = st_events s
    /\ w_status (st_w s') = Some code
    /\ (first_write_ok script = true -> w_body (st_w s') = text +:+ newline).
Proof.
  intros Hw Hcode. unfold reply_error. rewrite Hw.
  destruct (http_Error_fresh script text code Hcode) as (w & -> & Hst & Hbody).
  by eexists.
Qed.

(** C6, as stated, fails in [part_000]: for a host without a route the
    handler still hands the trace to the logger. *)
Lemma C6_part000_logs_trace :
  ~ (forall lib p env script (r : Request),
       gomap_get (TransitMap (config p)) (strip_port (req_Host r)) = None ->
       count_events is_trace_log
         (final_state (Part000.ServeHTTP lib p env (start script) r)) = 0).
Proof.
  intros H.
  specialize (H demo_lib (Part000.NewProxyHandler c5_config) env_ok []
                unknown_host_request).
  assert (count_events is_trace_log
            (final_state (Part000.ServeHTTP demo_lib (Part000.NewProxyHandler c5_config)
                            env_ok (start []) unknown_host_request)) = 1) as Hrun
    by (by vm_compute).
  rewrite H in Hrun; [discriminate|by vm_compute].
Qed.

(** C6, amended.  For a request whose host, the port stripped, has no
    route: in [src/proxy.go] the client gets status 404 with the fixed text
    and the handler stops after one info line, with no trace given to the
    logger, no pool lookup and no dispatch; in [part_000] the client gets
    status 500 with the error text, there is no pool lookup and no
    dispatch, and the trace that carries the error is given to the logger,
    followed by one warning. *)
Theorem C6_missing_route :
  (forall lib p env script (r : Request),
     gomap_get (TransitMap (config p)) (strip_port (req_Host r)) = None ->
     exists s,
       Proxy.ServeHTTP lib p env (start script) r = Finished s
       /\ w_status (st_w s) = Some StatusNotFound
       /\ (first_write_ok script = true ->
           w_body (st_w s) = "转发规则未找到" +:+ newline)
       /\ st_events s
          = [EvLog InfoLevel "未找到转发规则: %s" [AStr (strip_port (req_Host r))]]
       /\ count_events is_trace_log s = 0
       /\ count_events is_pool_lookup s = 0
       /\ count_events is_dispatch s = 0)
  /\ (forall lib p env script (r : Request),
        gomap_get (TransitMap (config p)) (strip_port (req_Host r)) = None ->
        exists s t,
          Part000.ServeHTTP lib p env (start script) r = Finished s
          /\ w_status (st_w s) = Some StatusInternalServerError
          /\ (first_write_ok script = true ->
              w_body (st_w s)
              = ("未找到转发规则: " +:+ strip_port (req_Host r)) +:+ newline)
          /\ Error t = Some ("未找到转发规则: " +:+ strip_port (req_Host r))
          /\ st_events s
             = [EvLogTrace t;
                EvLog WarnLevel "%s %s | 耗时: %v | %s"
                  [AStr (Method t); AStr (RequestURL t); ADur (Duration t);
                   AStr ("未找到转发规则: " +:+ strip_port (req_Host r))]]
          /\ count_events is_trace_log s = 1
          /\ count_events is_pool_lookup s = 0
          /\ count_events is_dispatch s = 0).
Proof.
  split.
  - intros lib p env script r Hget. unfold Proxy.ServeHTTP. rewrite Hget.
    match goal with |- context [reply_error ?s0 ?text ?code] =>
      destruct (reply_error_fresh s0 script text code eq_refl eq_refl)
        as (s' & -> & Hev & Hst & Hbody) end.
    exists s'. split; [reflexivity|]. split; [exact Hst|]. split; [exact Hbody|].
    unfold count_events. rewrite Hev. by repeat split.
  - intros lib p env script r Hget. unfold Part000.ServeHTTP, Part000.forwardRequest.
    rewrite Hget. unfold finish. simpl.
    match goal with |- context [reply_error ?s0 ?text ?code] =>
      destruct (reply_error_fresh s0 script text code eq_refl eq_refl)
        as (s' & -> & Hev & Hst & Hbody) end.
    exists s'.
    exists (set_Duration
              (set_Error
                 (new_trace (time_Now env)
                    (strip_port (req_Host r) +:+ url_Path (req_URL r)) EmptyString
                    (req_Method r) (req_Header r))
                 ("未找到转发规则: " +:+ strip_port (req_Host r)))
              (time_Later env - time_Now env)).
    split; [reflexivity|]. split; [exact Hst|]. split; [exact Hbody|].
    unfold count_events. rewrite Hev. by repeat split.
Qed.

Lemma C6_missing_route_witness :
  (exists s,
     Proxy.ServeHTTP demo_lib (Proxy.NewProxyHandler demo_lib c5_config) env_ok
       (start []) unknown_host_request = Finished s
     /\ w_status (st_w s) = Some StatusNotFound
     /\ count_events is_trace_log s = 0)
  /\ (exists s,
        Part000.ServeHTTP demo_lib (Part000.NewProxyHandler c5_config) env_ok
          (start []) unknown_host_request = Finished s
        /\ w_status (st_w s) = Some StatusInternalServerError
        /\ count_events is_trace_log s = 1).
Proof.
  destruct C6_missing_route as [Hproxy Hpart].
  split.
  - destruct (Hproxy demo_lib (Proxy.NewProxyHandler demo_lib c5_config) env_ok []
                unknown_host_request) as (s & Hs & Hst & _ & _ & Htr & _).
    { vm_compute. reflexivity. }
    exists s. by repeat split.
  - destruct (Hpart demo_lib (Part000.NewProxyHandler c5_config) env_ok []
                unknown_host_request) as (s & t & Hs & Hst & _ & _ & _ & Htr & _).
    { vm_compute. reflexivity. }
    exists s. by repeat split.
Defined.

(** Once a status line is sent, [http.Error] cannot replace it. *)
Lemma http_Error_status_sent (w : ResponseWriter) (text : string) (code sent : Z) :
  w_status w = Some sent ->
  exists w', http_Error w text code = Some w' /\ w_status w' = Some sent.
Proof.
  intros Hw. unfold http_Error.
  rewrite (WriteHeader_sent _ code sent) by done.
  eexists. split; [reflexivity|]. rewrite Write_status. simpl. by rewrite Hw.
Qed.

Lemma reply_error_sent (s : St) (text : string) (code sent : Z) :
  w_status (st_w s) = Some sent ->
  exists s',
    reply_error s text code = Finished s'
    /\ st_events s' = st_events s
    /\ w_status (st_w s') = Some sent.
Proof.
  intros Hw. unfold reply_error.
  destruct (http_Error_status_sent (st_w s) text code sent Hw) as (w' & -> & Hst).
  by eexists.
Qed.

Lemma finish_surfaced env (s : St) (t : ProxyTrace) (script : list (option string))
    (text : string) (dials : nat) :
  Error t = Some text ->
  st_w s = fresh_writer script ->
  List.filter is_trace_log (st_events s) = [] ->
  length (List.filter is_dispatch (st_events s)) = dials ->
  surfaced (finish env t s) script text dials.
Proof.
  intros Herr Hw Htr Hd. unfold surfaced, finish. simpl. rewrite Herr.
  match goal with |- context [reply_error ?s0 ?text ?code] =>
    destruct (reply_error_fresh s0 script text code Hw eq_refl)
      as (s' & -> & Hev & Hst & Hbody) end.
  exists s', (set_Duration t (time_Later env - StartTime t)).
  split; [reflexivity|]. unfold count_events. rewrite Hev. simpl. split.
  { rewrite !List.filter_app, Htr. reflexivity. }
  split; [exact Herr|]. split; [apply last_snoc|]. split.
  { rewrite !List.filter_app, !length_app, Hd. simpl. lia. }
  split; [exact Hst|exact Hbody].
Qed.

Lemma finish_committed env (s : St) (t : ProxyTrace) (text : string) (code : Z) :
  Error t = Some text ->
  w_status (st_w s) = Some code ->
  List.filter is_trace_log (st_events s) = [] ->
  length (List.filter is_dispatch (st_events s)) = 1 ->
  committed (finish env t s) text code.
Proof.
  intros Herr Hw Htr Hd. unfold committed, finish. simpl. rewrite Herr.
  match goal with |- context [reply_error ?s0 ?text ?c] =>
    destruct (reply_error_sent s0 text c code Hw) as (s' & -> & Hev & Hst) end.
  exists s', (set_Duration t (time_Later env - StartTime t)).
  split; [reflexivity|]. unfold count_events. rewrite Hev. simpl. split.
  { rewrite !List.filter_app, Htr. reflexivity. }
  split; [exact Herr|]. split; [apply last_snoc|]. split.
  { rewrite !List.filter_app, !length_app, Hd. simpl. lia. }
  exact Hst.
Qed.

Lemma filter_snoc_false {A} (f : A -> bool) (l : list A) (x : A) :
  f x = false -> List.filter f (l ++ [x])%list = List.filter f l.
Proof. intros Hx. rewrite List.filter_app. simpl. rewrite Hx. apply app_nil_r. Qed.

Lemma filter_snoc_true {A} (f : A -> bool) (l : list A) (x : A) :
  f x = true -> List.filter f (l ++ [x])%list = (List.filter f l ++ [x])%list.
Proof. intros Hx. rewrite List.filter_app. simpl. by rewrite Hx. Qed.

(** The three failures of [dispatch], from a state with an untouched
    writer: the error on the returned trace, one call of [client.Do], and
    the writer still untouched, or, for the write failure, with the status
    of the backend sent (200 after an informational response). *)
Lemma dispatch_failures env client req trace (s : St) (script : list (option string)) :
  st_w s = fresh_writer script ->
  List.filter is_trace_log (st_events s) = [] ->
  length (List.filter is_dispatch (st_events s)) = 0 ->
  (forall e, client_Do env client req = inr e ->
     exists t s', dispatch env client req trace s = Returned t s'
       /\ Error t = Some ("转发请求失败: " +:+ e)
       /\ st_w s' = fresh_writer script
       /\ List.filter is_trace_log (st_events s') = []
       /\ length (List.filter is_dispatch (st_events s')) = 1)
  /\ (forall resp e, client_Do env client req = inl resp -> resp_Body resp = ReadErr e ->
     exists t s', dispatch env client req trace s = Returned t s'
       /\ Error t = Some ("读取响应体失败: " +:+ e)
       /\ st_w s' = fresh_writer script
       /\ List.filter is_trace_log (st_events s') = []
       /\ length (List.filter is_dispatch (st_events s')) = 1)
  /\ (forall resp rspBody e rest,
        client_Do env client req = inl resp -> resp_Body resp = ReadOk rspBody ->
        final_status (resp_StatusCode resp) = true ->
        script = Some e :: rest ->
     exists t s', dispatch env client req trace s = Returned t s'
       /\ Error t = Some ("写入响应体失败: " +:+ e)
       /\ w_status (st_w s') = Some (resp_StatusCode resp)
       /\ List.filter is_trace_log (st_events s') = []
       /\ length (List.filter is_dispatch (st_events s')) = 1)
  /\ (forall resp rspBody e rest,
        client_Do env client req = inl resp -> resp_Body resp = ReadOk rspBody ->
        informational (resp_StatusCode resp) = true ->
        script = Some e :: rest ->
     exists t s', dispatch env client req trace s = Returned t s'
       /\ Error t = Some ("写入响应体失败: " +:+ e)
       /\ w_status (st_w s') = Some StatusOK
       /\ List.filter is_trace_log (st_events s') = []
       /\ length (List.filter is_dispatch (st_events s')) = 1).
Proof.
  intros Hw Htr Hd.
  assert (List.filter is_trace_log (st_events (emit s (EvDo client req))) = []) as Htr'.
  { simpl. by rewrite filter_snoc_false. }
  assert (length (List.filter is_dispatch (st_events (emit s (EvDo client req)))) = 1)
    as Hd'.
  { simpl. rewrite filter_snoc_true, length_app, Hd by done. reflexivity. }
  split; [|split; [|split]].
  - intros e Hdo. unfold dispatch. rewrite Hdo. by eexists _, _.
  - intros resp e Hdo Hbody. unfold dispatch. rewrite Hdo, Hbody. by eexists _, _.
  - intros resp rspBody e rest Hdo Hbody Hcode ->. unfold dispatch.
    rewrite Hdo, Hbody. simpl. rewrite Hw.
    rewrite WriteHeader_final by done. simpl.
    eexists _, _. split; [reflexivity|]. simpl.
    by rewrite filter_snoc_false, filter_snoc_true, length_app, Hd.
  - intros resp rspBody e rest Hdo Hbody Hcode ->. unfold dispatch.
    rewrite Hdo, Hbody. simpl. rewrite Hw.
    rewrite WriteHeader_informational by done. simpl.
    eexists _, _. split; [reflexivity|]. simpl.
    by rewrite filter_snoc_false, filter_snoc_true, length_app, Hd.
Qed.

Lemma Part000_failure_policy lib (p : ProxyHandler) env script (r : Request)
    (rule : TransitRule) (client : http_Client) :
  gomap_get (TransitMap (config p)) (strip_port (req_Host r)) = Some rule ->
  clients p !! strip_port (req_Host r) = Some client ->
  failure_policy lib env script r (fst (buildTransitBackendURL rule r)) client
    (Part000.processHeaders lib r rule)
    (Part000.ServeHTTP lib p env (start script) r).
Proof.
  intros Hget Hc. unfold failure_policy, Part000.ServeHTTP, Part000.forwardRequest.
  set (url := fst (buildTransitBackendURL rule r)).
  rewrite Hget, Hc, (buildTransitBackendURL_eta rule r). fold url.
  set (s0 := emit (start script) (EvPoolLookup (strip_port (req_Host r)))).
  split; [|split; [|split; [|split; [|split]]]].
  - intros e ->. by apply finish_surfaced.
  - intros body e -> ->. by apply finish_surfaced.
  - intros body e -> -> Hdo.
    match goal with |- context [dispatch ?e ?c ?q ?t ?s] =>
      destruct (dispatch_failures e c q t s script) as (H1 & _ & _); [done..|] end.
    destruct (H1 _ Hdo) as (t & s' & -> & ? & ? & ? & ?). by apply finish_surfaced.
  - intros body resp e -> -> Hdo Hbody.
    match goal with |- context [dispatch ?e ?c ?q ?t ?s] =>
      destruct (dispatch_failures e c q t s script) as (_ & H2 & _); [done..|] end.
    destruct (H2 _ _ Hdo Hbody) as (t & s' & -> & ? & ? & ? & ?).
    by apply finish_surfaced.
  - intros body resp rspBody e rest -> -> Hdo Hbody Hcode Hscript.
    match goal with |- context [dispatch ?e ?c ?q ?t ?s] =>
      destruct (dispatch_failures e c q t s script) as (_ & _ & H3 & _); [done..|] end.
    destruct (H3 _ _ _ _ Hdo Hbody Hcode Hscript) as (t & s' & -> & ? & ? & ? & ?).
    by apply finish_committed.
  - intros body resp rspBody e rest -> -> Hdo Hbody Hcode Hscript.
    match goal with |- context [dispatch ?e ?c ?q ?t ?s] =>
      destruct (dispatch_failures e c q t s script) as (_ & _ & _ & H4); [done..|] end.
    destruct (H4 _ _ _ _ Hdo Hbody Hcode Hscript) as (t & s' & -> & ? & ? & ? & ?).
    by apply finish_committed.
Qed.

Lemma Proxy_failure_policy lib (p : ProxyHandler) env script (r : Request)
    (rule : TransitRule) (client : http_Client) :
  gomap_get (TransitMap (config p)) (strip_port (req_Host r)) = Some rule ->
  Proxy.getClientForDomain lib p (BackendBase rule) = Some client ->
  failure_policy lib env script r (fst (buildTransitBackendURL rule r)) client
    (Proxy.processHeaders lib r rule)
    (Proxy.ServeHTTP lib p env (start script) r).
Proof.
  intros Hget Hc. unfold failure_policy, Proxy.ServeHTTP, Proxy.forwardRequest.
  set (url := fst (buildTransitBackendURL rule r)).
  rewrite Hget, (buildTransitBackendURL_eta rule r). fold url.
  split; [|split; [|split; [|split; [|split]]]].
  - intros e ->. by apply finish_surfaced.
  - intros body e -> ->. by apply finish_surfaced.
  - intros body e -> -> Hdo. rewrite Hc.
    match goal with |- context [dispatch ?e ?c ?q ?t ?s] =>
      destruct (dispatch_failures e c q t s script) as (H1 & _ & _); [done..|] end.
    destruct (H1 _ Hdo) as (t & s' & -> & ? & ? & ? & ?). by apply finish_surfaced.
  - intros body resp e -> -> Hdo Hbody. rewrite Hc.
    match goal with |- context [dispatch ?e ?c ?q ?t ?s] =>
      destruct (dispatch_failures e c q t s script) as (_ & H2 & _); [done..|] end.
    destruct (H2 _ _ Hdo Hbody) as (t & s' & -> & ? & ? & ? & ?).
    by apply finish_surfaced.
  - intros body resp rspBody e rest -> -> Hdo Hbody Hcode Hscript. rewrite Hc.
    match goal with |- context [dispatch ?e ?c ?q ?t ?s] =>
      destruct (dispatch_failures e c q t s script) as (_ & _ & H3 & _); [done..|] end.
    destruct (H3 _ _ _ _ Hdo Hbody Hcode Hscript) as (t & s' & -> & ? & ? & ? & ?).
    by apply finish_committed.
  - intros body resp rspBody e rest -> -> Hdo Hbody Hcode Hscript. rewrite Hc.
    match goal with |- context [dispatch ?e ?c ?q ?t ?s] =>
      destruct (dispatch_failures e c q t s script) as (_ & _ & _ & H4); [done..|] end.
    destruct (H4 _ _ _ _ Hdo Hbody Hcode Hscript) as (t & s' & -> & ? & ? & ? & ?).
    by apply finish_committed.
Qed.

Lemma dispatch_count env client req trace (s : St) :
  count_events is_dispatch (state_of (dispatch env client req trace s))
  = S (count_events is_dispatch s).
Proof.
  unfold dispatch, count_events.
  assert (length (List.filter is_dispatch (st_events (emit s (EvDo client req))))
          = S (length (List.filter is_dispatch (st_events s)))) as Hd.
  { simpl. rewrite filter_snoc_true, length_app by done. simpl. lia. }
  destruct (client_Do env client req) as [resp|err]; simpl; [|exact Hd].
  destruct (resp_Body resp) as [body|err]; simpl; [|exact Hd].
  destruct (WriteHeader _ _) as [w0|]; simpl; [|exact Hd].
  destruct (Write w0 body) as [w [e|]]; simpl; exact Hd.
Qed.

Lemma finish_count env trace (s : St) :
  count_events is_dispatch (final_state (finish env trace s))
  = count_events is_dispatch s.
Proof.
  unfold finish, count_events. simpl.
  destruct (Error trace); [rewrite reply_error_events|]; simpl;
    by rewrite !filter_snoc_false.
Qed.

(** C4, as stated, fails for the response write error: the status of the
    backend is already sent when the write fails, and the client does not
    get a 500.  Here the backend answers 200 and the write of the body
    breaks. *)
Lemma C4_write_failure_keeps_status :
  (committed
     (Part000.ServeHTTP demo_lib (Part000.NewProxyHandler c5_config) env_ok
        (start [Some "broken pipe"]) c5_request)
     "写入响应体失败: broken pipe" 200
   /\ ~ surfaced
        (Part000.ServeHTTP demo_lib (Part000.NewProxyHandler c5_config) env_ok
           (start [Some "broken pipe"]) c5_request)
        [Some "broken pipe"] "写入响应体失败: broken pipe" 1)
  /\ (committed
        (Proxy.ServeHTTP demo_lib (Proxy.NewProxyHandler demo_lib c5_config) env_ok
           (start [Some "broken pipe"]) c5_request)
        "写入响应体失败: broken pipe" 200
      /\ ~ surfaced
           (Proxy.ServeHTTP demo_lib (Proxy.NewProxyHandler demo_lib c5_config) env_ok
              (start [Some "broken pipe"]) c5_request)
           [Some "broken pipe"] "写入响应体失败: broken pipe" 1).
Proof.
  split; split.
  - eexists _, _. split; [vm_compute; reflexivity|]. by vm_compute.
  - intros (s & t & Hd & _ & _ & _ & _ & Hst & _).
    vm_compute in Hd. injection Hd as <-. vm_compute in Hst. discriminate.
  - eexists _, _. split; [vm_compute; reflexivity|]. by vm_compute.
  - intros (s & t & Hd & _ & _ & _ & _ & Hst & _).
    vm_compute in Hd. injection Hd as <-. vm_compute in Hst. discriminate.
Qed.

(** C4, amended.  In both variants, for a request whose route and client
    are found: a body read error, a request construction error, a dispatch
    error and a response-body read error are each recorded on the trace as
    one error (a fixed prefix and the cause), the trace is given to the
    logger once, [client.Do] is called at most once, and the client gets
    status 500 with the error text and a newline as the body; for a
    response write error the trace records the error in the same way, but
    the status sent stays the one of the backend (the 200 that [Write]
    sends first, when [WriteHeader] sent the code of the backend as an
    informational response; a code that [WriteHeader] refuses leaves no
    write to fail).  No run calls [client.Do] more than once. *)
Theorem C4_failure_policy :
  (forall lib (p : ProxyHandler) env script (r : Request) (rule : TransitRule)
          (client : http_Client),
     gomap_get (TransitMap (config p)) (strip_port (req_Host r)) = Some rule ->
     clients p !! strip_port (req_Host r) = Some client ->
     failure_policy lib env script r (fst (buildTransitBackendURL rule r)) client
       (Part000.processHeaders lib r rule)
       (Part000.ServeHTTP lib p env (start script) r))
  /\ (forall lib (p : ProxyHandler) env script (r : Request) (rule : TransitRule)
             (client : http_Client),
        gomap_get (TransitMap (config p)) (strip_port (req_Host r)) = Some rule ->
        Proxy.getClientForDomain lib p (BackendBase rule) = Some client ->
        failure_policy lib env script r (fst (buildTransitBackendURL rule r)) client
          (Proxy.processHeaders lib r rule)
          (Proxy.ServeHTTP lib p env (start script) r))
  /\ (forall lib (p : ProxyHandler) env script (r : Request),
        count_events is_dispatch
          (final_state (Part000.ServeHTTP lib p env (start script) r)) <= 1
        /\ count_events is_dispatch
             (final_state (Proxy.ServeHTTP lib p env (start script) r)) <= 1).
Proof.
  split; [|split].
  - apply Part000_failure_policy.
  - apply Proxy_failure_policy.
  - intros lib p env script r. split.
    + unfold Part000.ServeHTTP, Part000.forwardRequest.
      destruct (gomap_get _ _) as [rule|]; [|rewrite finish_count; vm_compute; lia].
      destruct (clients p !! _) as [client|]; [|rewrite finish_count; vm_compute; lia].
      rewrite (buildTransitBackendURL_eta rule r).
      destruct (req_Body r) as [body|err]; [|rewrite finish_count; vm_compute; lia].
      destruct (http_NewRequest lib _ _); [rewrite finish_count; vm_compute; lia|].
      match goal with |- context [dispatch ?e ?c ?q ?t ?s] =>
        pose proof (dispatch_count e c q t s) as Hd;
        destruct (dispatch e c q t s) as [t' s'|s'] end; simpl in *.
      * rewrite finish_count, Hd. by vm_compute.
      * rewrite Hd. by vm_compute.
    + unfold Proxy.ServeHTTP, Proxy.forwardRequest.
      destruct (gomap_get _ _) as [rule|];
        [|unfold count_events; rewrite reply_error_events; vm_compute; lia].
      rewrite (buildTransitBackendURL_eta rule r).
      destruct (req_Body r) as [body|err]; [|rewrite finish_count; vm_compute; lia].
      destruct (http_NewRequest lib _ _); [rewrite finish_count; vm_compute; lia|].
      destruct (Proxy.getClientForDomain lib p _) as [client|]; [|by vm_compute; lia].
      match goal with |- context [dispatch ?e ?c ?q ?t ?s] =>
        pose proof (dispatch_count e c q t s) as Hd;
        destruct (dispatch e c q t s) as [t' s'|s'] end; simpl in *.
      * rewrite finish_count, Hd. by vm_compute.
      * rewrite Hd. by vm_compute.
Qed.

Lemma C4_failure_policy_witness :
  surfaced
    (Part000.ServeHTTP demo_lib (Part000.NewProxyHandler c5_config) env_refused
       (start []) c5_request)
    [] "转发请求失败: connection refused" 1
  /\ surfaced
       (Proxy.ServeHTTP demo_lib (Proxy.NewProxyHandler demo_lib c5_config) env_refused
          (start []) c5_request)
       [] "转发请求失败: connection refused" 1.
Proof.
  destruct C4_failure_policy as (Hpart & Hproxy & _).
  split.
  - destruct (Hpart demo_lib (Part000.NewProxyHandler c5_config) env_refused []
                c5_request (plain_rule "http://backend:9000")
                {| client_id := 0; client_Dial := SystemDialer |})
      as (_ & _ & Hdo & _).
    { vm_compute. reflexivity. }
    { vm_compute. reflexivity. }
    apply (Hdo EmptyString "connection refused"); reflexivity.
  - destruct (Hproxy demo_lib (Proxy.NewProxyHandler demo_lib c5_config) env_refused []
                c5_request (plain_rule "http://backend:9000")
                {| client_id := 0; client_Dial := SystemDialer |})
      as (_ & _ & Hdo & _).
    { vm_compute. reflexivity. }
    { vm_compute. reflexivity. }
    apply (Hdo EmptyString "connection refused"); reflexivity.
Defined.

(** ** The rendering of a trace *)

(** On a string of ASCII bytes [strings.ToLower] is the byte-wise loop. *)
Lemma ToLower_ASCII_eq lib (s : string) :
  all_bytes is_ASCII s = true -> ToLower lib s = ToLower_ASCII s.
Proof. intros Hs. unfold ToLower. by rewrite Hs. Qed.

Lemma substring_ToLower (s : string) (n m : nat) :
  String.substring n m (ToLower_ASCII s) = ToLower_ASCII (String.substring n m s).
Proof.
  revert n m. induction s as [|c s IH]; intros [|n] [|m]; simpl; try reflexivity.
  - by rewrite IH.
  - apply IH.
  - apply IH.
Qed.

(** The tests of [String] lower the header value first: a value of ASCII
    bytes that contains the lower-case text as it is passes them. *)
Lemma Contains_ToLower lib (s substr : string) :
  all_bytes is_ASCII s = true ->
  substr <> EmptyString -> ToLower_ASCII substr = substr ->
  Contains s substr = true -> Contains (ToLower lib s) substr = true.
Proof.
  intros Hascii Hne Hfix. rewrite ToLower_ASCII_eq by done. unfold Contains, Index.
  destruct (String.index 0 substr s) as [n|] eqn:Hs; [intros _|discriminate].
  apply String.index_correct1 in Hs.
  destruct (String.index 0 substr (ToLower_ASCII s)) as [n'|] eqn:Hl; [reflexivity|].
  exfalso. apply (String.index_correct3 0 n substr (ToLower_ASCII s) Hl Hne); [lia|].
  by rewrite substring_ToLower, Hs.
Qed.

Lemma is_textual_literal lib (contentType : string) :
  all_bytes is_ASCII contentType = true ->
  Contains contentType "application/json" = true
  \/ Contains contentType "application/x-www-form-urlencoded" = true
  \/ Contains contentType "text/" = true ->
  is_textual lib contentType = true.
Proof.
  unfold is_textual. intros Hascii [H|[H|H]];
    apply (Contains_ToLower lib) in H; try done; rewrite H;
    by rewrite ?orb_true_r.
Qed.

Lemma body_string_gzip lib (h : http_Header) (stored : string) :
  is_textual lib (Header_Get h "Content-Type") = true ->
  Contains (ToLower lib (Header_Get h "Content-Encoding")) "gzip" = true ->
  (forall P, decompress lib stored = Some P -> body_string lib h stored = P)
  /\ (decompress lib stored = None ->
      body_string lib h stored
      = "[gzip " +:+ Header_Get h "Content-Type" +:+ " " +:+
        humanize_IBytes lib (String.length stored) +:+ "]").
Proof.
  intros Htext Hgzip. unfold body_string. rewrite Htext, Hgzip.
  split; [intros P ->|intros ->]; reflexivity.
Qed.

(** C7. For a trace whose request content type is JSON, form-encoded or
    [text/] and whose request content encoding names gzip: when the stored
    request body inflates to [P], the request-body segment is exactly [P],
    in particular when the body is the output for [P] of a compressor that
    the reader inverts; when the stored body does not inflate, the segment
    is the placeholder [[gzip <type> <human-size>]] with the stored size.
    The same holds for the response body against the response headers.
    The tests on the two header values ignore letter case, so a value that
    contains the text as written passes them; for a value of ASCII bytes
    this needs nothing of package [unicode]. *)
Theorem C7_gzip_rendering :
  (forall lib (p : ProxyTrace),
    (is_textual lib (Header_Get (RequestHeaders p) "Content-Type") = true ->
     Contains (ToLower lib (Header_Get (RequestHeaders p) "Content-Encoding")) "gzip" = true ->
     (forall P, decompress lib (RequestBody p) = Some P ->
        segment_content lib p SegRequestBody = P)
     /\ (forall (compress : string -> string) P,
           (forall x, gzip_ReadAll lib (compress x) = Some x) ->
           RequestBody p = compress P ->
           segment_content lib p SegRequestBody = P)
     /\ (decompress lib (RequestBody p) = None ->
         segment_content lib p SegRequestBody
         = "[gzip " +:+ Header_Get (RequestHeaders p) "Content-Type" +:+ " " +:+
           humanize_IBytes lib (String.length (RequestBody p)) +:+ "]"))
    /\ (is_textual lib (Header_Get (ResponseHeaders p) "Content-Type") = true ->
        Contains (ToLower lib (Header_Get (ResponseHeaders p) "Content-Encoding")) "gzip" = true ->
        (forall P, decompress lib (ResponseBody p) = Some P ->
           segment_content lib p SegResponseBody = P)
        /\ (forall (compress : string -> string) P,
              (forall x, gzip_ReadAll lib (compress x) = Some x) ->
              ResponseBody p = compress P ->
              segment_content lib p SegResponseBody = P)
        /\ (decompress lib (ResponseBody p) = None ->
            segment_content lib p SegResponseBody
            = "[gzip " +:+ Header_Get (ResponseHeaders p) "Content-Type" +:+ " " +:+
              humanize_IBytes lib (String.length (ResponseBody p)) +:+ "]")))
  /\ (forall lib contentType,
        all_bytes is_ASCII contentType = true ->
        Contains contentType "application/json" = true
        \/ Contains contentType "application/x-www-form-urlencoded" = true
        \/ Contains contentType "text/" = true ->
        is_textual lib contentType = true)
  /\ (forall lib contentEncoding,
        all_bytes is_ASCII contentEncoding = true ->
        Contains contentEncoding "gzip" = true ->
        Contains (ToLower lib contentEncoding) "gzip" = true).
Proof.
  split; [|split; [apply is_textual_literal|]].
  - intros lib p. split; intros Htext Hgzip; simpl segment_content;
      unfold reqBodyString, rspBodyString.
    + destruct (body_string_gzip lib (RequestHeaders p) (RequestBody p) Htext Hgzip)
        as [Hok Hbad].
      split; [exact Hok|]. split; [|exact Hbad].
      intros compress P Hinv Hbody. apply Hok. unfold decompress. by rewrite Hbody.
    + destruct (body_string_gzip lib (ResponseHeaders p) (ResponseBody p) Htext Hgzip)
        as [Hok Hbad].
      split; [exact Hok|]. split; [|exact Hbad].
      intros compress P Hinv Hbody. apply Hok. unfold decompress. by rewrite Hbody.
  - intros lib contentEncoding Hascii. by apply Contains_ToLower.
Qed.

Lemma C7_gzip_rendering_witness :
  segment_content demo_lib gzip_trace SegRequestBody = "{key:value}"
  /\ segment_content demo_lib gzip_trace SegResponseBody
     = "[gzip application/json 7 B]".
Proof.
  destruct C7_gzip_rendering as (Hrender & Htext & Hgzip).
  destruct (Hrender demo_lib gzip_trace) as [Hreq Hrsp].
  split.
  - destruct Hreq as (Hok & _ & _).
    { apply Htext; [reflexivity|]. left. vm_compute. reflexivity. }
    { apply Hgzip; [reflexivity|]. vm_compute. reflexivity. }
    apply Hok. vm_compute. reflexivity.
  - destruct Hrsp as (_ & _ & Hbad).
    { apply Htext; [reflexivity|]. left. vm_compute. reflexivity. }
    { apply Hgzip; [reflexivity|]. vm_compute. reflexivity. }
    rewrite Hbad by (vm_compute; reflexivity). vm_compute. reflexivity.
Defined.

Lemma eqb_empty (s : string) : String.eqb s EmptyString = negb (nonempty s).
Proof. by destruct s. Qed.

Lemma ProxyTrace_String_refines lib (p : ProxyTrace) :
  ProxyTrace_String lib p = render_spec lib p.
Proof.
  unfold ProxyTrace_String, render_spec, rendered_segments, all_segments, segment_omitted.
  simpl. rewrite !eqb_empty.
  destruct (nonempty (header_string (RequestHeaders p)));
    destruct (nonempty (header_string (TransitHeaders p)));
    destruct (String.eqb (header_string (TransitHeaders p))
                (header_string (RequestHeaders p)));
    destruct (nonempty (reqBodyString lib p));
    destruct (nonempty (header_string (ResponseHeaders p)));
    destruct (nonempty (rspBodyString lib p)); reflexivity.
Qed.

Lemma rendered_segments_spec lib (p : ProxyTrace) (k : SegmentKind) :
  k ∈ rendered_segments lib p <-> segment_omitted lib p k = false.
Proof.
  unfold rendered_segments. rewrite list_elem_of_In, List.filter_In.
  rewrite negb_true_iff. split; [by intros [_ ?]|]. intros Hk. split; [|done].
  destruct k; simpl; tauto.
Qed.

(** C8. The rendered line is the first line followed by the segments that
    are kept, in their fixed order; a segment is left out exactly when its
    content is the empty string or, for the transit headers, when their
    text is the text of the request headers; with nothing kept the line is
    the first line. *)
Theorem C8_segments_omitted :
  forall lib (p : ProxyTrace),
    ProxyTrace_String lib p = render_spec lib p
    /\ (forall k, segment_content lib p k = EmptyString -> k ∉ rendered_segments lib p)
    /\ (segment_content lib p SegTransitHeaders = segment_content lib p SegRequestHeaders ->
        SegTransitHeaders ∉ rendered_segments lib p)
    /\ (forall k, k ∈ rendered_segments lib p <->
          segment_content lib p k <> EmptyString
          /\ (k = SegTransitHeaders ->
              segment_content lib p SegTransitHeaders
              <> segment_content lib p SegRequestHeaders))
    /\ ((forall k, segment_content lib p k = EmptyString) ->
        ProxyTrace_String lib p = first_line lib p).
Proof.
  intros lib p.
  assert (forall k, k ∈ rendered_segments lib p <->
            segment_content lib p k <> EmptyString
            /\ (k = SegTransitHeaders ->
                segment_content lib p SegTransitHeaders
                <> segment_content lib p SegRequestHeaders)) as Hin.
  { intros k. rewrite rendered_segments_spec. unfold segment_omitted.
    rewrite orb_false_iff, String.eqb_neq. split.
    - intros [Hne Hk]. split; [done|]. intros ->. by apply String.eqb_neq.
    - intros [Hne Hk]. split; [done|].
      destruct k; try reflexivity. apply String.eqb_neq. by apply Hk. }
  split; [apply ProxyTrace_String_refines|]. split; [|split; [|split]].
  - intros k Hk Hin'. apply Hin in Hin' as [Hne _]. done.
  - intros Heq Hin'. apply Hin in Hin' as [_ Hne]. by apply Hne.
  - exact Hin.
  - intros Hall. rewrite ProxyTrace_String_refines. unfold render_spec.
    destruct (rendered_segments lib p) as [|k l]; [reflexivity|].
    exfalso. destruct (proj1 (Hin k)) as [Hne _]; [by left|]. by apply Hne.
Qed.

Lemma C8_segments_omitted_witness :
  (SegTransitHeaders ∉ rendered_segments demo_lib gzip_trace)
  /\ (SegRequestBody ∈ rendered_segments demo_lib gzip_trace <->
      segment_content demo_lib gzip_trace SegRequestBody <> EmptyString
      /\ (SegRequestBody = SegTransitHeaders ->
          segment_content demo_lib gzip_trace SegTransitHeaders
          <> segment_content demo_lib gzip_trace SegRequestHeaders)).
Proof.
  destruct (C8_segments_omitted demo_lib gzip_trace) as (_ & _ & Hsame & Hin & _).
  split.
  - apply Hsame. vm_compute. reflexivity.
  - apply Hin.
Defined.

(** * More properties of the code *)

#[local] Arguments Ascii.eqb : simpl never.

(** ** Strings *)

Lemma prefix_nil (s : string) : String.prefix EmptyString s = true.
Proof. by destruct s. Qed.

Lemma prefix_cons (a b : ascii) (p s : string) :
  String.prefix (String a p) (String b s)
  = if Ascii.eqb a b then String.prefix p s else false.
Proof.
  change (String.prefix (String a p) (String b s))
    with (if ascii_dec a b then String.prefix p s else false).
  destruct (ascii_dec a b) as [->|Hne].
  - by rewrite Ascii.eqb_refl.
  - by apply Ascii.eqb_neq in Hne as ->.
Qed.

Lemma HasPrefix_app (a b p : string) :
  HasPrefix a p = true -> HasPrefix (a +:+ b) p = true.
Proof.
  unfold HasPrefix. revert a. induction p as [|c p IH]; intros a.
  - intros _. apply prefix_nil.
  - destruct a as [|d a]; [discriminate|].
    change (String d a +:+ b) with (String d (a +:+ b)).
    rewrite !prefix_cons. destruct (Ascii.eqb c d); [apply IH|done].
Qed.

Lemma HasPrefix_self_app (p b : string) : HasPrefix (p +:+ b) p = true.
Proof.
  unfold HasPrefix. induction p as [|c p IH]; [apply prefix_nil|].
  change (String c p +:+ b) with (String c (p +:+ b)).
  by rewrite prefix_cons, Ascii.eqb_refl.
Qed.

(** ** [buildTransitBackendURL] and [ServeHTTP]'s routing key *)

(** X1. Whatever the rule and the request, the URL that
    [buildTransitBackendURL] returns is a base that starts with [http://]
    or [https://] followed by a path that starts with [/]. *)
Theorem X1_url_has_scheme_and_rooted_path :
  forall (rule : TransitRule) (r : Request),
    exists base path,
      fst (buildTransitBackendURL rule r) = base +:+ path
      /\ (HasPrefix base "http://" = true \/ HasPrefix base "https://" = true)
      /\ HasPrefix path "/" = true
      /\ (HasPrefix (fst (buildTransitBackendURL rule r)) "http://" = true
          \/ HasPrefix (fst (buildTransitBackendURL rule r)) "https://" = true).
Proof.
  intros rule r. unfold buildTransitBackendURL. simpl fst.
  set (b := TrimSuffix (BackendBase rule) "/").
  set (p := if nonempty _ then _ else _).
  set (base := if negb (HasPrefix b "http://") && negb (HasPrefix b "https://")
               then "http://" +:+ b else b).
  set (path := if negb (HasPrefix p "/") then "/" +:+ p else p).
  assert (HasPrefix base "http://" = true \/ HasPrefix base "https://" = true) as Hbase.
  { unfold base. destruct (HasPrefix b "http://") eqn:H1; [by left|].
    destruct (HasPrefix b "https://") eqn:H2; [by right|].
    left. apply HasPrefix_self_app. }
  exists base, path. split; [reflexivity|]. split; [exact Hbase|]. split.
  - unfold path. destruct (HasPrefix p "/") eqn:Hp; [exact Hp|].
    apply (HasPrefix_self_app "/" p).
  - destruct Hbase as [H|H]; [left|right]; by apply HasPrefix_app.
Qed.

Lemma strip_port_before_colon (host : string) : strip_port host = before_colon host.
Proof.
  unfold strip_port, Index.
  assert (forall s, match String.index 0 ":" s with
                    | Some idx => String.substring 0 idx s = before_colon s
                                  /\ s <> EmptyString
                    | None => before_colon s = s
                    end) as H.
  { induction s as [|c s IH]; [reflexivity|].
    change (String.index 0 ":" (String c s))
      with (if String.prefix ":" (String c s) then Some 0
            else match String.index 0 ":" s with
                 | Some n => Some (S n)
                 | None => None
                 end).
    rewrite prefix_cons, prefix_nil. simpl before_colon.
    destruct (Ascii.eqb ":"%char c); [by simpl|].
    destruct (String.index 0 ":" s) as [n|].
    - destruct IH as [IH _]. simpl. by rewrite IH.
    - by rewrite IH. }
  specialize (H host). destruct (String.index 0 ":" host); [by destruct H|done].
Qed.

Lemma before_from_colon (host : string) : host = before_colon host +:+ from_colon host.
Proof.
  induction host as [|c s IH]; [reflexivity|]. simpl.
  destruct (Ascii.eqb ":"%char c); [reflexivity|].
  change (String c (before_colon s) +:+ from_colon s)
    with (String c (before_colon s +:+ from_colon s)).
  by rewrite <- IH.
Qed.

Lemma from_colon_shape (host : string) :
  from_colon host = EmptyString \/ HasPrefix (from_colon host) ":" = true.
Proof.
  induction host as [|c s IH]; [by left|]. simpl.
  destruct (Ascii.eqb ":"%char c) eqn:Hc; [|exact IH].
  right. unfold HasPrefix. by rewrite prefix_cons, Hc, prefix_nil.
Qed.

Lemma before_colon_no_colon (host : string) : Contains (before_colon host) ":" = false.
Proof.
  unfold Contains, Index. induction host as [|c s IH]; [reflexivity|]. simpl.
  destruct (Ascii.eqb ":"%char c) eqn:Hc; [reflexivity|].
  change (String.index 0 ":" (String c (before_colon s)))
    with (if String.prefix ":" (String c (before_colon s)) then Some 0
          else match String.index 0 ":" (before_colon s) with
               | Some n => Some (S n)
               | None => None
               end).
  rewrite prefix_cons, Hc.
  by destruct (String.index 0 ":" (before_colon s)).
Qed.

Lemma before_colon_idem (host : string) :
  before_colon (before_colon host) = before_colon host.
Proof.
  induction host as [|c s IH]; [reflexivity|]. simpl.
  destruct (Ascii.eqb ":"%char c) eqn:Hc; [reflexivity|].
  simpl. by rewrite Hc, IH.
Qed.

(** X2. The routing key that [ServeHTTP] takes from [r.Host] is the host
    up to its first colon: the host is the key followed by nothing or by a
    rest that starts with a colon, the key holds no colon, and stripping it
    again changes nothing. *)
Theorem X2_routing_key :
  forall (host : string),
    (exists rest,
       host = strip_port host +:+ rest
       /\ (rest = EmptyString \/ HasPrefix rest ":" = true))
    /\ Contains (strip_port host) ":" = false
    /\ strip_port (strip_port host) = strip_port host.
Proof.
  intros host. rewrite !strip_port_before_colon. split; [|split].
  - exists (from_colon host). split; [apply before_from_colon|apply from_colon_shape].
  - apply before_colon_no_colon.
  - apply before_colon_idem.
Qed.

(** ** [LoadConfig] *)

Lemma LoadConfig_with_fields body (decoded : Config) :
  TransitMap (LoadConfig_with body decoded) = TransitMap decoded
  /\ Log (LoadConfig_with body decoded) = Log decoded
  /\ Public (Server (LoadConfig_with body decoded)) = Public (Server decoded)
  /\ Port (Server (LoadConfig_with body decoded))
     = (if (Port (Server decoded) =? 0)%Z then 8080%Z else Port (Server decoded)).
Proof.
  split; [apply LoadConfig_with_TransitMap|]. unfold LoadConfig_with. simpl.
  by destruct (Port (Server decoded) =? 0)%Z.
Qed.

Lemma LoadConfig_with_idem body (decoded : Config) :
  LoadConfig_with body (LoadConfig_with body decoded) = LoadConfig_with body decoded.
Proof.
  unfold LoadConfig_with. simpl. rewrite !range_by_value_id.
  destruct (Port (Server decoded) =? 0)%Z eqn:Hp; simpl; [reflexivity|].
  rewrite Hp. reflexivity.
Qed.

(** X3. Both versions of [LoadConfig] return the decoded configuration
    with one change at most: a port 0 becomes 8080.  The route table is
    the decoded one, rule by rule (the scheme that the loop puts in front
    of a scheme-less [backend_base] in the second version is not kept, nor
    is the removal set), the port of the result is never 0, and loading
    the result again changes nothing. *)
Theorem X3_LoadConfig_changes_port_only :
  forall lib (decoded : Config),
    (TransitMap (LoadConfig lib decoded) = TransitMap decoded
     /\ Log (LoadConfig lib decoded) = Log decoded
     /\ Public (Server (LoadConfig lib decoded)) = Public (Server decoded)
     /\ Port (Server (LoadConfig lib decoded))
        = (if (Port (Server decoded) =? 0)%Z then 8080%Z else Port (Server decoded))
     /\ Port (Server (LoadConfig lib decoded)) <> 0%Z
     /\ LoadConfig lib (LoadConfig lib decoded) = LoadConfig lib decoded)
    /\ (TransitMap (LoadConfig' lib decoded) = TransitMap decoded
        /\ Log (LoadConfig' lib decoded) = Log decoded
        /\ Public (Server (LoadConfig' lib decoded)) = Public (Server decoded)
        /\ Port (Server (LoadConfig' lib decoded))
           = (if (Port (Server decoded) =? 0)%Z then 8080%Z else Port (Server decoded))
        /\ Port (Server (LoadConfig' lib decoded)) <> 0%Z
        /\ LoadConfig' lib (LoadConfig' lib decoded) = LoadConfig' lib decoded).
Proof.
  intros lib decoded.
  assert (forall body,
            Port (Server (LoadConfig_with body decoded)) <> 0%Z) as Hport.
  { intros body. destruct (LoadConfig_with_fields body decoded) as (_ & _ & _ & ->).
    destruct (Port (Server decoded) =? 0)%Z eqn:Hp; [done|]. by apply Z.eqb_neq. }
  split.
  - destruct (LoadConfig_with_fields (LoadConfig_body lib) decoded) as (H1 & H2 & H3 & H4).
    repeat split; try done; [apply Hport|apply LoadConfig_with_idem].
  - destruct (LoadConfig_with_fields (LoadConfig_body' lib) decoded) as (H1 & H2 & H3 & H4).
    repeat split; try done; [apply Hport|apply LoadConfig_with_idem].
Qed.

(** X4. After [LoadConfig] a removal list has no effect: for every
    configuration as the decoder produces it and every rule of the loaded
    route table with [forward_client] true, an inbound header whose first
    value is not empty and that [set] does not name is in the outbound set
    with its inbound values, in [part_000], and in [src/proxy.go] unless it
    is [Host], whatever the rule's [remove] list holds. *)
Theorem X4_loaded_rules_remove_nothing :
  forall lib (decoded : Config) (host : string) (rule : TransitRule) (r : Request)
         (name v0 : string) (vs : list string),
    json_decoded decoded ->
    gomap_get (TransitMap (LoadConfig lib decoded)) host = Some rule
    \/ gomap_get (TransitMap (LoadConfig' lib decoded)) host = Some rule ->
    ForwardClient (Headers rule) = true ->
    req_Header r !! name = Some (v0 :: vs) ->
    v0 <> EmptyString ->
    Forall (fun kv => CanonicalMIMEHeaderKey kv.1 <> name) (Set_ (Headers rule)) ->
    Part000.processHeaders lib r rule !! name = Some (v0 :: vs)
    /\ (name <> "Host" ->
        Proxy.processHeaders lib r rule !! name = Some (v0 :: vs)).
Proof.
  intros lib decoded host rule r name v0 vs Hdec Hget Hfw Hin Hv Hset.
  assert (removes (Headers rule) = None) as Hrm.
  { destruct Hget as [Hget|Hget].
    - exact (LoadConfig_removes_nil (LoadConfig_body lib) decoded host rule Hdec Hget).
    - exact (LoadConfig_removes_nil (LoadConfig_body' lib) decoded host rule Hdec Hget). }
  assert (pipeline lib (req_Header r) (Headers rule) !! name = Some (v0 :: vs)) as Hp.
  { apply pipeline_forwarded_kept; try done. by rewrite Hrm. }
  split; [exact Hp|]. intros Hne. by rewrite Proxy_processHeaders_other.
Qed.

Lemma X4_loaded_rules_remove_nothing_witness :
  Part000.processHeaders demo_lib x_request x_rule !! "Cookie" = Some ["c=1"]
  /\ Proxy.processHeaders demo_lib x_request x_rule !! "Cookie" = Some ["c=1"].
Proof.
  destruct (X4_loaded_rules_remove_nothing demo_lib x_decoded "api.example.com" x_rule
              x_request "Cookie" "c=1" []) as [H1 H2].
  { repeat constructor. }
  { left. vm_compute. reflexivity. }
  { reflexivity. }
  { vm_compute. reflexivity. }
  { discriminate. }
  { repeat constructor. vm_compute. discriminate. }
  split; [exact H1|]. apply H2. discriminate.
Defined.

(** ** The pools *)

(** X5. In [src/proxy.go] a [backend_base] written without a scheme and
    the same base written with [http://] in front have the same pool key,
    so the routes that use them get the same client. *)
Theorem X5_scheme_less_base_same_pool :
  forall lib (p : ProxyHandler) (backendBase : string),
    HasPrefix backendBase "http://" = false ->
    HasPrefix backendBase "https://" = false ->
    Proxy.extractDomain lib ("http://" +:+ backendBase)
    = Proxy.extractDomain lib backendBase
    /\ Proxy.getClientForDomain lib p ("http://" +:+ backendBase)
       = Proxy.getClientForDomain lib p backendBase.
Proof.
  intros lib p b H1 H2.
  assert (Proxy.extractDomain lib ("http://" +:+ b) = Proxy.extractDomain lib b) as Heq.
  { unfold Proxy.extractDomain. rewrite H1, H2.
    by rewrite (HasPrefix_self_app "http://" b). }
  split; [exact Heq|]. unfold Proxy.getClientForDomain. by rewrite Heq.
Qed.

Lemma X5_scheme_less_base_same_pool_witness :
  Proxy.getClientForDomain demo_lib (Proxy.NewProxyHandler demo_lib c5_config)
    ("http://" +:+ "backend:9000")
  = Proxy.getClientForDomain demo_lib (Proxy.NewProxyHandler demo_lib c5_config)
      "backend:9000".
Proof.
  apply (X5_scheme_less_base_same_pool demo_lib
           (Proxy.NewProxyHandler demo_lib c5_config) "backend:9000");
    vm_compute; reflexivity.
Defined.

Lemma Part000_pool_other (l : gomap TransitRule) (m : gmap string http_Client) (n : nat)
    (k : string) :
  k ∉ l.*1 -> (foldl Part000.pool_step (m, n) l).1 !! k = m !! k.
Proof.
  revert m n. induction l as [|[k0 rule] l IH]; intros m n Hk; [done|].
  simpl in Hk. apply not_elem_of_cons in Hk as [Hne Hk].
  simpl. rewrite IH by done. by rewrite lookup_insert_ne.
Qed.

Lemma Part000_pool_dialer (l : gomap TransitRule) (m : gmap string http_Client) (n : nat)
    (host : string) (rule : TransitRule) :
  NoDup l.*1 -> (host, rule) ∈ l ->
  exists c, (foldl Part000.pool_step (m, n) l).1 !! host = Some c
            /\ client_Dial c = Part000.dialer_of rule.
Proof.
  revert m n. induction l as [|[k0 r0] l IH]; intros m n Hnd Hin.
  - by apply elem_of_nil in Hin.
  - simpl in Hnd. apply NoDup_cons in Hnd as [Hfresh Hnd].
    apply elem_of_cons in Hin as [[= -> ->]|Hin]; simpl.
    + rewrite Part000_pool_other by done. rewrite lookup_insert_eq. by eexists.
    + by apply IH.
Qed.

(** X6. In [part_000] the pool map has a client for the hostnames of the
    route table and for nothing else; with one dial strategy per rule: the
    pinned IP when [resolve.ip] is set, whatever [resolve.dns] holds, the
    named DNS server when only [resolve.dns] is set, the system's
    otherwise. *)
Theorem X6_part000_pool_per_route :
  forall (cfg : Config),
    (forall k, is_Some (clients (Part000.NewProxyHandler cfg) !! k)
               <-> k ∈ (TransitMap cfg).*1)
    /\ (NoDup (TransitMap cfg).*1 ->
        forall host rule,
          gomap_get (TransitMap cfg) host = Some rule ->
          exists c,
            clients (Part000.NewProxyHandler cfg) !! host = Some c
            /\ client_Dial c
               = (if nonempty (IP (Resolve rule)) then IPDialer (IP (Resolve rule))
                  else if nonempty (DNS (Resolve rule)) then DNSDialer (DNS (Resolve rule))
                  else SystemDialer)).
Proof.
  intros cfg. split.
  - intros k. unfold Part000.NewProxyHandler, Part000.initializeClientPools. simpl.
    rewrite Part000_pool_keys. split; [|by right].
    intros [[c Hc]|Hk]; [by rewrite lookup_empty in Hc|done].
  - intros Hnd host rule Hget. apply gomap_get_elem in Hget.
    unfold Part000.NewProxyHandler, Part000.initializeClientPools. simpl.
    by apply Part000_pool_dialer.
Qed.

Lemma X6_part000_pool_per_route_witness :
  exists c,
    clients (Part000.NewProxyHandler x_decoded) !! "api.example.com" = Some c
    /\ client_Dial c = IPDialer "10.0.0.7".
Proof.
  destruct (X6_part000_pool_per_route x_decoded) as [_ Hdial].
  assert (NoDup (TransitMap x_decoded).*1) as Hnd.
  { vm_compute. apply NoDup_cons. split; [|apply NoDup_singleton].
    intros Hin. apply list_elem_of_singleton in Hin. discriminate. }
  destruct (Hdial Hnd "api.example.com" x_rule) as (c & Hc & Hd).
  { vm_compute. reflexivity. }
  exists c. split; [exact Hc|]. rewrite Hd. vm_compute. reflexivity.
Defined.

(** X7. The description of a rule's resolution that [ResolveConfig.String]
    gives, and that [LoadConfig] logs, names the strategy that the pool of
    [part_000] uses for the rule: [IP: <ip>] for the pinned IP, [DNS:
    <server>] for the DNS server, the empty string for the system's. *)
Theorem X7_resolve_description_matches_dialer :
  forall (rule : TransitRule),
    ResolveConfig_String (Resolve rule)
    = match Part000.dialer_of rule with
      | SystemDialer => EmptyString
      | IPDialer ip => "IP: " +:+ ip
      | DNSDialer dnsServer => "DNS: " +:+ dnsServer
      end.
Proof.
  intros rule. unfold ResolveConfig_String, Part000.dialer_of.
  destruct (nonempty (IP (Resolve rule))); [reflexivity|].
  by destruct (nonempty (DNS (Resolve rule))).
Qed.

Section MoreProxyPools.
Context (lib : Lib).

Lemma Proxy_pool_system (l : gomap TransitRule) acc :
  (forall k c, acc.1 !! k = Some c -> client_Dial c = SystemDialer) ->
  forall k c, (foldl (Proxy.pool_step lib) acc l).1 !! k = Some c ->
              client_Dial c = SystemDialer.
Proof.
  revert acc. induction l as [|kv l IH]; intros [m n] Hacc; [exact Hacc|].
  simpl. apply IH. destruct (m !! BackendBase kv.2); [exact Hacc|]. simpl.
  intros k c. destruct (decide (Proxy.extractDomain lib (BackendBase kv.2) = k)) as [<-|Hne].
  - rewrite lookup_insert_eq. by intros [= <-].
  - rewrite lookup_insert_ne by done. apply Hacc.
Qed.

Lemma Proxy_pool_bounds (l : gomap TransitRule) acc :
  (foldl (Proxy.pool_step lib) acc l).2 <= acc.2 + length l
  /\ size (foldl (Proxy.pool_step lib) acc l).1 <= size acc.1 + length l.
Proof.
  revert acc. induction l as [|kv l IH]; intros [m n]; [simpl; lia|].
  simpl foldl. destruct (IH (Proxy.pool_step lib (m, n) kv)) as [H1 H2].
  simpl length. simpl in *. destruct (m !! BackendBase kv.2); simpl in *; [lia|].
  rewrite map_size_insert in H2.
  destruct (m !! Proxy.extractDomain lib (BackendBase kv.2)); simpl in H2; lia.
Qed.

End MoreProxyPools.

(** X8. In [src/proxy.go] every key of the pool map is the domain of a
    rule of the route table, every client dials with the system's
    resolver, its identity is below the number of routes, and there are at
    most as many clients as routes. *)
Theorem X8_proxy_pool_contents :
  forall lib (cfg : Config),
    (forall k, is_Some (clients (Proxy.NewProxyHandler lib cfg) !! k) ->
       exists kv, kv ∈ TransitMap cfg
                  /\ k = Proxy.extractDomain lib (BackendBase kv.2))
    /\ (forall k c, clients (Proxy.NewProxyHandler lib cfg) !! k = Some c ->
          client_Dial c = SystemDialer
          /\ client_id c < length (TransitMap cfg))
    /\ size (clients (Proxy.NewProxyHandler lib cfg)) <= length (TransitMap cfg).
Proof.
  intros lib cfg.
  unfold Proxy.NewProxyHandler, Proxy.initializeClientPools. simpl.
  split; [|split].
  - intros k Hk. apply Proxy_pool_keys in Hk as [[c Hc]|Hk]; [|done].
    simpl in Hc. by rewrite lookup_empty in Hc.
  - intros k c Hc. split.
    + eapply (Proxy_pool_system lib (TransitMap cfg) (∅, 0)); [|exact Hc].
      intros k' c'. simpl. by rewrite lookup_empty.
    + destruct (Proxy_pool_inv lib (TransitMap cfg) (∅, 0) pool_inv_empty) as [Hlt _].
      specialize (Hlt k c Hc).
      destruct (Proxy_pool_bounds lib (TransitMap cfg) (∅, 0)) as [Hn _].
      simpl in Hn. lia.
  - destruct (Proxy_pool_bounds lib (TransitMap cfg) (∅, 0)) as [_ Hs].
    simpl in Hs. rewrite map_size_empty in Hs. lia.
Qed.

(** X9. The presence test of [initializeClientPools] in [src/proxy.go]
    reads the key [rule.BackendBase], the store writes the key [domain]:
    when the domain of the first route visited is, letter for letter, the
    [backend_base] of the second, and that base has another domain, the
    second route is skipped and [getClientForDomain] has no client for
    it, so [forwardRequest] for that route calls [Do] through a nil
    client. *)
Theorem X9_presence_test_reads_other_key :
  forall lib (server : ServerConfig) (log : LogConfig) (host1 host2 : string)
         (rule1 rule2 : TransitRule),
    Proxy.extractDomain lib (BackendBase rule1) = BackendBase rule2 ->
    Proxy.extractDomain lib (BackendBase rule2) <> BackendBase rule2 ->
    let p := Proxy.NewProxyHandler lib
               {| Server := server; Log := log;
                  TransitMap := [(host1, rule1); (host2, rule2)] |} in
    Proxy.getClientForDomain lib p (BackendBase rule2) = None
    /\ forall env s r targetURL body,
         req_Body r = ReadOk body ->
         http_NewRequest lib (req_Method r) targetURL = None ->
         trace_of (Proxy.forwardRequest lib p env s r targetURL rule2) = None.
Proof.
  intros lib server log host1 host2 rule1 rule2 H1 H2 p.
  assert (Proxy.getClientForDomain lib p (BackendBase rule2) = None) as Hnone.
  { by apply Proxy_pool_skip. }
  split; [exact Hnone|].
  intros env s r targetURL body Hbody Hreq. unfold Proxy.forwardRequest.
  by rewrite Hbody, Hreq, Hnone.
Qed.

Lemma X9_presence_test_reads_other_key_witness :
  Proxy.getClientForDomain percent_lib
    (Proxy.NewProxyHandler percent_lib
       {| Server := Server c5_config; Log := Log c5_config;
          TransitMap := [("x.example.com", plain_rule "http://a%25b");
                         ("y.example.com", plain_rule "a%b")] |})
    "a%b" = None.
Proof.
  apply (X9_presence_test_reads_other_key percent_lib (Server c5_config) (Log c5_config)
           "x.example.com" "y.example.com" (plain_rule "http://a%25b") (plain_rule "a%b")).
  - vm_compute. reflexivity.
  - vm_compute. discriminate.
Defined.

(** ** The header pipeline, name by name *)

Lemma named_by_elem (l : gomap string) (c : string) :
  named_by l c <-> c ∈ canonical_names l.
Proof.
  unfold named_by, canonical_names. rewrite list_elem_of_fmap. split.
  - intros (kv & Hin & <-). by exists kv.
  - intros (kv & -> & Hin). by exists kv.
Qed.

Lemma not_named_Forall (l : gomap string) (c : string) :
  ~ named_by l c -> Forall (fun kv => CanonicalMIMEHeaderKey kv.1 <> c) l.
Proof.
  intros Hn. apply Forall_forall. intros kv Hin Heq. apply Hn. by exists kv.
Qed.

Section PipelineNames.
Context (lib : Lib).

Lemma stage1_lookup (inbound : http_Header) (hc : HeadersConfig) (c : string) :
  (if ForwardClient hc
   then foldl (forward_step lib (removes hc)) ∅ (map_to_list inbound)
   else ∅) !! c = forwarded lib inbound hc c.
Proof.
  unfold forwarded. destruct (ForwardClient hc); simpl; [|apply lookup_empty].
  rewrite forward_lookup. by destruct (removes_has _ _).
Qed.

Lemma first_value_nonempty (o : option (list string)) :
  first_value o <> EmptyString ->
  exists v0 vs, o = Some (v0 :: vs) /\ v0 <> EmptyString.
Proof. destruct o as [[|v0 vs]|]; simpl; try done. intros Hv. by exists v0, vs. Qed.

Lemma Header_Get_first_value (h : http_Header) (key : string) :
  Header_Get h key = first_value (h !! CanonicalMIMEHeaderKey key).
Proof. reflexivity. Qed.

Lemma extra_loop_in (l : list (string * string)) (h : http_Header) (k v : string) :
  (k, v) ∈ l ->
  NoDup (canonical_names l) ->
  first_value (h !! CanonicalMIMEHeaderKey k) = EmptyString ->
  foldl extra_step h l !! CanonicalMIMEHeaderKey k = Some [v].
Proof.
  revert h. induction l as [|kv l IH]; intros h Hin Hnd Hh.
  - by apply elem_of_nil in Hin.
  - unfold canonical_names in Hnd. simpl in Hnd.
    apply NoDup_cons in Hnd as [Hfresh Hnd].
    apply elem_of_cons in Hin as [<-|Hin]; simpl.
    + rewrite extra_loop_other.
      * unfold extra_step. simpl. rewrite Header_Get_first_value, Hh. simpl.
        unfold Header_Set. by rewrite lookup_insert_eq.
      * apply Forall_forall. intros kv' Hkv' Heq. apply Hfresh.
        simpl. rewrite <- Heq. apply list_elem_of_fmap. by exists kv'.
    + apply IH; [done|done|].
      assert (CanonicalMIMEHeaderKey kv.1 <> CanonicalMIMEHeaderKey k) as Hne.
      { intros Heq. apply Hfresh. rewrite Heq.
        apply list_elem_of_fmap. by exists (k, v). }
      unfold extra_step. destruct (nonempty _); [done|].
      unfold Header_Set. by rewrite lookup_insert_ne.
Qed.

Lemma pipeline_extra_fills (inbound : http_Header) (hc : HeadersConfig) (k v : string) :
  (k, v) ∈ Extra hc ->
  NoDup (canonical_names (Extra hc)) ->
  ~ named_by (Set_ hc) (CanonicalMIMEHeaderKey k) ->
  first_value (forwarded lib inbound hc (CanonicalMIMEHeaderKey k)) = EmptyString ->
  pipeline lib inbound hc !! CanonicalMIMEHeaderKey k = Some [v].
Proof.
  intros Hin Hnd Hset Hfw. unfold pipeline.
  rewrite set_loop_other by by apply not_named_Forall.
  apply extra_loop_in; [done|done|]. by rewrite stage1_lookup.
Qed.

Lemma pipeline_passes (inbound : http_Header) (hc : HeadersConfig) (c : string) :
  ~ named_by (Set_ hc) c ->
  ~ named_by (Extra hc) c \/ first_value (forwarded lib inbound hc c) <> EmptyString ->
  pipeline lib inbound hc !! c = forwarded lib inbound hc c.
Proof.
  intros Hset Hcase. unfold pipeline.
  rewrite set_loop_other by by apply not_named_Forall.
  destruct Hcase as [Hextra|Hv].
  - rewrite extra_loop_other by by apply not_named_Forall. apply stage1_lookup.
  - apply first_value_nonempty in Hv as (v0 & vs & Hfw & Hv0). rewrite Hfw.
    apply extra_loop_keeps; [|done]. by rewrite stage1_lookup.
Qed.

End PipelineNames.

(** X10. A name of [extra] whose canonical form no other key of [extra]
    shares, that [set] does not name, and under which stage 1 passes no
    value or an empty first value, ends with exactly the one value of
    [extra] under its canonical name; in [src/proxy.go] for every name but
    [Host]. *)
Theorem X10_extra_fills_absent_names :
  forall lib (r : Request) (rule : TransitRule) (k v : string),
    (k, v) ∈ Extra (Headers rule) ->
    NoDup (canonical_names (Extra (Headers rule))) ->
    ~ named_by (Set_ (Headers rule)) (CanonicalMIMEHeaderKey k) ->
    first_value (forwarded lib (req_Header r) (Headers rule) (CanonicalMIMEHeaderKey k))
    = EmptyString ->
    Part000.processHeaders lib r rule !! CanonicalMIMEHeaderKey k = Some [v]
    /\ (CanonicalMIMEHeaderKey k <> "Host" ->
        Proxy.processHeaders lib r rule !! CanonicalMIMEHeaderKey k = Some [v]).
Proof.
  intros lib r rule k v Hin Hnd Hset Hfw.
  assert (pipeline lib (req_Header r) (Headers rule) !! CanonicalMIMEHeaderKey k = Some [v])
    as Hp by by apply pipeline_extra_fills.
  split; [exact Hp|]. intros Hne. by rewrite Proxy_processHeaders_other.
Qed.

Lemma x_policy_extra_distinct : NoDup (canonical_names (Extra x_policy)).
Proof.
  vm_compute. apply NoDup_cons. split; [|apply NoDup_singleton].
  intros Hin. apply list_elem_of_singleton in Hin. discriminate.
Qed.

Lemma x_policy_set_distinct : NoDup (canonical_names (Set_ x_policy)).
Proof.
  vm_compute. apply NoDup_cons. split; [|apply NoDup_singleton].
  intros Hin. apply list_elem_of_singleton in Hin. discriminate.
Qed.

Lemma x_policy_not_named (l : gomap string) (c : string) :
  forallb (fun kv => negb (String.eqb (CanonicalMIMEHeaderKey kv.1) c)) l = true ->
  ~ named_by l c.
Proof.
  intros Hall (kv & Hin & Heq). rewrite forallb_forall in Hall.
  apply list_elem_of_In in Hin. specialize (Hall kv Hin).
  apply negb_true_iff, String.eqb_neq in Hall. done.
Qed.

Lemma X10_extra_fills_absent_names_witness :
  Part000.processHeaders demo_lib x_request (x_policy_rule x_policy) !! "Accept"
  = Some ["*/*"]
  /\ Proxy.processHeaders demo_lib x_request (x_policy_rule x_policy) !! "Accept"
     = Some ["*/*"].
Proof.
  destruct (X10_extra_fills_absent_names demo_lib x_request (x_policy_rule x_policy)
              "accept" "*/*") as [H1 H2].
  { right. left. }
  { exact x_policy_extra_distinct. }
  { apply x_policy_not_named. vm_compute. reflexivity. }
  { vm_compute. reflexivity. }
  split; [exact H1|]. apply H2. vm_compute. discriminate.
Defined.

(** X11. A name that [set] does not name, and that [extra] does not name
    or under which stage 1 passes a first value that is not empty, is in
    the outbound set exactly as stage 1 passes it: with its inbound values
    when [forward_client] is true and the lower-cased name is not in the
    removal set, not at all otherwise.  In [src/proxy.go] for every name
    but [Host]. *)
Theorem X11_other_names_pass_or_vanish :
  forall lib (r : Request) (rule : TransitRule) (c : string),
    ~ named_by (Set_ (Headers rule)) c ->
    ~ named_by (Extra (Headers rule)) c
    \/ first_value (forwarded lib (req_Header r) (Headers rule) c) <> EmptyString ->
    (Part000.processHeaders lib r rule !! c
     = (if ForwardClient (Headers rule)
           && negb (removes_has (removes (Headers rule)) (ToLower lib c))
        then req_Header r !! c else None))
    /\ (c <> "Host" ->
        Proxy.processHeaders lib r rule !! c
        = (if ForwardClient (Headers rule)
              && negb (removes_has (removes (Headers rule)) (ToLower lib c))
           then req_Header r !! c else None)).
Proof.
  intros lib r rule c Hset Hcase.
  assert (pipeline lib (req_Header r) (Headers rule) !! c
          = forwarded lib (req_Header r) (Headers rule) c) as Hp by by apply pipeline_passes.
  split; [exact Hp|]. intros Hne. by rewrite Proxy_processHeaders_other.
Qed.

Lemma X11_other_names_pass_or_vanish_witness :
  Part000.processHeaders demo_lib x_request (x_policy_rule x_policy) !! "Cookie" = None
  /\ Part000.processHeaders demo_lib x_request (x_policy_rule x_policy) !! "Content-Type"
     = Some ["application/json"].
Proof.
  split.
  - destruct (X11_other_names_pass_or_vanish demo_lib x_request (x_policy_rule x_policy)
                "Cookie") as [H1 _].
    { apply x_policy_not_named. vm_compute. reflexivity. }
    { left. apply x_policy_not_named. vm_compute. reflexivity. }
    rewrite H1. vm_compute. reflexivity.
  - destruct (X11_other_names_pass_or_vanish demo_lib x_request (x_policy_rule x_policy)
                "Content-Type") as [H1 _].
    { apply x_policy_not_named. vm_compute. reflexivity. }
    { left. apply x_policy_not_named. vm_compute. reflexivity. }
    rewrite H1. vm_compute. reflexivity.
Defined.

Lemma canonical_names_perm (l l' : gomap string) :
  l ≡ₚ l' -> canonical_names l ≡ₚ canonical_names l'.
Proof. intros Hp. unfold canonical_names. by rewrite Hp. Qed.

Section PipelineOrder.
Context (lib : Lib).

Lemma forwarded_same_flags (inbound : http_Header) (hc hc' : HeadersConfig) (c : string) :
  ForwardClient hc = ForwardClient hc' -> removes hc = removes hc' ->
  forwarded lib inbound hc c = forwarded lib inbound hc' c.
Proof. intros Hf Hr. unfold forwarded. by rewrite Hf, Hr. Qed.

Lemma pipeline_order (inbound : http_Header) (hc hc' : HeadersConfig) :
  ForwardClient hc = ForwardClient hc' -> removes hc = removes hc' ->
  Extra hc ≡ₚ Extra hc' -> Set_ hc ≡ₚ Set_ hc' ->
  NoDup (canonical_names (Extra hc)) -> NoDup (canonical_names (Set_ hc)) ->
  pipeline lib inbound hc = pipeline lib inbound hc'.
Proof.
  intros Hf Hr Hextra Hset Hnde Hnds.
  assert (NoDup (canonical_names (Extra hc'))) as Hnde'
    by (by rewrite <- (canonical_names_perm _ _ Hextra)).
  assert (NoDup (canonical_names (Set_ hc'))) as Hnds'
    by (by rewrite <- (canonical_names_perm _ _ Hset)).
  apply map_eq. intros c.
  destruct (decide (c ∈ canonical_names (Set_ hc))) as [Hs|Hs].
  - apply named_by_elem in Hs as ([k v] & Hin & <-). simpl.
    rewrite (pipeline_set_wins lib inbound hc k v) by done.
    rewrite (pipeline_set_wins lib inbound hc' k v); [done| |done]. by rewrite <- Hset.
  - assert (~ named_by (Set_ hc) c) as Hn by (by rewrite named_by_elem).
    assert (~ named_by (Set_ hc') c) as Hn'.
    { rewrite named_by_elem, <- (canonical_names_perm _ _ Hset). done. }
    pose proof (forwarded_same_flags inbound hc hc' c Hf Hr) as Hfw.
    destruct (decide (c ∈ canonical_names (Extra hc))) as [He|He].
    + destruct (decide (first_value (forwarded lib inbound hc c) = EmptyString)) as [Hv|Hv].
      * apply named_by_elem in He as ([k v] & Hin & <-). simpl in *.
        rewrite (pipeline_extra_fills lib inbound hc k v) by done.
        rewrite (pipeline_extra_fills lib inbound hc' k v); try done.
        -- by rewrite <- Hextra.
        -- by rewrite <- Hfw.
      * rewrite (pipeline_passes lib inbound hc c) by (done || by right).
        rewrite (pipeline_passes lib inbound hc' c); [done|done|]. right. by rewrite <- Hfw.
    + assert (~ named_by (Extra hc) c) as Hne by (by rewrite named_by_elem).
      assert (~ named_by (Extra hc') c) as Hne'.
      { rewrite named_by_elem, <- (canonical_names_perm _ _ Hextra). done. }
      rewrite (pipeline_passes lib inbound hc c) by (done || by left).
      rewrite (pipeline_passes lib inbound hc' c); [done|done|by left].
Qed.

Lemma forward_loop_order rm (inbound : http_Header) (l : list (string * list string)) :
  l ≡ₚ map_to_list inbound ->
  foldl (forward_step lib rm) ∅ l = foldl (forward_step lib rm) ∅ (map_to_list inbound).
Proof.
  intros Hp. apply map_eq. intros c.
  assert (NoDup l.*1) as Hnd.
  { rewrite Hp. apply NoDup_fst_map_to_list. }
  rewrite forward_lookup, (forward_loop_lookup lib rm l ∅ c Hnd), lookup_empty.
  assert ((list_to_map l : http_Header) = inbound) as ->.
  { rewrite <- (list_to_map_to_list inbound). by apply list_to_map_proper. }
  destruct (inbound !! c), (removes_has rm (ToLower lib c)); reflexivity.
Qed.

End PipelineOrder.

(** X12. The outbound header set does not depend on the order in which
    the three loops of [processHeaders] range over their maps: stage 1
    gives the same map for every order of the inbound headers, and two
    policies that differ only in the order of [extra] and of [set] give
    the same outbound set, in both variants, when no two keys of [extra]
    and no two keys of [set] have the same canonical form. *)
Theorem X12_range_order_does_not_show :
  (forall lib rm (inbound : http_Header) (l : list (string * list string)),
     l ≡ₚ map_to_list inbound ->
     foldl (forward_step lib rm) ∅ l = foldl (forward_step lib rm) ∅ (map_to_list inbound))
  /\ (forall lib (r : Request) (rule rule' : TransitRule),
        ForwardClient (Headers rule) = ForwardClient (Headers rule') ->
        removes (Headers rule) = removes (Headers rule') ->
        Extra (Headers rule) ≡ₚ Extra (Headers rule') ->
        Set_ (Headers rule) ≡ₚ Set_ (Headers rule') ->
        NoDup (canonical_names (Extra (Headers rule))) ->
        NoDup (canonical_names (Set_ (Headers rule))) ->
        Part000.processHeaders lib r rule = Part000.processHeaders lib r rule'
        /\ (BackendBase rule = BackendBase rule' ->
            Proxy.processHeaders lib r rule = Proxy.processHeaders lib r rule')).
Proof.
  split; [apply forward_loop_order|].
  intros lib r rule rule' Hf Hr Hextra Hset Hnde Hnds.
  assert (pipeline lib (req_Header r) (Headers rule) = pipeline lib (req_Header r) (Headers rule'))
    as Hp by by apply pipeline_order.
  split; [exact Hp|]. intros Hbase. unfold Proxy.processHeaders. by rewrite Hp, Hbase.
Qed.

Lemma X12_range_order_does_not_show_witness :
  Part000.processHeaders demo_lib x_request (x_policy_rule x_policy)
  = Part000.processHeaders demo_lib x_request (x_policy_rule x_policy')
  /\ Proxy.processHeaders demo_lib x_request (x_policy_rule x_policy)
     = Proxy.processHeaders demo_lib x_request (x_policy_rule x_policy').
Proof.
  destruct X12_range_order_does_not_show as [_ Horder].
  destruct (Horder demo_lib x_request (x_policy_rule x_policy) (x_policy_rule x_policy'))
    as [H1 H2].
  { reflexivity. }
  { reflexivity. }
  { apply Permutation_swap. }
  { apply Permutation_swap. }
  { exact x_policy_extra_distinct. }
  { exact x_policy_set_distinct. }
  split; [exact H1|]. apply H2. reflexivity.
Defined.

(** X13. When the keys of the inbound header map are canonical, as the
    server's parser makes them, the keys of the outbound header set are
    canonical too, in both variants, whatever the spelling of the names
    in [extra] and [set]. *)
Theorem X13_outbound_keys_canonical :
  forall lib (r : Request) (rule : TransitRule),
    canonical_keys (req_Header r) ->
    canonical_keys (Part000.processHeaders lib r rule)
    /\ canonical_keys (Proxy.processHeaders lib r rule).
Proof.
  intros lib r rule Hin.
  assert (canonical_keys (pipeline lib (req_Header r) (Headers rule))) as Hp
    by by apply canonical_keys_pipeline.
  split; [exact Hp|]. unfold Proxy.processHeaders.
  by apply canonical_keys_Set.
Qed.

Lemma X13_outbound_keys_canonical_witness :
  canonical_keys (Part000.processHeaders demo_lib scenarioB_request
                    (x_policy_rule x_policy))
  /\ canonical_keys (Proxy.processHeaders demo_lib scenarioB_request
                       (x_policy_rule x_policy)).
Proof.
  destruct (X13_outbound_keys_canonical demo_lib scenarioB_request
              (x_policy_rule x_policy) scenarioB_canonical) as [H1 H2].
  split; [exact H1|exact H2].
Defined.

(** ** The handlers, on every path *)



Lemma dispatched_emit (s : St) (e : Event) :
  dispatched (emit s e)
  = (dispatched s ++ match e with EvDo c q => [(c, q)] | _ => [] end)%list.
Proof. unfold dispatched, emit. simpl. rewrite omap_app. by destruct e. Qed.

Lemma http_Error_final (w : ResponseWriter) (text : string) (code : Z) :
  final_status code = true ->
  exists w', http_Error w text code = Some w' /\ is_Some (w_status w').
Proof.
  intros Hcode. unfold http_Error.
  match goal with |- context [WriteHeader ?w1 code] => set (w0 := w1) end.
  destruct (w_status w0) as [sent|] eqn:Hw.
  - rewrite (WriteHeader_sent w0 code sent Hw). eexists. split; [reflexivity|].
    rewrite Write_status. by eexists.
  - rewrite (WriteHeader_final w0 code Hw Hcode). eexists. split; [reflexivity|].
    rewrite Write_status. by eexists.
Qed.

Lemma reply_error_final (s : St) (text : string) (code : Z) :
  final_status code = true ->
  exists s',
    reply_error s text code = Finished s'
    /\ st_events s' = st_events s
    /\ is_Some (w_status (st_w s')).
Proof.
  intros Hcode. unfold reply_error.
  destruct (http_Error_final (st_w s) text code Hcode) as (w' & -> & Hst).
  by eexists.
Qed.

Lemma dispatched_events (s s' : St) (l : list Event) :
  st_events s' = (st_events s ++ l)%list ->
  dispatched s'
  = (dispatched s
     ++ omap (fun e => match e with EvDo c q => Some (c, q) | _ => None end) l)%list.
Proof. intros Hev. unfold dispatched. by rewrite Hev, omap_app. Qed.

(** What [dispatch] does: one call of [client.Do] on every path; a trace
    that keeps what the caller filled in; a status line sent whenever the
    trace has no error; and the panic of [WriteHeader] exactly when the
    backend answers with a readable body and a code out of range. *)
Lemma dispatch_shape env client req trace (s : St) :
  w_status (st_w s) = None ->
  match dispatch env client req trace s with
  | Returned t' s' =>
      (Method t' = Method trace /\ RequestURL t' = RequestURL trace
       /\ BackendURL t' = BackendURL trace /\ RequestHeaders t' = RequestHeaders trace
       /\ StartTime t' = StartTime trace /\ RequestBody t' = RequestBody trace
       /\ TransitHeaders t' = TransitHeaders trace)
      /\ st_events s' = (st_events s ++ [EvDo client req])%list
      /\ (Error t' = None -> is_Some (w_status (st_w s')))
      /\ ~ rejected_status env client req
  | Panicked s' =>
      st_events s' = (st_events s ++ [EvDo client req])%list
      /\ w_status (st_w s') = None
      /\ w_interim (st_w s') = w_interim (st_w s)
      /\ w_body (st_w s') = w_body (st_w s)
      /\ rejected_status env client req
  end.
Proof.
  intros Hopen. unfold dispatch.
  destruct (client_Do env client req) as [resp|err] eqn:Hdo.
  2:{ repeat split; try done. intros (resp & rb & Hdo' & _). congruence. }
  destruct (resp_Body resp) as [body|err] eqn:Hb.
  2:{ repeat split; try done. intros (resp' & rb & Hdo' & Hb' & _).
      rewrite Hdo in Hdo'. injection Hdo' as <-. congruence. }
  simpl.
  destruct (WriteHeader _ (resp_StatusCode resp)) as [w0|] eqn:Hwh.
  - assert (~ rejected_status env client req) as Hrej.
    { intros (resp' & rb & Hdo' & _ & Hv).
      rewrite Hdo in Hdo'. injection Hdo' as <-.
      assert (WriteHeader
                (w_set_Header (st_w s) (copy_headers (resp_Header resp) (w_Header (st_w s))))
                (resp_StatusCode resp) = None) as Hnone.
      { apply WriteHeader_None. by split. }
      simpl in Hwh. congruence. }
    simpl. pose proof (Write_status w0 body) as Hst.
    destruct (Write w0 body) as [w [e|]]; simpl in *.
    + split; [done|]. split; [done|]. split; [done|exact Hrej].
    + split; [done|]. split; [done|]. split; [|exact Hrej].
      intros _. rewrite Hst. by eexists.
  - apply WriteHeader_None in Hwh as [_ Hv]. simpl.
    split; [done|]. split; [done|]. split; [done|]. split; [done|].
    by exists resp, body.
Qed.

(** What [finish] adds: it always returns, with the trace given to the
    logger and the line that follows it. *)
Lemma finish_shape env (t : ProxyTrace) (s : St) :
  exists s',
    finish env t s = Finished s'
    /\ List.filter is_trace_log (st_events s')
       = (List.filter is_trace_log (st_events s)
          ++ [EvLogTrace (set_Duration t (time_Later env - StartTime t))])%list
    /\ dispatched s' = dispatched s
    /\ last (st_events s')
       = Some (match Error t with
               | Some e => warning_of (set_Duration t (time_Later env - StartTime t)) e
               | None => summary_of (set_Duration t (time_Later env - StartTime t))
               end)
    /\ ((Error t = None -> is_Some (w_status (st_w s))) ->
        is_Some (w_status (st_w s')))
    /\ (Error t = None -> st_w s' = st_w s).
Proof.
  unfold finish. simpl. destruct (Error t) as [e|] eqn:He; simpl.
  - match goal with |- context [reply_error ?s0 ?text ?code] =>
      destruct (reply_error_final s0 text code eq_refl) as (s' & -> & Hev & Hst) end.
    exists s'. split; [reflexivity|]. unfold dispatched. rewrite Hev. simpl.
    split; [|split; [|split; [|split]]].
    + by rewrite filter_snoc_false, filter_snoc_true.
    + rewrite !omap_app. simpl. by rewrite !app_nil_r.
    + apply last_snoc.
    + intros _. exact Hst.
    + done.
  - eexists. split; [reflexivity|]. simpl. split; [|split; [|split; [|split]]].
    + by rewrite filter_snoc_false, filter_snoc_true.
    + unfold dispatched. simpl. rewrite !omap_app. simpl. by rewrite !app_nil_r.
    + apply last_snoc.
    + intros H. by apply H.
    + done.
Qed.





Lemma dispatched_start (script : list (option string)) : dispatched (start script) = [].
Proof. reflexivity. Qed.

Lemma finish_dispatched env (t : ProxyTrace) (s : St) :
  dispatched (final_state (finish env t s)) = dispatched s.
Proof. by destruct (finish_shape env t s) as (s' & -> & _ & Hd & _). Qed.

Lemma dispatch_dispatched env client req trace (s : St) :
  w_status (st_w s) = None ->
  dispatched (state_of (dispatch env client req trace s))
  = (dispatched s ++ [(client, req)])%list.
Proof.
  intros Hopen. pose proof (dispatch_shape env client req trace s Hopen) as Hd.
  destruct (dispatch env client req trace s) as [t' s'|s']; simpl.
  - destruct Hd as (_ & Hev & _). by rewrite (dispatched_events s s' _ Hev).
  - destruct Hd as (Hev & _). by rewrite (dispatched_events s s' _ Hev).
Qed.

(** X15. Whatever happens during a request, the only request that a
    handler hands to [client.Do] is the one of the request's own route:
    through the client that the pool holds for that route, with the method
    and the body of the inbound request unchanged, the URL that
    [buildTransitBackendURL] gives for the rule and the headers that
    [processHeaders] gives. *)
Theorem X15_only_own_route_is_dialled :
  (forall lib (p : ProxyHandler) env script (r : Request) (c : http_Client)
          (q : OutRequest),
     (c, q) ∈ dispatched (final_state (Part000.ServeHTTP lib p env (start script) r)) ->
     exists rule body,
       gomap_get (TransitMap (config p)) (strip_port (req_Host r)) = Some rule
       /\ clients p !! strip_port (req_Host r) = Some c
       /\ req_Body r = ReadOk body
       /\ q = {| out_Method := req_Method r;
                 out_URL := fst (buildTransitBackendURL rule r);
                 out_Body := body;
                 out_Header := Part000.processHeaders lib r rule |})
  /\ (forall lib (p : ProxyHandler) env script (r : Request) (c : http_Client)
             (q : OutRequest),
        (c, q) ∈ dispatched (final_state (Proxy.ServeHTTP lib p env (start script) r)) ->
        exists rule body,
          gomap_get (TransitMap (config p)) (strip_port (req_Host r)) = Some rule
          /\ Proxy.getClientForDomain lib p (BackendBase rule) = Some c
          /\ req_Body r = ReadOk body
          /\ q = {| out_Method := req_Method r;
                    out_URL := fst (buildTransitBackendURL rule r);
                    out_Body := body;
                    out_Header := Proxy.processHeaders lib r rule |}).
Proof.
  split.
  - intros lib p env script r c q. unfold Part000.ServeHTTP, Part000.forwardRequest.
    destruct (gomap_get _ _) as [rule|] eqn:Hget;
      [|rewrite finish_dispatched; intros Hin; by apply elem_of_nil in Hin].
    destruct (clients p !! _) as [client|] eqn:Hc;
      [|rewrite finish_dispatched; intros Hin; by apply elem_of_nil in Hin].
    rewrite (buildTransitBackendURL_eta rule r).
    destruct (req_Body r) as [body|err] eqn:Hbody;
      [|rewrite finish_dispatched; intros Hin; by apply elem_of_nil in Hin].
    destruct (http_NewRequest lib _ _);
      [rewrite finish_dispatched; intros Hin; by apply elem_of_nil in Hin|].
    match goal with |- context [dispatch ?e ?c0 ?q0 ?t ?s] =>
      pose proof (dispatch_dispatched e c0 q0 t s eq_refl) as Hd;
      destruct (dispatch e c0 q0 t s) as [t' s'|s'] end; simpl in Hd |- *.
    + rewrite finish_dispatched, Hd.
      intros Hin. apply list_elem_of_singleton in Hin as [= -> ->].
      by exists rule, body.
    + rewrite Hd.
      intros Hin. apply list_elem_of_singleton in Hin as [= -> ->].
      by exists rule, body.
  - intros lib p env script r c q. unfold Proxy.ServeHTTP, Proxy.forwardRequest.
    destruct (gomap_get _ _) as [rule|] eqn:Hget.
    2:{ unfold dispatched. rewrite reply_error_events.
        intros Hin. by apply elem_of_nil in Hin. }
    rewrite (buildTransitBackendURL_eta rule r).
    destruct (req_Body r) as [body|err] eqn:Hbody;
      [|rewrite finish_dispatched; intros Hin; by apply elem_of_nil in Hin].
    destruct (http_NewRequest lib _ _);
      [rewrite finish_dispatched; intros Hin; by apply elem_of_nil in Hin|].
    destruct (Proxy.getClientForDomain lib p _) as [client|] eqn:Hc;
      [|intros Hin; by apply elem_of_nil in Hin].
    match goal with |- context [dispatch ?e ?c0 ?q0 ?t ?s] =>
      pose proof (dispatch_dispatched e c0 q0 t s eq_refl) as Hd;
      destruct (dispatch e c0 q0 t s) as [t' s'|s'] end; simpl in Hd |- *.
    + rewrite finish_dispatched, Hd.
      intros Hin. apply list_elem_of_singleton in Hin as [= -> ->].
      by exists rule, body.
    + rewrite Hd.
      intros Hin. apply list_elem_of_singleton in Hin as [= -> ->].
      by exists rule, body.
Qed.

Lemma X15_only_own_route_is_dialled_witness :
  exists rule body,
    gomap_get (TransitMap c5_config) "a.example.com" = Some rule
    /\ req_Body c5_request = ReadOk body
    /\ BackendBase rule = "http://backend:9000".
Proof.
  destruct X15_only_own_route_is_dialled as [Hpart _].
  destruct (Hpart demo_lib (Part000.NewProxyHandler c5_config) env_ok [] c5_request
              {| client_id := 0; client_Dial := SystemDialer |}
              {| out_Method := "GET"; out_URL := "http://backend:9000/users?x=1";
                 out_Body := EmptyString; out_Header := ∅ |})
    as (rule & body & Hget & _ & Hbody & _).
  { vm_compute. left. }
  exists rule, body. split; [exact Hget|]. split; [exact Hbody|].
  vm_compute in Hget. by injection Hget as <-.
Defined.






(** ** The rendering, on every trace *)

Lemma leb_total_le (x y : string) : String.leb x y = false -> String.le y x.
Proof.
  intros Hxy. unfold String.le.
  destruct (String.leb_total x y) as [H|H]; [congruence|]. by rewrite H.
Qed.

Lemma insert_sorted_perm (x : string) (l : list string) : insert_sorted x l ≡ₚ x :: l.
Proof.
  induction l as [|y l IH]; [done|]. simpl.
  destruct (String.leb x y); [done|]. rewrite IH. apply Permutation_swap.
Qed.

Lemma insert_sorted_HdRel (a x : string) (l : list string) :
  HdRel String.le a l -> String.le a x -> HdRel String.le a (insert_sorted x l).
Proof.
  intros Hl Hax. destruct l as [|y l]; simpl; [by constructor|].
  destruct (String.leb x y); constructor; [done|]. by inversion Hl.
Qed.

Lemma insert_sorted_Sorted (x : string) (l : list string) :
  Sorted String.le l -> Sorted String.le (insert_sorted x l).
Proof.
  induction 1 as [|y l Hl IH Hy]; simpl; [by repeat constructor|].
  destruct (String.leb x y) eqn:Hxy.
  - constructor; [by constructor|]. constructor. unfold String.le. by rewrite Hxy.
  - constructor; [exact IH|]. apply insert_sorted_HdRel; [done|]. by apply leb_total_le.
Qed.

Lemma sort_Strings_perm (l : list string) : sort_Strings l ≡ₚ l.
Proof.
  induction l as [|x l IH]; [done|]. simpl. by rewrite insert_sorted_perm, IH.
Qed.

Lemma sort_Strings_Sorted (l : list string) : Sorted String.le (sort_Strings l).
Proof.
  induction l as [|x l IH]; [constructor|]. simpl. by apply insert_sorted_Sorted.
Qed.

Lemma sort_Strings_order (l1 l2 : list string) :
  l1 ≡ₚ l2 -> sort_Strings l1 = sort_Strings l2.
Proof.
  intros Hp. apply (Sorted_unique String.le); try apply sort_Strings_Sorted.
  by rewrite !sort_Strings_perm.
Qed.

(** X18. The header lines of a rendered trace are in ascending byte
    order, they are the lines of the header map, each once, and the text
    does not depend on the order in which the map is ranged over. *)
Theorem X18_header_lines_sorted :
  forall (h : http_Header),
    header_string h = Join (sort_Strings (header_line <$> map_to_list h)) "; "
    /\ Sorted String.le (sort_Strings (header_line <$> map_to_list h))
    /\ sort_Strings (header_line <$> map_to_list h) ≡ₚ header_line <$> map_to_list h
    /\ (forall l, l ≡ₚ map_to_list h ->
          Join (sort_Strings (header_line <$> l)) "; " = header_string h).
Proof.
  intros h. split; [reflexivity|]. split; [apply sort_Strings_Sorted|].
  split; [apply sort_Strings_perm|].
  intros l Hl. unfold header_string. f_equal.
  apply sort_Strings_order. by rewrite Hl.
Qed.

Lemma X18_header_lines_sorted_witness :
  Join (sort_Strings (header_line <$>
          [("Content-Type", ["application/json"]); ("Content-Encoding", ["gzip"])])) "; "
  = header_string gzip_headers
  /\ header_string gzip_headers
     = "Content-Encoding: gzip; Content-Type: application/json".
Proof.
  destruct (X18_header_lines_sorted gzip_headers) as (_ & _ & _ & Horder).
  split.
  - apply Horder. vm_compute. apply Permutation_swap.
  - vm_compute. reflexivity.
Defined.

Lemma body_string_no_content_type lib (h : http_Header) (stored : string) :
  Header_Get h "Content-Type" = EmptyString -> body_string lib h stored = EmptyString.
Proof. intros Hct. unfold body_string. rewrite Hct. reflexivity. Qed.

(** X19. A body whose header map has no [Content-Type] value, or an empty
    one, is never shown in the rendered line, whatever the body holds; a
    trace without response headers, as every trace of a request that got
    no response, has no response segment at all. *)
Theorem X19_body_without_content_type_hidden :
  forall lib (p : ProxyTrace),
    (Header_Get (RequestHeaders p) "Content-Type" = EmptyString ->
     SegRequestBody ∉ rendered_segments lib p)
    /\ (Header_Get (ResponseHeaders p) "Content-Type" = EmptyString ->
        SegResponseBody ∉ rendered_segments lib p)
    /\ (ResponseHeaders p = ∅ ->
        (SegResponseHeaders ∉ rendered_segments lib p)
        /\ (SegResponseBody ∉ rendered_segments lib p)).
Proof.
  intros lib p.
  assert (forall k, segment_content lib p k = EmptyString ->
                    k ∉ rendered_segments lib p) as Hempty.
  { intros k Hk. rewrite rendered_segments_spec. unfold segment_omitted.
    by rewrite Hk. }
  split; [|split].
  - intros Hct. apply Hempty. by apply body_string_no_content_type.
  - intros Hct. apply Hempty. by apply body_string_no_content_type.
  - intros Hrsp. split; apply Hempty; simpl; unfold rspBodyString; rewrite Hrsp.
    + reflexivity.
    + by apply body_string_no_content_type.
Qed.

Lemma X19_body_without_content_type_hidden_witness :
  (SegResponseHeaders ∉ rendered_segments demo_lib
     (set_Error (new_trace 0 "a.example.com/" "http://backend:9000/" "GET" ∅) "refused"))
  /\ (SegRequestBody ∉ rendered_segments demo_lib
        (set_RequestBody (new_trace 0 "a.example.com/" "http://backend:9000/" "POST" ∅)
           "secret")).
Proof.
  split.
  - apply (X19_body_without_content_type_hidden demo_lib
             (set_Error (new_trace 0 "a.example.com/" "http://backend:9000/" "GET" ∅)
                "refused")).
    reflexivity.
  - apply (X19_body_without_content_type_hidden demo_lib
             (set_RequestBody
                (new_trace 0 "a.example.com/" "http://backend:9000/" "POST" ∅) "secret")).
    reflexivity.
Defined.

(** ** [SetLogger] *)

Lemma lower_byte_ASCII (c : ascii) : is_ASCII (lower_byte c) = is_ASCII c.
Proof. destruct c as [[] [] [] [] [] [] [] []]; reflexivity. Qed.

Lemma ToLower_ASCII_ASCII (s : string) :
  all_bytes is_ASCII (ToLower_ASCII s) = all_bytes is_ASCII s.
Proof. induction s as [|c s IH]; [reflexivity|]. simpl. by rewrite lower_byte_ASCII, IH. Qed.

Lemma ToLower_ASCII_idem (s : string) :
  ToLower_ASCII (ToLower_ASCII s) = ToLower_ASCII s.
Proof. induction s as [|c s IH]; [reflexivity|]. simpl. by rewrite lower_byte_idem, IH. Qed.

(** Lowering a string of ASCII bytes twice is lowering it once. *)
Lemma ToLower_idem lib (s : string) :
  all_bytes is_ASCII s = true -> ToLower lib (ToLower lib s) = ToLower lib s.
Proof.
  intros Hs. rewrite (ToLower_ASCII_eq lib s Hs).
  rewrite ToLower_ASCII_eq by by rewrite ToLower_ASCII_ASCII.
  apply ToLower_ASCII_idem.
Qed.

Lemma level_switch_cases (level : string) :
  ((level_switch level).2, (level_switch level).1) ∈ level_names
  /\ (level ∈ level_names.*1 -> (level_switch level).2 = level)
  /\ (level ∉ level_names.*1 -> level_switch level = (zap_InfoLevel, "info")).
Proof.
  unfold level_switch.
  destruct (String.eqb level "debug") eqn:E1.
  { apply String.eqb_eq in E1 as ->. split; [set_solver|]. split; [done|set_solver]. }
  destruct (String.eqb level "info") eqn:E2.
  { apply String.eqb_eq in E2 as ->. split; [set_solver|]. split; [done|set_solver]. }
  destruct (String.eqb level "warn") eqn:E3.
  { apply String.eqb_eq in E3 as ->. split; [set_solver|]. split; [done|set_solver]. }
  destruct (String.eqb level "warning") eqn:E4.
  { apply String.eqb_eq in E4 as ->. split; [set_solver|]. split; [done|set_solver]. }
  destruct (String.eqb level "error") eqn:E5.
  { apply String.eqb_eq in E5 as ->. split; [set_solver|]. split; [done|set_solver]. }
  destruct (String.eqb level "dpanic") eqn:E6.
  { apply String.eqb_eq in E6 as ->. split; [set_solver|]. split; [done|set_solver]. }
  destruct (String.eqb level "panic") eqn:E7.
  { apply String.eqb_eq in E7 as ->. split; [set_solver|]. split; [done|set_solver]. }
  destruct (String.eqb level "fatal") eqn:E8.
  { apply String.eqb_eq in E8 as ->. split; [set_solver|]. split; [done|set_solver]. }
  simpl. split; [set_solver|]. split; [|done].
  apply String.eqb_neq in E1. apply String.eqb_neq in E2.
  apply String.eqb_neq in E3. apply String.eqb_neq in E4.
  apply String.eqb_neq in E5. apply String.eqb_neq in E6.
  apply String.eqb_neq in E7. apply String.eqb_neq in E8.
  unfold level_names. simpl. intros Hl.
  repeat (apply elem_of_cons in Hl as [->|Hl]; [congruence|]).
  by apply elem_of_nil in Hl.
Qed.

Lemma level_switch_idem lib (level : string) :
  level_switch (ToLower lib (level_switch level).2) = level_switch level.
Proof.
  destruct (level_switch_cases level) as (Hin & Hknown & Hunknown).
  destruct (decide (level ∈ level_names.*1)) as [Hl|Hl].
  - rewrite (Hknown Hl).
    assert (ToLower lib level = level) as ->; [|done].
    unfold level_names in Hl. simpl in Hl.
    repeat (apply elem_of_cons in Hl as [->|Hl]; [reflexivity|]).
    by apply elem_of_nil in Hl.
  - rewrite (Hunknown Hl). reflexivity.
Qed.

(** X20. [SetLogger] always installs a logger and returns one of its
    eight level names, the one of the threshold installed: the input as
    [strings.ToLower] gives it when that is a known name ([warning] stays
    [warning]), [info] otherwise; for an input of ASCII bytes the letter
    case does not matter.  A log file that does not open is reported and
    dropped: the name returned is empty and the logger writes to stderr
    only.  A second call with the two strings returned, whatever
    [os.OpenFile] does then, returns the same level and installs the same
    threshold; it opens no file when the name returned was empty, and
    when the name was empty or the file opens again it installs the
    same logger, returns the same strings and reports nothing. *)
Theorem X20_SetLogger_normalises_level :
  forall lib (os_OpenFile os_OpenFile' : string -> option string) (level file : string),
    let res := SetLogger lib os_OpenFile level file in
    let again := SetLogger lib os_OpenFile' (ret_level res) (ret_file res) in
    (ret_level res, logger_level (installed res)) ∈ level_names
    /\ (ToLower lib level ∈ level_names.*1 -> ret_level res = ToLower lib level)
    /\ (ToLower lib level ∉ level_names.*1 ->
        ret_level res = "info" /\ logger_level (installed res) = zap_InfoLevel)
    /\ (all_bytes is_ASCII level = true ->
        SetLogger lib os_OpenFile (ToLower lib level) file = res)
    /\ ((ret_file res = file
         /\ logger_file (installed res) = (if nonempty file then Some file else None)
         /\ reported res = None
         /\ (file = EmptyString \/ os_OpenFile file = None))
        \/ (exists e, file <> EmptyString /\ os_OpenFile file = Some e
                      /\ ret_file res = EmptyString
                      /\ logger_file (installed res) = None
                      /\ reported res = Some ("打开日志文件失败: " +:+ e)))
    /\ ret_level again = ret_level res
    /\ logger_level (installed again) = logger_level (installed res)
    /\ (ret_file res = EmptyString \/ os_OpenFile' (ret_file res) = None ->
        ret_file again = ret_file res
        /\ installed again = installed res
        /\ reported again = None).
Proof.
  intros lib os_OpenFile os_OpenFile' level file res again.
  assert (forall open lv f,
            ret_level (SetLogger lib open lv f) = (level_switch (ToLower lib lv)).2
            /\ logger_level (installed (SetLogger lib open lv f))
               = (level_switch (ToLower lib lv)).1) as Hlevel.
  { intros open lv f. unfold SetLogger.
    destruct (level_switch (ToLower lib lv)) as [zl nm].
    destruct (nonempty f); [destruct (open f)|]; done. }
  destruct (Hlevel os_OpenFile level file) as [Hrl Hll]. fold res in Hrl, Hll.
  destruct (level_switch_cases (ToLower lib level)) as (Hin & Hknown & Hunknown).
  split; [by rewrite Hrl, Hll|]. split; [intros Hl; by rewrite Hrl, Hknown|].
  split; [intros Hl; by rewrite Hrl, Hll, (Hunknown Hl)|].
  split; [intros Hascii; unfold res, SetLogger; by rewrite ToLower_idem|].
  assert ((ret_file res = file
           /\ logger_file (installed res) = (if nonempty file then Some file else None)
           /\ reported res = None
           /\ (file = EmptyString \/ os_OpenFile file = None))
          \/ (exists e, file <> EmptyString /\ os_OpenFile file = Some e
                        /\ ret_file res = EmptyString
                        /\ logger_file (installed res) = None
                        /\ reported res = Some ("打开日志文件失败: " +:+ e))) as Hfile.
  { unfold res, SetLogger. destruct (level_switch (ToLower lib level)) as [zl nm].
    destruct (nonempty file) eqn:Hne.
    - destruct (os_OpenFile file) as [e|] eqn:Ho; simpl.
      + right. exists e. repeat split; try done. by apply nonempty_true.
      + left. repeat split; try done. by right.
    - left. simpl. repeat split; try done. left. by destruct file. }
  split; [exact Hfile|].
  destruct (Hlevel os_OpenFile' (ret_level res) (ret_file res)) as [Hal Hall].
  fold again in Hal, Hall.
  rewrite Hrl, level_switch_idem in Hal, Hall.
  split; [by rewrite Hal, Hrl|]. split; [by rewrite Hall, Hll|].
  assert (logger_file (installed res)
          = if nonempty (ret_file res) then Some (ret_file res) else None) as Hlf.
  { destruct Hfile as [(Hf & Hl & _)|(e & _ & _ & Hf & Hl & _)].
    - by rewrite Hf, Hl.
    - by rewrite Hf, Hl. }
  intros Hopen.
  assert (ret_file again = ret_file res
          /\ logger_file (installed again) = logger_file (installed res)
          /\ reported again = None) as (Haf & Half & Har).
  { rewrite Hlf. unfold again, SetLogger.
    destruct (level_switch (ToLower lib (ret_level res))) as [zl nm].
    destruct (nonempty (ret_file res)) eqn:Hne.
    - destruct Hopen as [He|Ho]; [by rewrite He in Hne|]. by rewrite Ho.
    - done. }
  split; [exact Haf|]. split; [|exact Har].
  destruct (installed again) as [al afl], (installed res) as [il ifl].
  simpl in *. by subst.
Qed.

(** ** The custom dialers of [part_000] *)

Lemma first_A_Some (l : list dns_RR) (ip : string) :
  first_A l = Some ip <->
  exists pre post, l = (pre ++ RR_A ip :: post)%list /\ forall ip', RR_A ip' ∉ pre.
Proof.
  split.
  - induction l as [|rr l IH]; [done|]. destruct rr as [a|a|]; simpl.
    + intros [= ->]. exists [], l. split; [done|]. intros ip'. apply not_elem_of_nil.
    + intros H. destruct (IH H) as (pre & post & -> & Hpre).
      exists (RR_AAAA a :: pre), post. split; [done|].
      intros ip' Hin. apply elem_of_cons in Hin as [?|Hin]; [done|]. by apply (Hpre ip').
    + intros H. destruct (IH H) as (pre & post & -> & Hpre).
      exists (RR_other :: pre), post. split; [done|].
      intros ip' Hin. apply elem_of_cons in Hin as [?|Hin]; [done|]. by apply (Hpre ip').
  - intros (pre & post & -> & Hpre). induction pre as [|rr pre IH]; [done|].
    destruct rr as [a|a|]; simpl.
    + exfalso. apply (Hpre a). by left.
    + apply IH. intros ip' Hin. apply (Hpre ip'). by right.
    + apply IH. intros ip' Hin. apply (Hpre ip'). by right.
Qed.

Lemma first_A_None (l : list dns_RR) :
  first_A l = None <-> forall ip, RR_A ip ∉ l.
Proof.
  induction l as [|rr l IH]; simpl.
  - split; [|done]. intros _ ip. apply not_elem_of_nil.
  - destruct rr as [a|a|].
    + split; [done|]. intros H. exfalso. apply (H a). by left.
    + rewrite IH. split.
      * intros H ip Hin. apply elem_of_cons in Hin as [?|Hin]; [done|]. by apply (H ip).
      * intros H ip Hin. apply (H ip). by right.
    + rewrite IH. split.
      * intros H ip Hin. apply elem_of_cons in Hin as [?|Hin]; [done|]. by apply (H ip).
      * intros H ip Hin. apply (H ip). by right.
Qed.

Lemma first_AAAA_Some (l : list dns_RR) (ip : string) :
  first_AAAA l = Some ip <->
  exists pre post, l = (pre ++ RR_AAAA ip :: post)%list /\ forall ip', RR_AAAA ip' ∉ pre.
Proof.
  split.
  - induction l as [|rr l IH]; [done|]. destruct rr as [a|a|]; simpl.
    + intros H. destruct (IH H) as (pre & post & -> & Hpre).
      exists (RR_A a :: pre), post. split; [done|].
      intros ip' Hin. apply elem_of_cons in Hin as [?|Hin]; [done|]. by apply (Hpre ip').
    + intros [= ->]. exists [], l. split; [done|]. intros ip'. apply not_elem_of_nil.
    + intros H. destruct (IH H) as (pre & post & -> & Hpre).
      exists (RR_other :: pre), post. split; [done|].
      intros ip' Hin. apply elem_of_cons in Hin as [?|Hin]; [done|]. by apply (Hpre ip').
  - intros (pre & post & -> & Hpre). induction pre as [|rr pre IH]; [done|].
    destruct rr as [a|a|]; simpl.
    + apply IH. intros ip' Hin. apply (Hpre ip'). by right.
    + exfalso. apply (Hpre a). by left.
    + apply IH. intros ip' Hin. apply (Hpre ip'). by right.
Qed.

Section DialerFacts.
Context (lib : Lib) (net : Net).

(** The server that [resolveHostWithDNS] asks. *)
Let asked (dnsServer : string) : string :=
  if net_ParseIP net dnsServer then net_JoinHostPort net dnsServer "53" else dnsServer.

Lemma resolve_cases (host dnsServer : string) :
  let name := dns_Fqdn net host in
  let server := asked dnsServer in
  let res := resolveHostWithDNS lib net host dnsServer in
  match dns_Exchange net name TypeA server with
  | inr _ => (exists err, res.1 = inr err) /\ res.2 = [NetQuery name TypeA server]
  | inl r =>
      if (Rcode r =? RcodeSuccess)%Z then
        match first_A (Answer r) with
        | Some ip => res = (inl ip, [NetQuery name TypeA server])
        | None =>
            res.2 = [NetQuery name TypeA server; NetQuery name TypeAAAA server]
            /\ match dns_Exchange net name TypeAAAA server with
               | inr _ => exists err, res.1 = inr err
               | inl r6 =>
                   if (Rcode r6 =? RcodeSuccess)%Z then
                     match first_AAAA (Answer r6) with
                     | Some ip => res.1 = inl ip
                     | None => exists err, res.1 = inr err
                     end
                   else exists err, res.1 = inr err
               end
        end
      else (exists err, res.1 = inr err) /\ res.2 = [NetQuery name TypeA server]
  end.
Proof.
  intros name server res. unfold res, resolveHostWithDNS.
  fold (asked dnsServer). fold server. fold name.
  destruct (dns_Exchange net name TypeA server) as [r|err]; [|by eauto].
  destruct (Rcode r =? RcodeSuccess)%Z; simpl; [|by eauto].
  destruct (first_A (Answer r)); [done|].
  destruct (dns_Exchange net name TypeAAAA server) as [r6|err]; [|by eauto].
  destruct (Rcode r6 =? RcodeSuccess)%Z; simpl; [|by eauto].
  destruct (first_AAAA (Answer r6)); by eauto.
Qed.

(** X21. [resolveHostWithDNS] asks one server only, the configured one
    (with port 53 added when it is a bare IP address), for the one name,
    at most twice: first for A records, and for AAAA records exactly when
    the first answer is a success without an A record.  A failed exchange
    or an error code in the first answer ends the resolution.  The address
    returned is the first A record of the first answer, or else the first
    AAAA record of the second; an address is returned exactly when there
    is one. *)
Theorem X21_resolved_address_from_answer :
  forall (host dnsServer : string),
    let server :=
      if net_ParseIP net dnsServer then net_JoinHostPort net dnsServer "53"
      else dnsServer in
    let name := dns_Fqdn net host in
    let res := resolveHostWithDNS lib net host dnsServer in
    (res.2 = [NetQuery name TypeA server]
     \/ res.2 = [NetQuery name TypeA server; NetQuery name TypeAAAA server])
    /\ (res.2 = [NetQuery name TypeA server; NetQuery name TypeAAAA server] <->
        exists r, dns_Exchange net name TypeA server = inl r
                  /\ Rcode r = RcodeSuccess
                  /\ forall ip, RR_A ip ∉ Answer r)
    /\ (forall ip,
          res.1 = inl ip <->
          (exists r pre post,
              dns_Exchange net name TypeA server = inl r
              /\ Rcode r = RcodeSuccess
              /\ Answer r = (pre ++ RR_A ip :: post)%list
              /\ forall ip', RR_A ip' ∉ pre)
          \/ (exists r r6 pre post,
                 dns_Exchange net name TypeA server = inl r
                 /\ Rcode r = RcodeSuccess
                 /\ (forall ip', RR_A ip' ∉ Answer r)
                 /\ dns_Exchange net name TypeAAAA server = inl r6
                 /\ Rcode r6 = RcodeSuccess
                 /\ Answer r6 = (pre ++ RR_AAAA ip :: post)%list
                 /\ forall ip', RR_AAAA ip' ∉ pre)).
Proof.
  intros host dnsServer server name res.
  pose proof (resolve_cases host dnsServer) as Hc. cbv zeta in Hc.
  fold (asked dnsServer) in server. fold server name res in Hc.
  destruct (dns_Exchange net name TypeA server) as [r|err] eqn:EA.
  2:{ destruct Hc as [[e He] Hq]. split; [by left|]. split.
      - rewrite Hq. split; [done|]. by intros (r & [=] & _).
      - intros ip. rewrite He. split; [done|].
        intros [(r & pre & post & [=] & _)|(r & r6 & pre & post & [=] & _)]. }
  destruct (Z.eqb_spec (Rcode r) RcodeSuccess) as [Hrc|Hrc].
  2:{ destruct Hc as [[e He] Hq]. split; [by left|]. split.
      - rewrite Hq. split; [done|]. intros (r' & [= <-] & Hrc' & _). done.
      - intros ip. rewrite He. split; [done|].
        intros [(r' & pre & post & [= <-] & Hrc' & _)
               |(r' & r6 & pre & post & [= <-] & Hrc' & _)]; done. }
  destruct (first_A (Answer r)) as [a|] eqn:EFA.
  { rewrite Hc. simpl. split; [by left|].
    apply first_A_Some in EFA as HA. destruct HA as (pre & post & Hans & Hpre).
    split.
    - split; [done|]. intros (r' & [= <-] & _ & Hno). exfalso.
      apply (Hno a). rewrite Hans. apply elem_of_app. right. by left.
    - intros ip. split.
      + intros [= <-]. left. by exists r, pre, post.
      + intros [(r' & pre' & post' & [= <-] & _ & Hans' & Hpre')
               |(r' & r6 & pre' & post' & [= <-] & _ & Hno & _)].
        * assert (first_A (Answer r) = Some ip) as Hip.
          { apply first_A_Some. by exists pre', post'. }
          rewrite EFA in Hip. by injection Hip as ->.
        * exfalso. apply (Hno a). rewrite Hans. apply elem_of_app. right. by left. }
  destruct Hc as [Hq H6]. pose proof (proj1 (first_A_None _) EFA) as Hno.
  split; [by right|]. split.
  { split; [|done]. intros _. by exists r. }
  intros ip. destruct (dns_Exchange net name TypeAAAA server) as [r6|err] eqn:E6.
  2:{ destruct H6 as [e He]. rewrite He. split; [done|].
      intros [(r' & pre & post & [= <-] & _ & Hans & _)
             |(r' & r6 & pre & post & _ & _ & _ & [=] & _)].
      exfalso. apply (Hno ip). rewrite Hans. apply elem_of_app. right. by left. }
  destruct (Z.eqb_spec (Rcode r6) RcodeSuccess) as [Hrc6|Hrc6].
  2:{ destruct H6 as [e He]. rewrite He. split; [done|].
      intros [(r' & pre & post & [= <-] & _ & Hans & _)
             |(r' & r6' & pre & post & _ & _ & _ & [= <-] & Hrc' & _)]; [|done].
      exfalso. apply (Hno ip). rewrite Hans. apply elem_of_app. right. by left. }
  destruct (first_AAAA (Answer r6)) as [a|] eqn:EF6.
  - rewrite H6. split.
    + intros [= <-]. right. apply first_AAAA_Some in EF6 as (pre & post & Hans & Hpre).
      by exists r, r6, pre, post.
    + intros [(r' & pre & post & [= <-] & _ & Hans & _)
             |(r' & r6' & pre & post & _ & _ & _ & [= <-] & _ & Hans & Hpre)].
      * exfalso. apply (Hno ip). rewrite Hans. apply elem_of_app. right. by left.
      * assert (first_AAAA (Answer r6) = Some ip) as Hip.
        { apply first_AAAA_Some. by exists pre, post. }
        rewrite EF6 in Hip. by injection Hip as ->.
  - destruct H6 as [e He]. rewrite He. split; [done|].
    intros [(r' & pre & post & [= <-] & _ & Hans & _)
           |(r' & r6' & pre & post & _ & _ & _ & [= <-] & _ & Hans & Hpre)].
    + exfalso. apply (Hno ip). rewrite Hans. apply elem_of_app. right. by left.
    + assert (first_AAAA (Answer r6) = Some ip) as Hip.
      { apply first_AAAA_Some. by exists pre, post. }
      by rewrite EF6 in Hip.
Qed.

Lemma resolve_queries (host dnsServer : string) :
  let res := resolveHostWithDNS lib net host dnsServer in
  Forall (fun e => exists qtype,
            e = NetQuery (dns_Fqdn net host) qtype (asked dnsServer)) res.2
  /\ length res.2 <= 2.
Proof.
  intros res.
  assert (res.2 = [NetQuery (dns_Fqdn net host) TypeA (asked dnsServer)]
          \/ res.2 = [NetQuery (dns_Fqdn net host) TypeA (asked dnsServer);
                      NetQuery (dns_Fqdn net host) TypeAAAA (asked dnsServer)]) as Hq.
  { pose proof (resolve_cases host dnsServer) as Hc. cbv zeta in Hc. fold res in Hc.
    destruct (dns_Exchange net (dns_Fqdn net host) TypeA (asked dnsServer)) as [r|err].
    - destruct (Rcode r =? RcodeSuccess)%Z; [|left; by destruct Hc].
      destruct (first_A (Answer r)); [left; by rewrite Hc|right; by destruct Hc].
    - left. by destruct Hc. }
  destruct Hq as [-> | ->].
  - split; [|simpl; lia]. repeat constructor. by eexists.
  - split; [|simpl; lia]. repeat constructor; by eexists.
Qed.

Lemma Part000_route_client (cfg : Config) (host : string) (rule : TransitRule) :
  NoDup (TransitMap cfg).*1 ->
  gomap_get (TransitMap cfg) host = Some rule ->
  exists c, clients (Part000.NewProxyHandler cfg) !! host = Some c
            /\ client_Dial c = Part000.dialer_of rule.
Proof.
  intros Hnd Hget. apply gomap_get_elem in Hget.
  unfold Part000.NewProxyHandler, Part000.initializeClientPools. simpl.
  by apply Part000_pool_dialer.
Qed.

(** X22. In [part_000] a route whose rule sets [resolve.ip] connects to
    that address and to nothing else: the client of the route dials the
    pinned IP with the port of the address asked for, whatever the host
    in that address is and whatever [resolve.dns] holds, and sends no DNS
    query; an address without a port fails before anything is done. *)
Theorem X22_pinned_route_dials_pinned_ip :
  forall (cfg : Config) (host : string) (rule : TransitRule) (network addr : string),
    NoDup (TransitMap cfg).*1 ->
    gomap_get (TransitMap cfg) host = Some rule ->
    IP (Resolve rule) <> EmptyString ->
    exists c,
      clients (Part000.NewProxyHandler cfg) !! host = Some c
      /\ dial_with lib net (client_Dial c) network addr
         = match net_SplitHostPort net addr with
           | inl (_, port) =>
               let target := net_JoinHostPort net (IP (Resolve rule)) port in
               (net_Dial net network target, [NetDial network target])
           | inr err => (inr err, [])
           end.
Proof.
  intros cfg host rule network addr Hnd Hget Hip.
  destruct (Part000_route_client cfg host rule Hnd Hget) as (c & Hc & Hd).
  exists c. split; [exact Hc|]. rewrite Hd. unfold Part000.dialer_of.
  assert (nonempty (IP (Resolve rule)) = true) as ->.
  { by destruct (IP (Resolve rule)). }
  simpl. unfold createIPDialer.
  by destruct (net_SplitHostPort net addr) as [[h port]|err].
Qed.

(** X23. In [part_000] a route whose rule sets [resolve.dns] and no
    [resolve.ip] resolves names by the configured server only.  For an
    address whose host is an IP literal the client dials the address as it
    is.  Otherwise every DNS query is for the host of the address and goes
    to the configured server (port 53 added to a bare IP); the client
    connects only after a successful resolution, to the resolved address
    with the port asked for; and when the resolution fails the client
    returns that error without connecting anywhere. *)
Theorem X23_dns_route_resolves_by_configured_server :
  forall (cfg : Config) (host : string) (rule : TransitRule)
         (network addr h port : string),
    NoDup (TransitMap cfg).*1 ->
    gomap_get (TransitMap cfg) host = Some rule ->
    IP (Resolve rule) = EmptyString ->
    DNS (Resolve rule) <> EmptyString ->
    net_SplitHostPort net addr = inl (h, port) ->
    exists c,
      clients (Part000.NewProxyHandler cfg) !! host = Some c
      /\ let res := dial_with lib net (client_Dial c) network addr in
         let server :=
           if net_ParseIP net (DNS (Resolve rule))
           then net_JoinHostPort net (DNS (Resolve rule)) "53"
           else DNS (Resolve rule) in
         let resolved := resolveHostWithDNS lib net h (DNS (Resolve rule)) in
         if net_ParseIP net h then
           res = (net_Dial net network addr, [NetDial network addr])
         else
           (forall e, e ∈ res.2 -> is_query e = true ->
                      exists qtype, e = NetQuery (dns_Fqdn net h) qtype server)
           /\ length (List.filter is_query res.2) <= 2
           /\ (forall nw target,
                 NetDial nw target ∈ res.2 ->
                 nw = network
                 /\ res.1 = net_Dial net network target
                 /\ exists ip, resolved.1 = inl ip
                               /\ target = net_JoinHostPort net ip port)
           /\ (forall ip, resolved.1 = inl ip ->
                          NetDial network (net_JoinHostPort net ip port) ∈ res.2)
           /\ (forall err, resolved.1 = inr err -> res = (inr err, resolved.2)).
Proof.
  intros cfg host rule network addr h port Hnd Hget Hip Hdns Hsplit.
  destruct (Part000_route_client cfg host rule Hnd Hget) as (c & Hc & Hd).
  exists c. split; [exact Hc|]. rewrite Hd. unfold Part000.dialer_of.
  rewrite Hip. simpl.
  assert (nonempty (DNS (Resolve rule)) = true) as ->.
  { by destruct (DNS (Resolve rule)). }
  simpl. unfold createDnsResolvDialer. rewrite Hsplit.
  destruct (net_ParseIP net h); [done|].
  destruct (resolve_queries h (DNS (Resolve rule))) as [Hq Hlen].
  cbv zeta in Hq, Hlen. fold (asked (DNS (Resolve rule))).
  destruct (resolveHostWithDNS lib net h (DNS (Resolve rule))) as [[ip|err] qs]; simpl in *.
  - assert (List.filter is_query (qs ++ [NetDial network (net_JoinHostPort net ip port)])
            = List.filter is_query qs) as Hfil.
    { rewrite List.filter_app. simpl. by rewrite app_nil_r. }
    split; [|split; [|split; [|split]]].
    + intros e Hin He. apply elem_of_app in Hin as [Hin|Hin].
      * rewrite Forall_forall in Hq. by apply Hq.
      * apply list_elem_of_singleton in Hin as ->. done.
    + rewrite Hfil. etrans; [apply List.filter_length_le|done].
    + intros nw target Hin. apply elem_of_app in Hin as [Hin|Hin].
      * rewrite Forall_forall in Hq. destruct (Hq _ Hin) as [qtype [=]].
      * apply list_elem_of_singleton in Hin as [= -> ->]. by eauto.
    + intros ip' [= <-]. apply elem_of_app. right. by left.
    + done.
  - split; [|split; [|split; [|split]]].
    + intros e Hin He. rewrite Forall_forall in Hq. by apply Hq.
    + etrans; [apply List.filter_length_le|done].
    + intros nw target Hin. rewrite Forall_forall in Hq.
      destruct (Hq _ Hin) as [qtype [=]].
    + done.
    + by intros err' [= <-].
Qed.


End DialerFacts.

Lemma x_decoded_NoDup : NoDup (TransitMap x_decoded).*1.
Proof.
  vm_compute. apply NoDup_cons. split; [|apply NoDup_singleton].
  intros Hin. apply list_elem_of_singleton in Hin. discriminate.
Defined.

Lemma X22_pinned_route_dials_pinned_ip_witness :
  exists c,
    clients (Part000.NewProxyHandler x_decoded) !! "api.example.com" = Some c
    /\ dial_with demo_lib demo_net (client_Dial c) "tcp" "backend:9000"
       = (inl 1, [NetDial "tcp" "10.0.0.7:9000"]).
Proof.
  apply (X22_pinned_route_dials_pinned_ip demo_lib demo_net x_decoded
           "api.example.com" x_rule "tcp" "backend:9000").
  - exact x_decoded_NoDup.
  - vm_compute. reflexivity.
  - vm_compute. discriminate.
Defined.

Lemma X23_dns_route_resolves_by_configured_server_witness :
  exists c,
    clients (Part000.NewProxyHandler x_decoded) !! "dns.example.com" = Some c
    /\ (forall e,
          e ∈ (dial_with demo_lib demo_net (client_Dial c) "tcp" "backend:9000").2 ->
          is_query e = true ->
          exists qtype, e = NetQuery "backend." qtype "8.8.8.8:53").
Proof.
  set (rule := {| BackendBase := "http://backend:9000"; BackendPrefix := EmptyString;
                  Resolve := {| DNS := "8.8.8.8"; IP := EmptyString |};
                  Headers := Headers x_rule |}).
  assert (gomap_get (TransitMap x_decoded) "dns.example.com" = Some rule) as Hget.
  { vm_compute. reflexivity. }
  assert (DNS (Resolve rule) <> EmptyString) as Hdns.
  { simpl. discriminate. }
  assert (net_SplitHostPort demo_net "backend:9000" = inl ("backend", "9000")) as Hsplit.
  { vm_compute. reflexivity. }
  destruct (X23_dns_route_resolves_by_configured_server demo_lib demo_net x_decoded
              "dns.example.com" rule "tcp" "backend:9000" "backend" "9000"
              x_decoded_NoDup Hget eq_refl Hdns Hsplit) as (c & Hc & H).
  exists c. split; [exact Hc|]. exact (proj1 H).
Defined.

(** ** The log configuration step of [LoadConfig] *)

Lemma SetLogger_level_known lib (os_OpenFile : string -> option string)
    (level file : string) :
  (ret_level (SetLogger lib os_OpenFile level file),
   logger_level (installed (SetLogger lib os_OpenFile level file))) ∈ level_names.
Proof.
  destruct (level_switch_cases (ToLower lib level)) as (Hin & _).
  unfold SetLogger. destruct (level_switch (ToLower lib level)) as [zl nm].
  destruct (nonempty file); [destruct (os_OpenFile file)|]; done.
Qed.

Lemma SetLogger_file_cases lib (os_OpenFile : string -> option string)
    (level file : string) :
  let res := SetLogger lib os_OpenFile level file in
  (ret_file res = file
   /\ logger_file (installed res) = (if nonempty file then Some file else None)
   /\ reported res = None)
  \/ (exists err, os_OpenFile file = Some err
                  /\ ret_file res = EmptyString
                  /\ logger_file (installed res) = None
                  /\ reported res = Some ("打开日志文件失败: " +:+ err)).
Proof.
  intros res. unfold res, SetLogger. destruct (level_switch (ToLower lib level)) as [zl nm].
  destruct (nonempty file) eqn:Hne.
  - destruct (os_OpenFile file) as [e|] eqn:Ho; simpl.
    + right. by exists e.
    + by left.
  - by left.
Qed.

(** X25. [LoadConfig] leaves the logger alone when the configuration names
    neither a level nor a file.  Otherwise it ends with one confirmation
    line, written at info level to the logger just installed, so under the
    threshold that the line itself names: the level named is one of the
    eight known names and the threshold of that logger is the one of the
    name.  The line names a file exactly when the new logger writes to
    that file; a file that did not open is reported once, at error level,
    to the logger in place before, and the confirmation names no file. *)
Theorem X25_log_setup_confirmed_by_new_logger :
  forall lib (os_OpenFile : string -> option string) (current : Logger)
         (decoded : Config),
    let after := LoadConfig_log lib os_OpenFile current decoded in
    (Level (Log decoded) = EmptyString -> File (Log decoded) = EmptyString ->
     after = (current, []))
    /\ ((Level (Log decoded) <> EmptyString \/ File (Log decoded) <> EmptyString) ->
        exists name errors,
          (name, logger_level after.1) ∈ level_names
          /\ after.2
             = (errors ++
                [{| line_logger := after.1; line_level := zap_InfoLevel;
                    line_text :=
                      match logger_file after.1 with
                      | Some f => "日志级别设置为: " +:+ name +:+ ", 日志文件设置为: " +:+ f
                      | None => "日志级别设置为: " +:+ name
                      end |}])%list
          /\ (logger_file after.1 = None
              \/ logger_file after.1 = Some (File (Log decoded)))
          /\ (errors = []
              \/ exists err,
                   os_OpenFile (File (Log decoded)) = Some err
                   /\ logger_file after.1 = None
                   /\ errors = [{| line_logger := current; line_level := zap_ErrorLevel;
                                   line_text := "打开日志文件失败: " +:+ err |}])).
Proof.
  intros lib os_OpenFile current decoded after. unfold after, LoadConfig_log. split.
  - by intros -> ->.
  - intros Hset.
    assert (nonempty (Level (Log decoded)) || nonempty (File (Log decoded)) = true) as ->.
    { destruct Hset as [H|H].
      - by destruct (Level (Log decoded)).
      - apply orb_true_iff. right. by destruct (File (Log decoded)). }
    pose proof (SetLogger_level_known lib os_OpenFile (Level (Log decoded))
                  (File (Log decoded))) as Hlevel.
    pose proof (SetLogger_file_cases lib os_OpenFile (Level (Log decoded))
                  (File (Log decoded))) as Hfile. cbv zeta in Hfile.
    set (res := SetLogger lib os_OpenFile (Level (Log decoded)) (File (Log decoded))) in *.
    simpl. exists (ret_level res).
    destruct Hfile as [(Hf & Hl & Hr)|(err & Ho & Hf & Hl & Hr)]; rewrite Hr, Hf, Hl.
    + exists []. split; [done|]. split; [|split; [|by left]].
      * simpl. by destruct (nonempty (File (Log decoded))).
      * destruct (nonempty (File (Log decoded))); by eauto.
    + eexists. split; [done|]. split; [done|]. split; [by left|].
      right. by exists err.
Qed.

Lemma X20_SetLogger_normalises_level_witness :
  ToLower demo_lib "Warning" ∈ level_names.*1
  /\ ret_level (SetLogger demo_lib (fun _ => Some "permission denied") "Warning"
                  "proxy.log")
     = "warning".
Proof.
  assert (ToLower demo_lib "Warning" ∈ level_names.*1) as Hin.
  { change (ToLower demo_lib "Warning") with "warning". unfold level_names. simpl.
    rewrite !elem_of_cons. tauto. }
  split; [exact Hin|].
  exact (proj1 (proj2 (X20_SetLogger_normalises_level demo_lib
                         (fun _ => Some "permission denied") (fun _ => None)
                         "Warning" "proxy.log")) Hin).
Defined.

Lemma X21_resolved_address_from_answer_witness :
  (resolveHostWithDNS demo_lib demo_net "backend" "8.8.8.8").1 = inl "192.0.2.10".
Proof.
  apply (proj2 (proj2 (proj2 (X21_resolved_address_from_answer
                                demo_lib demo_net "backend" "8.8.8.8")) "192.0.2.10")).
  left.
  exists {| Rcode := 0; Answer := [RR_other; RR_A "192.0.2.10"; RR_A "192.0.2.11"] |},
         [RR_other], [RR_A "192.0.2.11"].
  split; [vm_compute; reflexivity|]. split; [reflexivity|]. split; [reflexivity|].
  intros ip' Hin. apply list_elem_of_singleton in Hin. discriminate.
Defined.

Lemma X25_log_setup_confirmed_by_new_logger_witness :
  exists name,
    (name,
     logger_level
       (LoadConfig_log demo_lib (fun _ => None)
          {| logger_level := zap_InfoLevel; logger_file := None |} x_decoded).1)
    ∈ level_names.
Proof.
  destruct (proj2 (X25_log_setup_confirmed_by_new_logger demo_lib (fun _ => None)
                     {| logger_level := zap_InfoLevel; logger_file := None |} x_decoded))
    as (name & errors & Hin & _).
  - left. vm_compute. discriminate.
  - by exists name.
Defined.
